(** * claudecode_to_html: a shallow embedding of [SessionRenderer]

    The program reads a session log (one JSON value per line) and renders
    it as one HTML page.  This file embeds the rendering pipeline of
    [src/claudecode_to_html.py] as Rocq functions and proves properties
    of it.

    Conventions of the embedding:
    - a Python [str] is a list of Unicode code points ([char := N]);
    - a parsed JSON value is a [json] tree, a [dict] an association list
      in insertion order read with [assoc] (the keys of a [dict] are
      unique, so the first binding is the only one);
    - an uncaught exception is the [Err] case of [result];
    - the services of the Python runtime that the program calls but does
      not define (Unicode tables, [datetime.fromisoformat],
      [difflib.unified_diff], [repr]) are [Variable]s of [Section Model];
      [Module Reference] gives executable instances for the examples;
    - the fixed style sheet and script of the page, and the reading and
      writing of files, are outside the embedding. *)

From Stdlib Require Import String Ascii NArith ZArith QArith Bool Arith Lia.
From Stdlib Require Import DecimalString.
From Stdlib Require Import List.
Import ListNotations.

Set Implicit Arguments.
Set Warnings "-register-all".

#[local] Open Scope string_scope.
#[local] Open Scope N_scope.
#[local] Open Scope list_scope.

(** ** Text *)

Definition char := N.
Definition str := list char.

(** [lit "abc"] is the Python literal ['abc'] (ASCII literals only). *)
Definition ch (a : ascii) : char := N_of_ascii a.
Definition lit (s : string) : str := map N_of_ascii (list_ascii_of_string s).

Definition NL : char := 10.
Definition DQ : char := 34.
Definition SQ : char := 39.

(** [quoted s] is [s] between two double quotes (an HTML attribute value). *)
Definition quoted (s : str) : str := DQ :: s ++ [DQ].

Definition str_eqb (a b : str) : bool :=
  if list_eq_dec N.eq_dec a b then true else false.

(** [str(n)] for a non-negative and for any integer. *)
Definition str_of_nat (n : nat) : str := lit (NilZero.string_of_uint (Nat.to_uint n)).
Definition str_of_Z (z : Z) : str := lit (NilZero.string_of_int (Z.to_int z)).

(** [s.startswith(p)], and the rest of [s] after the prefix [p]. *)
Fixpoint strip_prefix (p s : str) : option str :=
  match p, s with
  | [], _ => Some s
  | a :: p', b :: s' => if a =? b then strip_prefix p' s' else None
  | _ :: _, [] => None
  end.

Definition startswith (p s : str) : bool :=
  match strip_prefix p s with Some _ => true | None => false end.

(** [s.find(p)]: the index of the leftmost occurrence of [p] in [s]. *)
Fixpoint find_sub (p s : str) : option nat :=
  if startswith p s then Some O
  else match s with
       | [] => None
       | _ :: s' => option_map S (find_sub p s')
       end.

(** [p in s] for strings. *)
Definition contains (p s : str) : bool :=
  match find_sub p s with Some _ => true | None => false end.

(** The longest prefix of [s] whose characters satisfy [f], and the rest. *)
Fixpoint span (f : char -> bool) (s : str) : str * str :=
  match s with
  | [] => ([], [])
  | c :: s' => if f c then let (a, b) := span f s' in (c :: a, b) else ([], s)
  end.

(** [sep.join(parts)]. *)
Fixpoint join (sep : str) (parts : list str) : str :=
  match parts with
  | [] => []
  | [p] => p
  | p :: rest => p ++ sep ++ join sep rest
  end.

(** [s.split(sep)] for a one-character separator. *)
Fixpoint split_on (sep : char) (s : str) : list str :=
  match s with
  | [] => [[]]
  | c :: s' =>
      if c =? sep then [] :: split_on sep s'
      else match split_on sep s' with
           | [] => [[c]]
           | l :: ls => (c :: l) :: ls
           end
  end.

(** ** Leftmost, non-overlapping substitution ([re.sub], [str.replace])

    [scan match_at 0 None s] walks [s] from left to right.  At each
    position it asks [match_at prev rest] for a match starting there
    ([prev] is the character before the position, for the [^] anchor);
    a match of [n >= 1] characters is recorded and the walk resumes
    after it, otherwise the character is copied.  None of the patterns
    of the program matches the empty string. *)
Section Scan.
Variable M : Type.
Variable match_at : option char -> str -> option (nat * M).

Fixpoint scan (skip : nat) (prev : option char) (s : str) : list (char + M) :=
  match s with
  | [] => []
  | c :: s' =>
      match skip with
      | S k => scan k (Some c) s'
      | O =>
          match match_at prev s with
          | Some (n, m) => inr m :: scan (Nat.pred n) (Some c) s'
          | None => inl c :: scan O (Some c) s'
          end
      end
  end.

(** The text after substitution: each match replaced by [repl m]. *)
Definition fill (repl : M -> str) (l : list (char + M)) : str :=
  flat_map (fun x => match x with inl c => [c] | inr m => repl m end) l.

Definition re_sub (repl : M -> str) (s : str) : str :=
  fill repl (scan O None s).
End Scan.

(** [s.replace(old, new)] for a non-empty [old]. *)
Definition match_literal (old : str) (_ : option char) (s : str) : option (nat * unit) :=
  match old with
  | [] => None
  | _ :: _ => if startswith old s then Some (length old, tt) else None
  end.

Definition replace (old new s : str) : str :=
  re_sub (match_literal old) (fun _ => new) s.

(** [html.escape(s)] (with [quote=True]). *)
Definition escape_char (c : char) : str :=
  if c =? ch "&" then lit "&amp;"
  else if c =? ch "<" then lit "&lt;"
  else if c =? ch ">" then lit "&gt;"
  else if c =? DQ then lit "&quot;"
  else if c =? SQ then lit "&#x27;"
  else [c].

Definition escape (s : str) : str := flat_map escape_char s.

(** ** JSON values and exceptions *)

(** A Python [float]: a finite one is a rational number. *)
Inductive pyfloat := FNan | FInf (negative : bool) | FFin (q : Q).

(** What [json.loads] returns. *)
Inductive json :=
| JNull
| JBool (b : bool)
| JInt (z : Z)
| JFloat (f : pyfloat)
| JStr (s : str)
| JList (l : list json)
| JDict (d : list (str * json)).

Inductive exn := AttributeError | TypeError.

Inductive result (A : Type) :=
| Ok (a : A)
| Err (e : exn).
Arguments Ok {A} a.
Arguments Err {A} e.

Definition bind {A B : Type} (r : result A) (k : A -> result B) : result B :=
  match r with
  | Ok a => k a
  | Err e => Err e
  end.

Notation "x <- c ;; k" := (bind c (fun x => k))
  (at level 61, c at next level, right associativity).

(** [for x in l: ...] threading an accumulator, stopping at an exception. *)
Fixpoint for_each {A S : Type} (l : list A) (body : S -> A -> result S) (acc : S) : result S :=
  match l with
  | [] => Ok acc
  | x :: l' => acc' <- body acc x ;; for_each l' body acc'
  end.

Fixpoint assoc {V : Type} (k : str) (d : list (str * V)) : option V :=
  match d with
  | [] => None
  | (k', v) :: d' => if str_eqb k k' then Some v else assoc k d'
  end.

(** [v.get(key, default)]: only a [dict] has the method. *)
Definition get (v : json) (key : str) (default : json) : result json :=
  match v with
  | JDict d => Ok (match assoc key d with Some x => x | None => default end)
  | _ => Err AttributeError
  end.

(** [bool(v)]. *)
Definition truthy (v : json) : bool :=
  match v with
  | JNull => false
  | JBool b => b
  | JInt z => negb (z =? 0)%Z
  | JFloat (FFin q) => negb (Qeq_bool q 0)
  | JFloat _ => true
  | JStr s => match s with [] => false | _ => true end
  | JList l => match l with [] => false | _ => true end
  | JDict d => match d with [] => false | _ => true end
  end.

(** Numbers compare by value across [bool], [int] and [float]. *)
Definition as_number (v : json) : option pyfloat :=
  match v with
  | JBool b => Some (FFin (if b then 1 else 0))
  | JInt z => Some (FFin (inject_Z z))
  | JFloat f => Some f
  | _ => None
  end.

Definition float_eqb (a b : pyfloat) : bool :=
  match a, b with
  | FFin p, FFin q => Qeq_bool p q
  | FInf s, FInf t => Bool.eqb s t
  | _, _ => false
  end.

Definition is_nan (v : json) : bool :=
  match v with JFloat FNan => true | _ => false end.

(** [a == b].  Elements of lists and values of dicts are compared as
    CPython does, identity first: the one shared [NaN] object of the
    [json] module equals itself there, and nowhere else. *)
Fixpoint py_eq (a b : json) {struct a} : bool :=
  match a, b with
  | JNull, JNull => true
  | JStr s, JStr t => str_eqb s t
  | JList l, JList m =>
      (fix all2 (l m : list json) {struct l} : bool :=
         match l, m with
         | [], [] => true
         | x :: l', y :: m' => ((is_nan x && is_nan y) || py_eq x y) && all2 l' m'
         | _, _ => false
         end) l m
  | JDict d, JDict e =>
      (length d =? length e)%nat &&
      (fix all (d : list (str * json)) {struct d} : bool :=
         match d with
         | [] => true
         | (k, v) :: d' =>
             match assoc k e with
             | Some w => ((is_nan v && is_nan w) || py_eq v w) && all d'
             | None => false
             end
         end) d
  | _, _ =>
      match as_number a, as_number b with
      | Some x, Some y => float_eqb x y
      | _, _ => false
      end
  end.

Definition is_str (expected : str) (v : json) : bool := py_eq v (JStr expected).

(** [for item in v]: the items that iterating [v] yields. *)
Definition iterate (v : json) : result (list json) :=
  match v with
  | JList l => Ok l
  | JStr s => Ok (map (fun c => JStr [c]) s)
  | JDict d => Ok (map (fun kv => JStr (fst kv)) d)
  | _ => Err TypeError
  end.

(** ** HTML fragments *)

(** [ln n body]: a line break, [n] spaces of indentation, then [body]
    (one line of a triple-quoted template). *)
Definition ln (n : nat) (body : str) : str := NL :: repeat 32 n ++ body.

(** [<name k1="v1" k2="v2">]. *)
Definition open_tag (name : string) (attrs : list (string * str)) : str :=
  lit "<" ++ lit name
    ++ flat_map (fun kv => lit " " ++ lit (fst kv) ++ lit "=" ++ quoted (snd kv)) attrs
    ++ lit ">".

Definition div (class : string) : str := open_tag "div" [("class", lit class)].
Definition span_ (class : string) : str := open_tag "span" [("class", lit class)].

(** ** The renderer *)

Section Model.
(** [str.isalnum], [str.isspace] and the decimal digit value
    ([unicodedata.decimal]) on the code points from 128 on. *)
Variable uni_alnum : char -> bool.
Variable uni_space : char -> bool.
Variable uni_decimal : char -> option Z.

(** *** Timing (lines 51-122) *)

(** A [datetime]: its instant in microseconds (on the UTC time line
    when it carries an offset, on the local one when naive).  A
    [timedelta] is a number of microseconds. *)
Record datetime := { dt_us : Z; dt_aware : bool }.

(** [datetime.fromisoformat]; [None] stands for [ValueError]. *)
Variable fromisoformat : str -> option datetime.

(** [a - b]: naive and aware values do not subtract. *)
Definition dt_sub (a b : datetime) : result Z :=
  if Bool.eqb (dt_aware a) (dt_aware b) then Ok (dt_us a - dt_us b)%Z
  else Err TypeError.

Record timing := {
  total_duration : Z;
  claude_working_time : Z;
  waiting_for_user_time : Z
}.

Definition zero_timing : timing :=
  {| total_duration := 0; claude_working_time := 0; waiting_for_user_time := 0 |}.

(** An entry of [timestamped_messages]. *)
Record stamped := { st_type : json; st_time : datetime }.

(** The body of the [try]: [None] when [ValueError] or
    [AttributeError] is caught. *)
Definition parse_timestamp (timestamp_str : json) : option datetime :=
  match timestamp_str with
  | JStr s => fromisoformat (replace (lit "Z") (lit "+00:00") s)
  | _ => None
  end.

Definition collect_stamped (messages : list json) : result (list stamped) :=
  for_each messages
    (fun acc msg =>
       timestamp_str <- get msg (lit "timestamp") JNull ;;
       if truthy timestamp_str then
         match parse_timestamp timestamp_str with
         | Some t =>
             type <- get msg (lit "type") JNull ;;
             Ok (acc ++ [{| st_type := type; st_time := t |}])
         | None => Ok acc
         end
       else Ok acc)
    [].

(** The loop [for i in range(1, len(timestamped_messages))], entered
    with [prev = timestamped_messages[i - 1]]. *)
Fixpoint timing_loop (prev : stamped) (rest : list stamped) (working waiting : Z)
  : result (Z * Z) :=
  match rest with
  | [] => Ok (working, waiting)
  | curr :: rest' =>
      time_diff <- dt_sub (st_time curr) (st_time prev) ;;
      if is_str (lit "user") (st_type prev) && is_str (lit "assistant") (st_type curr)
      then timing_loop curr rest' (working + time_diff)%Z waiting
      else if is_str (lit "assistant") (st_type prev) && is_str (lit "user") (st_type curr)
      then timing_loop curr rest' working (waiting + time_diff)%Z
      else timing_loop curr rest' working waiting
  end.

Definition calculate_session_timing (messages : list json) : result timing :=
  match messages with
  | [] => Ok zero_timing
  | _ :: _ =>
      timestamped_messages <- collect_stamped messages ;;
      match timestamped_messages with
      | first :: ((_ :: _) as rest) =>
          total <- dt_sub (st_time (last rest first)) (st_time first) ;;
          ww <- timing_loop first rest 0%Z 0%Z ;;
          Ok {| total_duration := total;
                claude_working_time := fst ww;
                waiting_for_user_time := snd ww |}
      | _ => Ok zero_timing
      end
  end.

(** Rounding of the quotient [num / den] of two positive integers to
    the nearest integer, a tie going to the even one. *)
Definition round_half_even (num den : Z) : Z :=
  let q := (num / den)%Z in
  let r := (num mod den)%Z in
  if (2 * r <? den)%Z then q
  else if (den <? 2 * r)%Z then (q + 1)%Z
  else if Z.even q then q else (q + 1)%Z.

(** [int(n / 10**6)] for a positive number [n] of microseconds: the
    quotient is the binary64 number nearest to [n / 10^6], that is
    [m * 2^e] with [2^52 <= m <= 2^53] the rounding of
    [n / (10^6 * 2^e)]; [int] then drops its fraction. *)
Definition whole_seconds (n : Z) : Z :=
  let scaled := fun e : Z =>
    if (0 <=? e)%Z then (n, (1000000 * 2 ^ e)%Z) else ((n * 2 ^ (- e))%Z, 1000000%Z) in
  let e0 := (Z.log2 n - 71)%Z in
  let e := if (fst (scaled e0) <? 2 ^ 52 * snd (scaled e0))%Z then (e0 - 1)%Z else e0 in
  let m := round_half_even (fst (scaled e)) (snd (scaled e)) in
  if (0 <=? e)%Z then (m * 2 ^ e)%Z else (m / 2 ^ (- e))%Z.

(** [int(td.total_seconds())].  [total_seconds] divides the
    microseconds of the duration by [10**6] as a float, the division
    of two integers being correctly rounded and symmetric in the sign,
    and [int] truncates toward zero.  Below 2^53 microseconds this is
    the truncating quotient [td ÷ 1000000] (lemma
    [int_total_seconds_quot]); from 2^34 seconds on a duration that
    ends in .999999 seconds is rounded up to the next second.
    (The range check of [timedelta], a thousand million days, is not
    modelled.) *)
Definition int_total_seconds (td : Z) : Z :=
  match td with
  | Z0 => 0%Z
  | Zpos _ => whole_seconds td
  | Zneg _ => (- whole_seconds (- td))%Z
  end.

Definition format_timedelta (td : Z) : str :=
  let total_seconds := int_total_seconds td in
  let hours := (total_seconds / 3600)%Z in
  let minutes := ((total_seconds mod 3600) / 60)%Z in
  let seconds := (total_seconds mod 60)%Z in
  let parts := [] in
  let parts := if (hours >? 0)%Z then parts ++ [str_of_Z hours ++ lit "h"] else parts in
  let parts := if (minutes >? 0)%Z || (hours >? 0)%Z
               then parts ++ [str_of_Z minutes ++ lit "m"] else parts in
  let parts := parts ++ [str_of_Z seconds ++ lit "s"] in
  join (lit " ") parts.

(** [timing_html] of [render_html] (lines 891-906). *)
Definition timing_item (label : string) (td : Z) : str :=
  ln 16 (div "timing-item")
    ++ ln 20 (span_ "timing-label" ++ lit label ++ lit "</span>")
    ++ ln 20 (span_ "timing-value" ++ format_timedelta td ++ lit "</span>")
    ++ ln 16 (lit "</div>").

Definition timing_html (messages : list json) : result str :=
  t <- calculate_session_timing messages ;;
  Ok (ln 12 (div "session-timing")
        ++ timing_item "Total Duration:" (total_duration t)
        ++ timing_item "Claude Working Time:" (claude_working_time t)
        ++ timing_item "Waiting for User:" (waiting_for_user_time t)
        ++ ln 12 (lit "</div>")).

(** *** Markdown (lines 124-173) *)

Definition ascii_alnum (c : char) : bool :=
  ((48 <=? c) && (c <=? 57)) || ((65 <=? c) && (c <=? 90)) || ((97 <=? c) && (c <=? 122)).

(** The class [\w] of a [str] pattern. *)
Definition is_word (c : char) : bool :=
  if c <? 128 then ascii_alnum c || (c =? ch "_") else uni_alnum c.

(** A match of [```(\w+)?\n(.*?)```] (with [re.DOTALL]):
    [(match.group(1) or '', match.group(2))]. *)
Record fence := { fence_lang : str; fence_code : str }.

Definition fence_mark : str := lit "```".

Definition match_fence (s : str) : option (nat * fence) :=
  match strip_prefix fence_mark s with
  | None => None
  | Some r =>
      let (w, r2) := span is_word r in
      match r2 with
      | c :: r3 =>
          if c =? NL then
            match find_sub fence_mark r3 with
            | Some k =>
                Some (3 + length w + 1 + k + 3,
                      {| fence_lang := w; fence_code := firstn k r3 |})%nat
            | None => None
            end
          else None
      | [] => None
      end
  end.

(** The match as [save_code_block] sees it: [match.group(0)]. *)
Definition match_fence_text (_ : option char) (s : str) : option (nat * str) :=
  match match_fence s with
  | Some (n, _) => Some (n, firstn n s)
  | None => None
  end.

Definition placeholder (i : nat) : str :=
  lit "___CODE_BLOCK_" ++ str_of_nat i ++ lit "___".

(** [re.sub(fence, save_code_block, text)]: the text with the [i]-th
    match replaced by [placeholder i], and [code_blocks]. *)
Fixpoint save_code_blocks (l : list (char + str)) (i : nat) : str * list str :=
  match l with
  | [] => ([], [])
  | inl c :: l' => let (t, bs) := save_code_blocks l' i in (c :: t, bs)
  | inr b :: l' => let (t, bs) := save_code_blocks l' (S i) in (placeholder i ++ t, b :: bs)
  end.

Definition extract_code_blocks (text : str) : str * list str :=
  save_code_blocks (scan match_fence_text O None text) O.

(** A match of [^MARK (.+)$] (with [re.MULTILINE]): [match.group(1)]. *)
Definition at_line_start (prev : option char) : bool :=
  match prev with None => true | Some c => c =? NL end.

Definition match_header (mark : str) (prev : option char) (s : str) : option (nat * str) :=
  if at_line_start prev then
    match strip_prefix mark s with
    | Some r =>
        match fst (span (fun c => negb (c =? NL)) r) with
        | [] => None
        | g => Some (length mark + length g, g)%nat
        end
    | None => None
    end
  else None.

Definition sub_header (mark start_ end_ : str) (text : str) : str :=
  re_sub (match_header mark) (fun g => start_ ++ g ++ end_) text.

(** A match of [`([^`]+)`]: [match.group(1)]. *)
Definition match_code_span (_ : option char) (s : str) : option (nat * str) :=
  match s with
  | c :: r =>
      if c =? ch "`" then
        match span (fun c => negb (c =? ch "`")) r with
        | ((_ :: _) as g, _ :: _) => Some (length g + 2, g)%nat
        | _ => None
        end
      else None
  | [] => None
  end.

(** [lazy_dot_until close s]: the shortest run of characters other
    than newline at the head of [s] that is followed by [close]
    (the lazy [.*?] before a literal). *)
Fixpoint lazy_dot_until (close : str) (s : str) : option str :=
  if startswith close s then Some []
  else match s with
       | c :: s' => if c =? NL then None else option_map (cons c) (lazy_dot_until close s')
       | [] => None
       end.

(** A match of [DELIM(.+?)DELIM] for a literal [DELIM]: [match.group(1)]. *)
Definition match_emph (delim : str) (_ : option char) (s : str) : option (nat * str) :=
  match strip_prefix delim s with
  | Some (c :: r) =>
      if c =? NL then None
      else match lazy_dot_until delim r with
           | Some g => Some (length delim + S (length g) + length delim, c :: g)%nat
           | None => None
           end
  | _ => None
  end.

Definition wrap_tag (tag : str) (g : str) : str :=
  lit "<" ++ tag ++ lit ">" ++ g ++ lit "</" ++ tag ++ lit ">".

(** What replaces the placeholder of a block. *)
Definition restored (f : fence) : str :=
  lit "<pre><code class=" ++ quoted (lit "language-" ++ fence_lang f) ++ lit ">"
    ++ escape (fence_code f) ++ lit "</code></pre>".

(** The restoring loop [for i, block in enumerate(code_blocks)]. *)
Fixpoint restore_code_blocks (blocks : list str) (i : nat) (html : str) : str :=
  match blocks with
  | [] => html
  | block :: rest =>
      let html' :=
        match match_fence block with
        | Some (_, f) => replace (placeholder i ++ lit "<br>" ++ [NL]) (restored f) html
        | None => html
        end in
      restore_code_blocks rest (S i) html'
  end.

Definition render_markdown (text : str) : str :=
  match text with
  | [] => []
  | _ :: _ =>
      let (text, code_blocks) := extract_code_blocks text in
      let text := sub_header (lit "### ") (lit "___H3_START___") (lit "___H3_END___") text in
      let text := sub_header (lit "## ") (lit "___H2_START___") (lit "___H2_END___") text in
      let text := sub_header (lit "# ") (lit "___H1_START___") (lit "___H1_END___") text in
      let html := escape text in
      let html := replace (lit "___H3_END___") (lit "</h3>")
                    (replace (lit "___H3_START___") (lit "<h3>") html) in
      let html := replace (lit "___H2_END___") (lit "</h2>")
                    (replace (lit "___H2_START___") (lit "<h2>") html) in
      let html := replace (lit "___H1_END___") (lit "</h1>")
                    (replace (lit "___H1_START___") (lit "<h1>") html) in
      let html := re_sub match_code_span (wrap_tag (lit "code")) html in
      let html := re_sub (match_emph (lit "**")) (wrap_tag (lit "strong")) html in
      let html := re_sub (match_emph (lit "*")) (wrap_tag (lit "em")) html in
      let html := replace [NL] (lit "<br>" ++ [NL]) html in
      restore_code_blocks code_blocks O html
  end.

(** [render_markdown] applied to a value that may not be a string:
    a false value returns [''] at once, [re.sub] refuses anything
    else that is not a string. *)
Definition render_markdown_value (text : json) : result str :=
  if truthy text then
    match text with
    | JStr s => Ok (render_markdown s)
    | _ => Err TypeError
    end
  else Ok [].

(** *** Tool use (lines 175-198) *)

(** [repr(value)]. *)
Variable py_repr : json -> str.

Definition TOOL_COLORS : list (str * str) :=
  [ (lit "Read", lit "#3b82f6");
    (lit "Write", lit "#10b981");
    (lit "Edit", lit "#f59e0b");
    (lit "Bash", lit "#22c55e");
    (lit "Grep", lit "#8b5cf6");
    (lit "Glob", lit "#ec4899");
    (lit "Task", lit "#06b6d4");
    (lit "WebFetch", lit "#14b8a6");
    (lit "WebSearch", lit "#f97316");
    (lit "TodoWrite", lit "#a855f7");
    (lit "default", lit "#6b7280") ].

Definition default_color : str :=
  match assoc (lit "default") TOOL_COLORS with Some c => c | None => [] end.

(** [TOOL_COLORS.get(tool_name, TOOL_COLORS['default'])]: a list or a
    dict is not hashable. *)
Definition tool_color (tool_name : json) : result str :=
  match tool_name with
  | JStr s => Ok (match assoc s TOOL_COLORS with Some c => c | None => default_color end)
  | JList _ | JDict _ => Err TypeError
  | _ => Ok default_color
  end.

(** [escape(v)]: only a string has [replace]. *)
Definition escape_value (v : json) : result str :=
  match v with
  | JStr s => Ok (escape s)
  | _ => Err AttributeError
  end.

Definition items (v : json) : result (list (str * json)) :=
  match v with
  | JDict d => Ok d
  | _ => Err AttributeError
  end.

Definition param_preview (kv : str * json) : str :=
  let value :=
    match snd kv with
    | JStr s => if (100 <? length s)%nat then JStr (firstn 100 s ++ lit "...") else JStr s
    | v => v
    end in
  fst kv ++ lit "=" ++ py_repr value.

Definition render_tool_use (tool : json) : result str :=
  tool_name <- get tool (lit "name") (JStr (lit "Unknown")) ;;
  tool_input <- get tool (lit "input") (JDict []) ;;
  color <- tool_color tool_name ;;
  kvs <- items tool_input ;;
  let params := map param_preview kvs in
  let params_str := match params with [] => [] | _ => join (lit ", ") params end in
  name_html <- escape_value tool_name ;;
  Ok (ln 8 (div "tool-use")
        ++ ln 12 (div "tool-header")
        ++ ln 16 (open_tag "span" [("class", lit "tool-dot");
                                   ("style", lit "background-color: " ++ color)]
                    ++ lit "</span>")
        ++ ln 16 (span_ "tool-name" ++ name_html ++ lit "</span>")
        ++ ln 16 (match params_str with
                  | [] => []
                  | _ => span_ "tool-params" ++ escape params_str ++ lit "</span>"
                  end)
        ++ ln 12 (lit "</div>")
        ++ ln 8 (lit "</div>")
        ++ ln 8 []).

(** *** Edit diffs (lines 200-317) *)

(** [difflib.unified_diff(a, b, lineterm='')], as a list. *)
Variable unified_diff : list str -> list str -> list str.

(** The line boundaries of [str.splitlines]. *)
Definition is_linebreak (c : char) : bool :=
  existsb (N.eqb c) [10; 11; 12; 13; 28; 29; 30; 133; 8232; 8233].

(** [s.splitlines(keepends=True)], [cur] being the line read so far. *)
Fixpoint splitlines_from (cur s : str) : list str :=
  match s with
  | [] => match cur with [] => [] | _ => [cur] end
  | c :: s' =>
      if c =? 13 then
        match s' with
        | d :: s'' =>
            if d =? 10 then (cur ++ [c; d]) :: splitlines_from [] s''
            else (cur ++ [c]) :: splitlines_from [] s'
        | [] => [cur ++ [c]]
        end
      else if is_linebreak c then (cur ++ [c]) :: splitlines_from [] s'
      else splitlines_from (cur ++ [c]) s'
  end.

Definition splitlines (v : json) : result (list str) :=
  match v with
  | JStr s => Ok (splitlines_from [] s)
  | _ => Err AttributeError
  end.

(** The class [\d] and [int()] on a run of digits. *)
Definition digit_value (c : char) : option Z :=
  if c <? 128 then
    if (48 <=? c) && (c <=? 57) then Some (Z.of_N c - 48)%Z else None
  else uni_decimal c.

Definition is_digit (c : char) : bool :=
  match digit_value c with Some _ => true | None => false end.

Definition int_of_digits (ds : str) : Z :=
  fold_left (fun acc c => (10 * acc + match digit_value c with Some d => d | None => 0 end)%Z)
    ds 0%Z.

(** One side of a hunk header, [(\d+),?\d*]: the first run of digits
    and what follows the range. *)
Definition match_range (s : str) : option (str * str) :=
  match span is_digit s with
  | ([], _) => None
  | (ds, r) =>
      let r := match r with
               | c :: r' => if c =? ch "," then r' else r
               | [] => r
               end in
      Some (ds, snd (span is_digit r))
  end.

(** [re.match(r'@@ -(\d+),?\d* \+(\d+),?\d* @@', line)]:
    [(int(match.group(1)), int(match.group(2)))]. *)
Definition match_hunk (line : str) : option (Z * Z) :=
  match strip_prefix (lit "@@ -") line with
  | None => None
  | Some r =>
      match match_range r with
      | None => None
      | Some (old_start, r) =>
          match strip_prefix (lit " +") r with
          | None => None
          | Some r =>
              match match_range r with
              | None => None
              | Some (new_start, r) =>
                  if startswith (lit " @@") r
                  then Some (int_of_digits old_start, int_of_digits new_start)
                  else None
              end
          end
      end
  end.

Inductive line_type := Delete | Add | Context.

(** An entry of [diff_body]; a line number [''] is [None]. *)
Record diff_line := {
  dl_type : line_type;
  old_line : option Z;
  new_line : option Z;
  dl_content : str
}.

(** The loop [for line in diff[2:]] with its two counters. *)
Fixpoint diff_body_from (lines : list str) (old_line_num new_line_num : Z)
  : list diff_line :=
  match lines with
  | [] => []
  | line :: rest =>
      if startswith (lit "@@") line then
        match match_hunk line with
        | Some (o, n) => diff_body_from rest (o - 1)%Z (n - 1)%Z
        | None => diff_body_from rest old_line_num new_line_num
        end
      else if startswith (lit "-") line then
        let old_line_num := (old_line_num + 1)%Z in
        {| dl_type := Delete; old_line := Some old_line_num; new_line := None;
           dl_content := skipn 1 line |}
          :: diff_body_from rest old_line_num new_line_num
      else if startswith (lit "+") line then
        let new_line_num := (new_line_num + 1)%Z in
        {| dl_type := Add; old_line := None; new_line := Some new_line_num;
           dl_content := skipn 1 line |}
          :: diff_body_from rest old_line_num new_line_num
      else
        let old_line_num := (old_line_num + 1)%Z in
        let new_line_num := (new_line_num + 1)%Z in
        {| dl_type := Context; old_line := Some old_line_num; new_line := Some new_line_num;
           dl_content := if startswith (lit " ") line then skipn 1 line else line |}
          :: diff_body_from rest old_line_num new_line_num
  end.

Definition diff_body (diff : list str) : list diff_line :=
  diff_body_from (skipn 2 diff) 0%Z 0%Z.

(** [s.rstrip('\n')]. *)
Fixpoint rstrip_nl (s : str) : str :=
  match s with
  | [] => []
  | c :: s' =>
      match rstrip_nl s' with
      | [] => if c =? NL then [] else [c]
      | r => c :: r
      end
  end.

(** [{num if num else ''}]. *)
Definition line_num (num : option Z) : str :=
  match num with
  | Some z => if (z =? 0)%Z then [] else str_of_Z z
  | None => []
  end.

Definition render_diff_line (line : diff_line) : str :=
  let content := escape (rstrip_nl (dl_content line)) in
  let (prefix, css_class) :=
    match dl_type line with
    | Delete => (lit "-", lit "diff-del")
    | Add => (lit "+", lit "diff-add")
    | Context => ([], lit "diff-context")
    end in
  open_tag "div" [("class", lit "diff-line " ++ css_class)]
    ++ ln 16 (span_ "diff-line-num old" ++ line_num (old_line line) ++ lit "</span>")
    ++ ln 16 (span_ "diff-line-num new" ++ line_num (new_line line) ++ lit "</span>")
    ++ ln 16 (span_ "diff-prefix" ++ prefix ++ lit "</span>")
    ++ ln 16 (span_ "diff-content" ++ content ++ lit "</span>")
    ++ ln 12 (lit "</div>").

Definition _render_diff_lines (diff_lines : list diff_line) : str :=
  div "diff-lines" ++ flat_map render_diff_line diff_lines ++ lit "</div>".

Definition no_changes : str :=
  div "tool-result" ++ lit "<pre><code>No changes</code></pre></div>".

Definition expand_onclick (target : string) : str :=
  lit target ++ lit ".classList.toggle('expanded')".

(** The two templates of [render_edit_diff]: [header] is
    [html_lines[0] if html_lines else '']. *)
Definition collapsed_diff (header preview_html full_html : str) (hidden_count : nat) : str :=
  ln 12 (div "edit-diff collapsible")
    ++ ln 16 header
    ++ ln 16 (div "diff-preview")
    ++ ln 20 preview_html
    ++ ln 20 (open_tag "div"
                [("class", lit "diff-expand-link");
                 ("onclick", expand_onclick "this.parentElement.parentElement")])
    ++ ln 24 (lit "Show full diff (" ++ str_of_nat hidden_count ++ lit " more lines)")
    ++ ln 20 (lit "</div>")
    ++ ln 16 (lit "</div>")
    ++ ln 16 (div "diff-full")
    ++ ln 20 full_html
    ++ ln 16 (lit "</div>")
    ++ ln 12 (lit "</div>")
    ++ ln 12 [].

Definition expanded_diff (header diff_html : str) : str :=
  ln 12 (div "edit-diff")
    ++ ln 16 header
    ++ ln 16 diff_html
    ++ ln 12 (lit "</div>")
    ++ ln 12 [].

(** [render_edit_diff] from the line after the call of [unified_diff]
    on. *)
Definition render_diff_html (diff : list str) (header : str) : str :=
  match diff with
  | [] => no_changes
  | _ :: _ =>
      let body := diff_body diff in
      let total_lines := length body in
      let should_collapse := (10 <? total_lines)%nat in
      if should_collapse then
        let preview_html := _render_diff_lines (firstn 5 body) in
        let full_html := _render_diff_lines body in
        let hidden_count := (total_lines - 5)%nat in
        collapsed_diff header preview_html full_html hidden_count
      else
        let diff_html := _render_diff_lines body in
        expanded_diff header diff_html
  end.

(** The bullet of the file header, U+2022. *)
Definition BULLET : char := 8226.

Definition render_edit_diff (old_string new_string file_path : json) : result str :=
  old_lines <- splitlines old_string ;;
  new_lines <- splitlines new_string ;;
  let diff := unified_diff old_lines new_lines in
  match diff with
  | [] => Ok no_changes
  | _ :: _ =>
      header <- (if truthy file_path then
                   path <- escape_value file_path ;;
                   Ok (div "diff-file-header" ++ BULLET :: lit " Edit " ++ path ++ lit "</div>")
                 else Ok []) ;;
      Ok (render_diff_html diff header)
  end.

(** *** Tool results (lines 319-390) *)

(** The arrow of numbered file listings, U+2192. *)
Definition ARROW : char := 8594.

(** The loop that joins the text items of a list content;
    [str.join] refuses an item that is not a string. *)
Definition text_parts (content : list json) : result (list json) :=
  for_each content
    (fun parts item =>
       match item with
       | JDict _ =>
           type <- get item (lit "type") JNull ;;
           if is_str (lit "text") type then
             text <- get item (lit "text") (JStr []) ;;
             Ok (parts ++ [text])
           else Ok parts
       | JStr _ => Ok (parts ++ [item])
       | _ => Ok parts
       end)
    [].

Definition join_values (sep : str) (parts : list json) : result str :=
  strs <- for_each parts
            (fun acc v => match v with
                          | JStr s => Ok (acc ++ [s])
                          | _ => Err TypeError
                          end)
            [] ;;
  Ok (join sep strs).

(** [content] after the [isinstance(content, list)] block. *)
Definition result_content (item : json) : result json :=
  content <- get item (lit "content") (JStr []) ;;
  match content with
  | JList l =>
      parts <- text_parts l ;;
      s <- join_values [NL] parts ;;
      Ok (JStr s)
  | _ => Ok content
  end.

Definition collapsed_result (what : string) (preview content : str) (n : nat) : nat -> str :=
  fun base =>
    ln base (div "tool-result collapsible")
      ++ ln (base + 4) (open_tag "div"
                          [("class", lit "tool-result-preview");
                           ("onclick", expand_onclick "this.parentElement")])
      ++ ln (base + 8) (lit "<pre><code>" ++ escape preview ++ lit "</code></pre>")
      ++ ln (base + 8) (div "expand-hint" ++ lit "Click to show full " ++ lit what ++ lit " ("
                          ++ str_of_nat n ++ lit " lines)</div>")
      ++ ln (base + 4) (lit "</div>")
      ++ ln (base + 4) (div "tool-result-full")
      ++ ln (base + 8) (lit "<pre><code>" ++ escape content ++ lit "</code></pre>")
      ++ ln (base + 4) (lit "</div>")
      ++ ln base (lit "</div>")
      ++ ln base [].

Definition plain_result (content : str) : str :=
  ln 12 (div "tool-result")
    ++ ln 16 (lit "<pre><code>" ++ escape content ++ lit "</code></pre>")
    ++ ln 12 (lit "</div>")
    ++ ln 12 [].

(** The rendering of a string content (from line 345 on). *)
Definition render_content (tool_name : json) (content : str) : str :=
  let is_file_content := contains [ARROW] content && contains [NL] content in
  let lines := split_on NL content in
  if (is_str (lit "Bash") tool_name || is_str (lit "Grep") tool_name)
     && (3 <? length lines)%nat
  then collapsed_result "output" (join [NL] (firstn 3 lines)) content (length lines) 16
  else if is_file_content && (20 <? length lines)%nat
  then collapsed_result "content"
         (join [NL] (firstn 10 lines ++ [lit "... (content hidden) ..."]
                       ++ skipn (length lines - 5) lines))
         content (length lines) 12
  else plain_result content.

Definition render_tool_result (item tool_name tool_input : json) : result str :=
  if is_str (lit "Edit") tool_name && truthy tool_input then
    old_string <- get tool_input (lit "old_string") (JStr []) ;;
    new_string <- get tool_input (lit "new_string") (JStr []) ;;
    file_path <- get tool_input (lit "file_path") (JStr []) ;;
    render_edit_diff old_string new_string file_path
  else
    content <- result_content item ;;
    if truthy content then
      match content with
      | JStr s => Ok (render_content tool_name s)
      | JDict _ => Err AttributeError
      | _ => Err TypeError
      end
    else Ok [].

(** *** Generic diffs (lines 392-407) *)

Definition render_diff (content : str) : str :=
  let lines := split_on NL content in
  if (20 <? length lines)%nat then
    ln 12 (div "diff-block collapsible")
      ++ ln 16 (open_tag "pre" [("class", lit "diff-preview")]
                  ++ lit "<code>" ++ escape (join [NL] (firstn 15 lines)) ++ lit "</code></pre>")
      ++ ln 16 (open_tag "div" [("class", lit "expand-link");
                                ("onclick", expand_onclick "this.parentElement")])
      ++ ln 20 (lit "Show full diff (" ++ str_of_nat (length lines - 15) ++ lit " more lines)")
      ++ ln 16 (lit "</div>")
      ++ ln 16 (open_tag "pre" [("class", lit "diff-full")]
                  ++ lit "<code>" ++ escape content ++ lit "</code></pre>")
      ++ ln 12 (lit "</div>")
      ++ ln 12 []
  else open_tag "pre" [("class", lit "diff-block")]
         ++ lit "<code>" ++ escape content ++ lit "</code></pre>".

(** *** Messages (lines 409-490) *)

Definition ascii_space (c : char) : bool :=
  ((9 <=? c) && (c <=? 13)) || ((28 <=? c) && (c <=? 32)).

(** [str.isspace] of one character. *)
Definition is_space (c : char) : bool :=
  if c <? 128 then ascii_space c else uni_space c.

Fixpoint lstrip (s : str) : str :=
  match s with
  | [] => []
  | c :: s' => if is_space c then lstrip s' else s
  end.

(** [s.strip()]. *)
Definition strip (s : str) : str := rev (lstrip (rev (lstrip s))).

Definition strip_value (v : json) : result str :=
  match v with
  | JStr s => Ok (strip s)
  | _ => Err AttributeError
  end.

Definition message_text (inner : str) : str :=
  div "message-text" ++ inner ++ lit "</div>".

(** The first match of the double loop of [find_and_render_tool_result]
    is rendered; [Ok []] is [return ''] after the loop. *)
Fixpoint find_in_items (items : list json) (tool_id tool_name tool_input : json)
  : result (option str) :=
  match items with
  | [] => Ok None
  | item :: rest =>
      match item with
      | JDict _ =>
          type <- get item (lit "type") JNull ;;
          if is_str (lit "tool_result") type then
            id <- get item (lit "tool_use_id") JNull ;;
            if py_eq id tool_id then
              html <- render_tool_result item tool_name tool_input ;;
              Ok (Some html)
            else find_in_items rest tool_id tool_name tool_input
          else find_in_items rest tool_id tool_name tool_input
      | _ => find_in_items rest tool_id tool_name tool_input
      end
  end.

Fixpoint find_and_render_tool_result (messages : list json)
    (tool_id tool_name tool_input : json) : result str :=
  match messages with
  | [] => Ok []
  | msg :: rest =>
      type <- get msg (lit "type") JNull ;;
      if is_str (lit "user") type then
        message <- get msg (lit "message") (JDict []) ;;
        content <- get message (lit "content") (JList []) ;;
        match content with
        | JStr _ => find_and_render_tool_result rest tool_id tool_name tool_input
        | _ =>
            items <- iterate content ;;
            found <- find_in_items items tool_id tool_name tool_input ;;
            match found with
            | Some html => Ok html
            | None => find_and_render_tool_result rest tool_id tool_name tool_input
            end
        end
      else find_and_render_tool_result rest tool_id tool_name tool_input
  end.

(** The body of the loop over the content items of a user message. *)
Definition user_item (html_parts : list str) (item : json) : result (list str) :=
  match item with
  | JStr s => Ok (html_parts ++ [message_text (render_markdown s)])
  | JDict _ =>
      type <- get item (lit "type") JNull ;;
      if is_str (lit "text") type then
        text <- get item (lit "text") (JStr []) ;;
        html <- render_markdown_value text ;;
        Ok (html_parts ++ [message_text html])
      else Ok html_parts
  | _ => Ok html_parts
  end.

(** The body of the loop over the content items of an assistant
    message; [messages] is [self.messages]. *)
Definition assistant_item (messages : list json) (html_parts : list str) (item : json)
  : result (list str) :=
  match item with
  | JStr s =>
      match strip s with
      | [] => Ok html_parts
      | _ => Ok (html_parts ++ [message_text (render_markdown s)])
      end
  | JDict _ =>
      item_type <- get item (lit "type") JNull ;;
      if is_str (lit "text") item_type then
        text <- get item (lit "text") (JStr []) ;;
        stripped <- strip_value text ;;
        match stripped with
        | [] => Ok html_parts
        | _ =>
            html <- render_markdown_value text ;;
            Ok (html_parts ++ [message_text html])
        end
      else if is_str (lit "thinking") item_type then Ok html_parts
      else if is_str (lit "tool_use") item_type then
        use_html <- render_tool_use item ;;
        let html_parts := html_parts ++ [use_html] in
        tool_id <- get item (lit "id") JNull ;;
        tool_name <- get item (lit "name") (JStr []) ;;
        tool_input <- get item (lit "input") (JDict []) ;;
        result_html <- find_and_render_tool_result messages tool_id tool_name tool_input ;;
        match result_html with
        | [] => Ok html_parts
        | _ => Ok (html_parts ++ [result_html])
        end
      else Ok html_parts
  | _ => Ok html_parts
  end.

Definition message_block (class : string) (html_parts : list str) : str :=
  match html_parts with
  | [] => []
  | _ => div class ++ concat html_parts ++ lit "</div>"
  end.

Definition render_message (messages : list json) (msg : json) : result str :=
  msg_type <- get msg (lit "type") JNull ;;
  message <- get msg (lit "message") (JDict []) ;;
  role <- get message (lit "role") (JStr []) ;;
  content_items <- get message (lit "content") (JList []) ;;
  if is_str (lit "user") msg_type then
    html_parts <- match content_items with
                  | JStr s => Ok [message_text (render_markdown s)]
                  | _ =>
                      items <- iterate content_items ;;
                      for_each items user_item []
                  end ;;
    Ok (message_block "message user-message" html_parts)
  else if is_str (lit "assistant") msg_type then
    items <- iterate content_items ;;
    html_parts <- for_each items (assistant_item messages) [] ;;
    Ok (message_block "message assistant-message" html_parts)
  else Ok [].

(** [messages_html] of [render_html]: the rendered messages that are
    not empty, concatenated. *)
Definition messages_html (messages : list json) : result str :=
  parts <- for_each messages
             (fun acc msg =>
                rendered <- render_message messages msg ;;
                match rendered with
                | [] => Ok acc
                | _ => Ok (acc ++ [rendered])
                end)
             [] ;;
  Ok (concat parts).

(** *** Loading (lines 40-49)

    A line of the file is [Some data] when [json.loads] parses it and
    [None] when it raises [JSONDecodeError]. *)
Definition recognized_type (type : json) : bool :=
  existsb (fun t => py_eq type (JStr t)) [lit "user"; lit "assistant"; lit "system"].

Definition load_messages (lines : list (option json)) : result (list json) :=
  for_each lines
    (fun messages line =>
       match line with
       | Some data =>
           type <- get data (lit "type") JNull ;;
           if recognized_type type then Ok (messages ++ [data]) else Ok messages
       | None => Ok messages
       end)
    [].

End Model.

(** ** Reference instances of the runtime services

    Executable stand-ins for the [Variable]s of [Section Model], used to
    run the model on concrete inputs.  The theorems of this file hold
    for every instance; these ones follow CPython 3.11 on the domain
    stated for each. *)

Module Reference.

(** [str.isalnum] and [str.isspace] from 128 on: exact below 256
    (Latin-1); the code points from 256 on count as neither. *)
Definition alnum (c : char) : bool :=
  existsb (N.eqb c) [170; 178; 179; 181; 185; 186; 188; 189; 190]
  || ((192 <=? c) && (c <=? 255) && negb (c =? 215) && negb (c =? 247)).

Definition space (c : char) : bool := (c =? 133) || (c =? 160).

(** No decimal digit lies between 128 and 255. *)
Definition decimal (c : char) : option Z := None.

(** *** [datetime.fromisoformat]

    The formats [YYYY-MM-DD?HH:MM:SS], with an optional fraction of 3
    or 6 digits and an optional offset [+HH:MM] or [-HH:MM], where [?]
    is any character: what every CPython since 3.7 accepts.  Other
    strings are rejected here. *)
Definition two_digits (s : str) : option (Z * str) :=
  match s with
  | a :: b :: r =>
      if (48 <=? a) && (a <=? 57) && (48 <=? b) && (b <=? 57)
      then Some ((Z.of_N a - 48) * 10 + (Z.of_N b - 48), r)%Z
      else None
  | _ => None
  end.

Definition expect (c : char) (s : str) : option str :=
  match s with
  | d :: r => if c =? d then Some r else None
  | [] => None
  end.

Definition is_leap (y : Z) : bool :=
  ((y mod 4 =? 0) && (negb (y mod 100 =? 0) || (y mod 400 =? 0)))%Z.

Definition days_in_month (y m : Z) : Z :=
  if (m =? 2)%Z then (if is_leap y then 29 else 28)%Z
  else if ((m =? 4) || (m =? 6) || (m =? 9) || (m =? 11))%Z then 30%Z
  else 31%Z.

Definition days_before_year (y : Z) : Z :=
  let p := (y - 1)%Z in (p * 365 + p / 4 - p / 100 + p / 400)%Z.

Definition days_before_month (y m : Z) : Z :=
  fold_left (fun acc k => (acc + days_in_month y (Z.of_nat k))%Z)
    (seq 1 (Z.to_nat m - 1)) 0%Z.

(** The fraction [.fff] or [.ffffff] in microseconds, and the rest. *)
Definition fraction (s : str) : option (Z * str) :=
  match s with
  | c :: r =>
      if c =? ch "." then
        let (ds, r') := span (fun d => (48 <=? d) && (d <=? 57)) r in
        let v := fold_left (fun acc d => (10 * acc + (Z.of_N d - 48))%Z) ds 0%Z in
        match length ds with
        | 3%nat => Some ((v * 1000)%Z, r')
        | 6%nat => Some (v, r')
        | _ => None
        end
      else Some (0%Z, s)
  | [] => Some (0%Z, s)
  end.

(** The offset in microseconds: [None] for a naive value. *)
Definition offset (s : str) : option (option Z) :=
  match s with
  | [] => Some None
  | sign :: r =>
      if (sign =? ch "+") || (sign =? ch "-") then
        match two_digits r with
        | Some (hh, r) =>
            match expect (ch ":") r with
            | Some r =>
                match two_digits r with
                | Some (mm, []) =>
                    if ((hh <? 24) && (mm <? 60))%Z then
                      let v := ((hh * 3600 + mm * 60) * 1000000)%Z in
                      Some (Some (if sign =? ch "-" then (- v)%Z else v))
                    else None
                | _ => None
                end
            | None => None
            end
        | None => None
        end
      else None
  end.

Definition fromisoformat (s : str) : option datetime :=
  match two_digits s with
  | Some (y1, r) =>
  match two_digits r with
  | Some (y2, r) =>
  match expect (ch "-") r with
  | Some r =>
  match two_digits r with
  | Some (mo, r) =>
  match expect (ch "-") r with
  | Some r =>
  match two_digits r with
  | Some (d, _ :: r) =>
  match two_digits r with
  | Some (hh, r) =>
  match expect (ch ":") r with
  | Some r =>
  match two_digits r with
  | Some (mi, r) =>
  match expect (ch ":") r with
  | Some r =>
  match two_digits r with
  | Some (ss, r) =>
  match fraction r with
  | Some (us, r) =>
  match offset r with
  | Some off =>
      let y := (y1 * 100 + y2)%Z in
      if ((1 <=? y) && (1 <=? mo) && (mo <=? 12) && (1 <=? d) && (d <=? days_in_month y mo)
          && (hh <? 24) && (mi <? 60) && (ss <? 60))%Z
      then
        let days := (days_before_year y + days_before_month y mo + d)%Z in
        let local := ((days * 86400 + hh * 3600 + mi * 60 + ss) * 1000000 + us)%Z in
        Some match off with
             | Some o => {| dt_us := local - o; dt_aware := true |}
             | None => {| dt_us := local; dt_aware := false |}
             end
      else None
  | None => None end
  | None => None end
  | None => None end
  | None => None end
  | None => None end
  | None => None end
  | None => None end
  | _ => None end
  | None => None end
  | None => None end
  | None => None end
  | None => None end
  | None => None end.

(** *** [difflib.unified_diff(a, b, lineterm='')]

    [SequenceMatcher(None, a, b)] with its defaults: no junk, and the
    elements of [b] that are too popular left out of the index. *)
Section Matcher.
Variables a b : list str.

Definition elt (l : list str) (i : nat) : str := nth i l [].

Definition popular (x : str) : bool :=
  (200 <=? length b)%nat
  && (length b / 100 + 1 <? count_occ (list_eq_dec N.eq_dec) b x)%nat.

(** [b2j.get(x, [])]: where [x] stands in [b], in increasing order. *)
Definition b2j (x : str) : list nat :=
  if popular x then []
  else filter (fun j => str_eqb (elt b j) x) (seq 0 (length b)).

Definition j2len_get (j2len : list (nat * nat)) (j : nat) : nat :=
  match find (fun p => Nat.eqb (fst p) j) j2len with
  | Some p => snd p
  | None => O
  end.

(** The inner loop of [find_longest_match] for one [i]. *)
Definition match_row (blo bhi i : nat) (j2len : list (nat * nat)) (best : nat * nat * nat)
  : list (nat * nat) * (nat * nat * nat) :=
  fold_left
    (fun (st : list (nat * nat) * (nat * nat * nat)) j =>
       let '(newj2len, (besti, bestj, bestsize)) := st in
       if (j <? blo)%nat || (bhi <=? j)%nat then st
       else
         let k := S (match j with O => O | S j' => j2len_get j2len j' end) in
         let newj2len := (j, k) :: newj2len in
         if (bestsize <? k)%nat then (newj2len, (i + 1 - k, j + 1 - k, k)%nat)
         else (newj2len, (besti, bestj, bestsize)))
    (b2j (elt a i)) ([], best).

(** The two loops that extend the best match on both sides. *)
Fixpoint extend_back (fuel alo blo besti bestj bestsize : nat) : nat * nat * nat :=
  match fuel with
  | O => (besti, bestj, bestsize)
  | S fuel' =>
      if (alo <? besti)%nat && (blo <? bestj)%nat
         && str_eqb (elt a (besti - 1)) (elt b (bestj - 1))
      then extend_back fuel' alo blo (besti - 1)%nat (bestj - 1)%nat (S bestsize)
      else (besti, bestj, bestsize)
  end.

Fixpoint extend_forth (fuel ahi bhi besti bestj bestsize : nat) : nat :=
  match fuel with
  | O => bestsize
  | S fuel' =>
      if (besti + bestsize <? ahi)%nat && (bestj + bestsize <? bhi)%nat
         && str_eqb (elt a (besti + bestsize)) (elt b (bestj + bestsize))
      then extend_forth fuel' ahi bhi besti bestj (S bestsize)
      else bestsize
  end.

Definition find_longest_match (alo ahi blo bhi : nat) : nat * nat * nat :=
  let '(_, (besti, bestj, bestsize)) :=
    fold_left (fun st i => match_row blo bhi i (fst st) (snd st))
      (seq alo (ahi - alo)) ([], (alo, blo, O)) in
  let '(besti, bestj, bestsize) := extend_back (length a) alo blo besti bestj bestsize in
  (besti, bestj, extend_forth (length a) ahi bhi besti bestj bestsize).

(** The matching blocks in increasing order (the queue of
    [get_matching_blocks], then its [sort]). *)
Fixpoint blocks (fuel alo ahi blo bhi : nat) : list (nat * nat * nat) :=
  match fuel with
  | O => []
  | S fuel' =>
      let '(i, j, k) := find_longest_match alo ahi blo bhi in
      match k with
      | O => []
      | _ =>
          (if (alo <? i)%nat && (blo <? j)%nat then blocks fuel' alo i blo j else [])
            ++ [(i, j, k)]
            ++ (if (i + k <? ahi)%nat && (j + k <? bhi)%nat
                then blocks fuel' (i + k) ahi (j + k) bhi else [])
      end
  end.

(** Adjacent blocks merged, and the closing block of size 0. *)
Fixpoint merge_blocks (i1 j1 k1 : nat) (l : list (nat * nat * nat)) : list (nat * nat * nat) :=
  match l with
  | [] => (match k1 with O => [] | _ => [(i1, j1, k1)] end)
            ++ [(length a, length b, O)]
  | (i2, j2, k2) :: l' =>
      if Nat.eqb (i1 + k1) i2 && Nat.eqb (j1 + k1) j2 then merge_blocks i1 j1 (k1 + k2) l'
      else (match k1 with O => [] | _ => [(i1, j1, k1)] end) ++ merge_blocks i2 j2 k2 l'
  end.

Definition get_matching_blocks : list (nat * nat * nat) :=
  merge_blocks O O O (blocks (S (length a)) O (length a) O (length b)).

Inductive tag := Replace | Delete_ | Insert | Equal.
Definition opcode : Type := tag * (nat * nat) * (nat * nat).

Fixpoint opcodes_from (i j : nat) (l : list (nat * nat * nat)) : list opcode :=
  match l with
  | [] => []
  | (ai, bj, size) :: l' =>
      (if (i <? ai)%nat && (j <? bj)%nat then [(Replace, (i, ai), (j, bj))]
       else if (i <? ai)%nat then [(Delete_, (i, ai), (j, bj))]
       else if (j <? bj)%nat then [(Insert, (i, ai), (j, bj))]
       else [])
        ++ (match size with
            | O => []
            | _ => [(Equal, (ai, ai + size), (bj, bj + size))%nat]
            end)
        ++ opcodes_from (ai + size) (bj + size) l'
  end.

Definition get_opcodes : list opcode := opcodes_from O O get_matching_blocks.

Definition is_equal (c : opcode) : bool :=
  match c with (Equal, _, _) => true | _ => false end.

(** The loop of [get_grouped_opcodes(3)], [group] being built in
    reverse. *)
Fixpoint group_loop (codes : list opcode) (group : list opcode) : list (list opcode) :=
  match codes with
  | [] =>
      match group with
      | [] => []
      | [c] => if is_equal c then [] else [rev group]
      | _ => [rev group]
      end
  | (t, (i1, i2), (j1, j2)) :: codes' =>
      if is_equal (t, (i1, i2), (j1, j2)) && (6 <? i2 - i1)%nat then
        rev ((t, (i1, Nat.min i2 (i1 + 3)), (j1, Nat.min j2 (j1 + 3))) :: group)
          :: group_loop codes' [(t, (Nat.max i1 (i2 - 3), i2), (Nat.max j1 (j2 - 3), j2))]
      else group_loop codes' ((t, (i1, i2), (j1, j2)) :: group)
  end.

Definition trim_first (codes : list opcode) : list opcode :=
  match codes with
  | (Equal, (i1, i2), (j1, j2)) :: r =>
      (Equal, (Nat.max i1 (i2 - 3), i2), (Nat.max j1 (j2 - 3), j2)) :: r
  | _ => codes
  end.

Definition trim_last (codes : list opcode) : list opcode :=
  match rev codes with
  | (Equal, (i1, i2), (j1, j2)) :: r =>
      rev ((Equal, (i1, Nat.min i2 (i1 + 3)), (j1, Nat.min j2 (j1 + 3))) :: r)
  | _ => codes
  end.

Definition get_grouped_opcodes : list (list opcode) :=
  let codes := match get_opcodes with
               | [] => [(Equal, (0, 1), (0, 1))%nat]
               | c => c
               end in
  group_loop (trim_last (trim_first codes)) [].

Definition format_range_unified (start stop : nat) : str :=
  let len := (stop - start)%nat in
  match len with
  | 1%nat => str_of_nat (start + 1)
  | O => str_of_nat start ++ lit "," ++ str_of_nat len
  | _ => str_of_nat (start + 1) ++ lit "," ++ str_of_nat len
  end.

Definition slice (l : list str) (i1 i2 : nat) : list str := firstn (i2 - i1) (skipn i1 l).

Definition opcode_lines (c : opcode) : list str :=
  let '(t, (i1, i2), (j1, j2)) := c in
  match t with
  | Equal => map (fun l => ch " " :: l) (slice a i1 i2)
  | Replace => map (fun l => ch "-" :: l) (slice a i1 i2)
                 ++ map (fun l => ch "+" :: l) (slice b j1 j2)
  | Delete_ => map (fun l => ch "-" :: l) (slice a i1 i2)
  | Insert => map (fun l => ch "+" :: l) (slice b j1 j2)
  end.

Definition group_lines (g : list opcode) : list str :=
  match g with
  | [] => []
  | first :: _ =>
      let last_ := last g first in
      (lit "@@ -" ++ format_range_unified (fst (snd (fst first))) (snd (snd (fst last_)))
         ++ lit " +" ++ format_range_unified (fst (snd first)) (snd (snd last_))
         ++ lit " @@")
        :: flat_map opcode_lines g
  end.

Definition unified_diff : list str :=
  match get_grouped_opcodes with
  | [] => []
  | groups => lit "--- " :: lit "+++ " :: flat_map group_lines groups
  end.
End Matcher.

(** *** [repr]

    Exact on [None], booleans, integers, the floats [nan], [inf] and
    the integral ones below [1e16] (zero taken as positive), strings
    of code points below 256, and lists and dicts of such values.
    Other code points print as themselves and other floats as a
    fraction. *)
Definition hex_digit (n : N) : char := if n <? 10 then 48 + n else 87 + n.

Definition printable (c : char) : bool :=
  negb ((c <? 32) || ((127 <=? c) && (c <=? 160)) || (c =? 173)).

Definition repr_char (quote c : char) : str :=
  if (c =? quote) || (c =? ch "\") then [ch "\"; c]
  else if c =? 10 then lit "\n"
  else if c =? 13 then lit "\r"
  else if c =? 9 then lit "\t"
  else if printable c then [c]
  else lit "\x" ++ [hex_digit (c / 16); hex_digit (c mod 16)].

Definition repr_str (s : str) : str :=
  let quote := if contains [SQ] s && negb (contains [DQ] s) then DQ else SQ in
  quote :: flat_map (repr_char quote) s ++ [quote].

Definition repr_float (f : pyfloat) : str :=
  match f with
  | FNan => lit "nan"
  | FInf false => lit "inf"
  | FInf true => lit "-inf"
  | FFin q =>
      let r := Qred q in
      match Qden r with
      | 1%positive => str_of_Z (Qnum r) ++ lit ".0"
      | d => str_of_Z (Qnum r) ++ lit "/" ++ str_of_Z (Zpos d)
      end
  end.

Fixpoint repr (v : json) : str :=
  match v with
  | JNull => lit "None"
  | JBool true => lit "True"
  | JBool false => lit "False"
  | JInt z => str_of_Z z
  | JFloat f => repr_float f
  | JStr s => repr_str s
  | JList l => lit "[" ++ join (lit ", ") (map repr l) ++ lit "]"
  | JDict d =>
      lit "{"
        ++ join (lit ", ")
             (map (fun kv : str * json =>
                     let (k, x) := kv in repr_str k ++ lit ": " ++ repr x) d)
        ++ lit "}"
  end.

End Reference.

(** ** Injection-free markup

    [markup blocks s]: the text [s] is a sequence of pieces, each one a
    character that HTML does not read as markup, one of the five
    entities of [html.escape], or one of the tags that the markdown
    renderer writes.  With [blocks = false] the tags of a restored code
    block ([pre], and [code] with its [class]) are left out. *)

Definition is_special (c : char) : bool :=
  existsb (N.eqb c) [ch "<"; ch ">"; ch "&"; DQ; SQ].

Definition entities : list str :=
  map lit ["&amp;"; "&lt;"; "&gt;"; "&quot;"; "&#x27;"].

Definition inline_tags : list str :=
  map lit ["<h1>"; "</h1>"; "<h2>"; "</h2>"; "<h3>"; "</h3>"; "<code>"; "</code>";
           "<strong>"; "</strong>"; "<em>"; "</em>"; "<br>"].

Definition block_tags : list str := map lit ["<pre>"; "</pre>"].

(** [<code class="language-LANG">]. *)
Definition code_open (language : str) : str :=
  lit "<code class=" ++ quoted (lit "language-" ++ language) ++ lit ">".

(** The characters that only begin, and those that only end, a piece
    of several characters. *)
Definition opens (c : char) : bool := (c =? ch "<") || (c =? ch "&").
Definition closes (c : char) : bool := (c =? ch ">") || (c =? ch ";").

Definition fixed_pieces : list str := entities ++ inline_tags ++ block_tags.

(** [quiet c]: [c] occurs in no entity and in no tag outside the
    language of a code block. *)
Definition quiet (c : char) : bool :=
  negb (existsb (N.eqb c) (concat fixed_pieces ++ code_open [])).

Section Markup.
Variable word : char -> bool.

Inductive piece (blocks : bool) : str -> Prop :=
| piece_char c : is_special c = false -> piece blocks [c]
| piece_entity e : In e entities -> piece blocks e
| piece_tag t : In t inline_tags -> piece blocks t
| piece_block t : blocks = true -> In t block_tags -> piece blocks t
| piece_code_open l :
    blocks = true -> forallb word l = true -> piece blocks (code_open l).

Inductive markup (blocks : bool) : str -> Prop :=
| markup_nil : markup blocks []
| markup_app p s : piece blocks p -> markup blocks s -> markup blocks (p ++ s).
End Markup.

(** ** Definitions that follow the specification

    The timing summary and the pairing of tool results as the
    specification words them, to be compared with the loops of the
    program. *)

(** The time between two timestamped records. *)
Definition gap (a b : stamped) : Z := (dt_us (st_time b) - dt_us (st_time a))%Z.

Definition user_then_assistant (a b : stamped) : bool :=
  is_str (lit "user") (st_type a) && is_str (lit "assistant") (st_type b).

Definition assistant_then_user (a b : stamped) : bool :=
  is_str (lit "assistant") (st_type a) && is_str (lit "user") (st_type b).

(** The sum of the gaps of the adjacent pairs that [counts] selects. *)
Fixpoint gap_sum (counts : stamped -> stamped -> bool) (l : list stamped) : Z :=
  match l with
  | a :: ((b :: _) as rest) => ((if counts a b then gap a b else 0) + gap_sum counts rest)%Z
  | _ => 0%Z
  end.

(** All timestamps naive, or all with an offset. *)
Definition same_awareness (l : list stamped) : bool :=
  match l with
  | [] => true
  | a :: rest => forallb (fun b => Bool.eqb (dt_aware (st_time b)) (dt_aware (st_time a))) rest
  end.

Definition field (d : list (str * json)) (key : string) (default : json) : json :=
  match assoc (lit key) d with Some v => v | None => default end.

(** A content item that is a tool result for the identifier [tool_id]. *)
Definition is_result_for (tool_id item : json) : bool :=
  match item with
  | JDict d =>
      is_str (lit "tool_result") (field d "type" JNull)
      && py_eq (field d "tool_use_id" JNull) tool_id
  | _ => false
  end.

(** A content item that carries the identifier [tool_id] as its
    [tool_use_id]. *)
Definition has_tool_use_id (tool_id item : json) : bool :=
  match item with
  | JDict d => py_eq (field d "tool_use_id" JNull) tool_id
  | _ => false
  end.

(** The content items of a record that the lookup considers: those of a
    user-type record whose content is not a plain string.  [None] is a
    record that the lookup cannot read. *)
Definition considered_items (msg : json) : option (list json) :=
  match msg with
  | JDict d =>
      if is_str (lit "user") (field d "type" JNull) then
        match field d "message" (JDict []) with
        | JDict m =>
            match field m "content" (JList []) with
            | JStr _ => Some []
            | JList l => Some l
            | JDict kv => Some (map (fun p => JStr (fst p)) kv)
            | _ => None
            end
        | _ => None
        end
      else Some []
  | _ => None
  end.

(** The content items of all records, in file order. *)
Fixpoint all_considered (messages : list json) : option (list json) :=
  match messages with
  | [] => Some []
  | msg :: rest =>
      match considered_items msg, all_considered rest with
      | Some l, Some ls => Some (l ++ ls)
      | _, _ => None
      end
  end.

(** ** Texts and records for the examples *)

(** The lines of a text, joined by line breaks. *)
Definition text (lines : list string) : str := join [NL] (map lit lines).

(** A record with a type and a timestamp. *)
Definition timed_record (type time : string) : json :=
  JDict [(lit "type", JStr (lit type)); (lit "timestamp", JStr (lit time))].

(** [{key: value, ...}] with string values. *)
Definition dict_of (fields : list (string * string)) : json :=
  JDict (map (fun kv => (lit (fst kv), JStr (lit (snd kv)))) fields).

(** A record of the given type whose message has the given content. *)
Definition content_record (type : string) (content : json) : json :=
  JDict [(lit "type", JStr (lit type));
         (lit "message", JDict [(lit "role", JStr (lit type)); (lit "content", content)])].

(** Ten lines, the second and the sixth being [changed]. *)
Definition ten_lines (changed : string) : str :=
  text ["a"; changed; "c"; "d"; "e"; changed; "g"; "h"; "i"; "j"; ""].

(** A tool result with a string content. *)
Definition tool_result_item (id content : string) : json :=
  dict_of [("type", "tool_result"); ("tool_use_id", id); ("content", content)].

(** A prompt, then two user records with one tool result each. *)
Definition two_results : list json :=
  [content_record "user" (JStr (lit "run the tests"));
   content_record "user" (JList [tool_result_item "t1" "one"]);
   content_record "user" (JList [tool_result_item "t2" "two"])].

(** ** The markup of the page, written out

    The text that the page is expected to hold for a diff, for a tool
    result and for a message, as it reads in the page, line breaks and
    indentation included; the properties compare what the renderer
    returns with it.  [with_quotes [p1; p2; p3]] is the text
    [p1"p2"p3]. *)

Definition with_quotes (parts : list str) : str := join [DQ] parts.

(** A line number: none is shown for a line that has none, nor for
    zero. *)
Definition shown_number (num : option Z) : str :=
  match num with
  | Some z => if (z =? 0)%Z then [] else str_of_Z z
  | None => []
  end.

(** One line of a diff: its two numbers, its sign and its text. *)
Definition expected_diff_line (l : diff_line) : str :=
  let sign := match dl_type l with Delete => lit "-" | Add => lit "+" | Context => [] end in
  let class := match dl_type l with
               | Delete => lit "diff-line diff-del"
               | Add => lit "diff-line diff-add"
               | Context => lit "diff-line diff-context"
               end in
  with_quotes [lit "<div class="; class; lit ">
                <span class="; lit "diff-line-num old"; lit ">"]
    ++ shown_number (old_line l)
    ++ with_quotes [lit "</span>
                <span class="; lit "diff-line-num new"; lit ">"]
    ++ shown_number (new_line l)
    ++ with_quotes [lit "</span>
                <span class="; lit "diff-prefix"; lit ">"]
    ++ sign
    ++ with_quotes [lit "</span>
                <span class="; lit "diff-content"; lit ">"]
    ++ escape (rstrip_nl (dl_content l))
    ++ lit "</span>
            </div>".

(** The lines of a diff, one after the other. *)
Definition expected_diff_lines (body : list diff_line) : str :=
  with_quotes [lit "<div class="; lit "diff-lines"; lit ">"]
    ++ concat (map expected_diff_line body)
    ++ lit "</div>".

(** The line that names the edited file. *)
Definition expected_file_header (file_path : str) : str :=
  match file_path with
  | [] => []
  | _ => with_quotes [lit "<div class="; lit "diff-file-header"; lit ">"]
           ++ 8226 :: lit " Edit " ++ escape file_path ++ lit "</div>"
  end.

(** A diff shown in full: no control to expand it. *)
Definition expected_expanded_diff (header lines : str) : str :=
  with_quotes [lit "
            <div class="; lit "edit-diff"; lit ">
                "]
    ++ header
    ++ lit "
                "
    ++ lines
    ++ lit "
            </div>
            ".

(** A collapsed diff: the lines of the preview, the control that
    reports [hidden] more lines, and all the lines in the part that the
    control reveals. *)
Definition expected_collapsed_diff (header preview full : str) (hidden : nat) : str :=
  with_quotes [lit "
            <div class="; lit "edit-diff collapsible"; lit ">
                "]
    ++ header
    ++ with_quotes [lit "
                <div class="; lit "diff-preview"; lit ">
                    "]
    ++ preview
    ++ with_quotes [lit "
                    <div class="; lit "diff-expand-link"; lit " onclick=";
                    lit "this.parentElement.parentElement.classList.toggle('expanded')";
                    lit ">
                        Show full diff ("]
    ++ str_of_nat hidden
    ++ with_quotes [lit " more lines)
                    </div>
                </div>
                <div class="; lit "diff-full"; lit ">
                    "]
    ++ full
    ++ lit "
                </div>
            </div>
            ".

(** A tool result shown in full: no control to expand it. *)
Definition expected_plain_result (content : str) : str :=
  with_quotes [lit "
            <div class="; lit "tool-result"; lit ">
                <pre><code>"]
    ++ escape content
    ++ lit "</code></pre>
            </div>
            ".

(** A collapsed result of the shell or of the search tool: the
    preview, the hint that reports [total] lines, and the whole content
    in the part that a click reveals. *)
Definition expected_collapsed_output (preview content : str) (total : nat) : str :=
  with_quotes [lit "
                <div class="; lit "tool-result collapsible"; lit ">
                    <div class="; lit "tool-result-preview"; lit " onclick=";
               lit "this.parentElement.classList.toggle('expanded')"; lit ">
                        <pre><code>"]
    ++ escape preview
    ++ with_quotes [lit "</code></pre>
                        <div class="; lit "expand-hint"; lit ">Click to show full output ("]
    ++ str_of_nat total
    ++ with_quotes [lit " lines)</div>
                    </div>
                    <div class="; lit "tool-result-full"; lit ">
                        <pre><code>"]
    ++ escape content
    ++ lit "</code></pre>
                    </div>
                </div>
                ".

(** A block of text of a message, and a message made of blocks (no
    element at all for a message without block). *)
Definition expected_message_text (inner : str) : str :=
  with_quotes [lit "<div class="; lit "message-text"; lit ">"] ++ inner ++ lit "</div>".

Definition expected_message (class : string) (blocks : list str) : str :=
  match blocks with
  | [] => []
  | _ => with_quotes [lit "<div class="; lit class; lit ">"] ++ concat blocks ++ lit "</div>"
  end.

(** ** Readings of the loops

    What the loops over the lines of the file, over the records and
    over the content items compute, written as functions on lists; the
    properties compare the loops of the program with them. *)

Definition is_dict (v : json) : bool :=
  match v with JDict _ => true | _ => false end.

(** The values of the lines that [json.loads] parses. *)
Definition parsed (lines : list (option json)) : list json :=
  flat_map (fun line => match line with Some data => [data] | None => [] end) lines.

(** An object whose type is one of [user], [assistant], [system]. *)
Definition kept (data : json) : bool :=
  match data with
  | JDict d => recognized_type (field d "type" JNull)
  | _ => false
  end.

(** The timestamped entry of a record: none when the timestamp is
    absent, false, not a string, or refused by [fromisoformat]. *)
Definition stamp_of (fromisoformat : str -> option datetime) (msg : json) : list stamped :=
  match msg with
  | JDict d =>
      let timestamp_str := field d "timestamp" JNull in
      if truthy timestamp_str then
        match parse_timestamp fromisoformat timestamp_str with
        | Some t => [{| st_type := field d "type" JNull; st_time := t |}]
        | None => []
        end
      else []
  | _ => []
  end.

(** No timestamp is earlier than the one before it. *)
Fixpoint chronological (l : list stamped) : bool :=
  match l with
  | a :: ((b :: _) as rest) => (dt_us (st_time a) <=? dt_us (st_time b))%Z && chronological rest
  | _ => true
  end.

(** Every record is a user record followed by an assistant record or
    the other way round. *)
Fixpoint alternating (l : list stamped) : bool :=
  match l with
  | a :: ((b :: _) as rest) =>
      (user_then_assistant a b || assistant_then_user a b) && alternating rest
  | _ => true
  end.

(** What a content item adds to the text of a tool result: itself when
    it is a string, its [text] when it is a text object. *)
Definition item_texts (item : json) : list json :=
  match item with
  | JStr _ => [item]
  | JDict d =>
      if is_str (lit "text") (field d "type" JNull) then [field d "text" (JStr [])] else []
  | _ => []
  end.

(** The number of line breaks of a text. *)
Definition line_breaks_count (s : str) : nat := count_occ N.eq_dec s NL.

(** The content items that a user record shows: strings and text
    objects. *)
Definition is_text_item (item : json) : bool :=
  match item with
  | JStr _ => true
  | JDict d => is_str (lit "text") (field d "type" JNull)
  | _ => false
  end.

(** The content items that an assistant record may show: strings, text
    objects and tool uses. *)
Definition is_visible_item (item : json) : bool :=
  match item with
  | JStr _ => true
  | JDict d =>
      is_str (lit "text") (field d "type" JNull)
      || is_str (lit "tool_use") (field d "type" JNull)
  | _ => false
  end.

(** The body of a unified diff, read off its lines: every line after
    the two file lines that is no hunk header is one line of the body,
    deleted when it starts with [-], added when it starts with [+] and
    context otherwise, its text being the line without that sign (or
    without the space that starts a context line). *)
Definition body_entry (line : str) : line_type * str :=
  match line with
  | c :: r =>
      if c =? ch "-" then (Delete, r)
      else if c =? ch "+" then (Add, r)
      else if c =? ch " " then (Context, r)
      else (Context, line)
  | [] => (Context, [])
  end.

Definition body_entries (diff : list str) : list (line_type * str) :=
  map body_entry (filter (fun line => negb (startswith (lit "@@") line)) (skipn 2 diff)).

(** The text that a result record carries: its content when that is a
    string, its text items joined by line breaks when it is a list, the
    empty text when the record has no content. *)
Fixpoint strings_of (values : list json) : option (list str) :=
  match values with
  | [] => Some []
  | JStr s :: rest => option_map (cons s) (strings_of rest)
  | _ :: _ => None
  end.

Definition payload_text (record : list (str * json)) : option str :=
  match assoc (lit "content") record with
  | None => Some []
  | Some (JStr s) => Some s
  | Some (JList items) => option_map (join [NL]) (strings_of (flat_map item_texts items))
  | Some _ => None
  end.

(** The line numbers of one side of a diff body, in order. *)
Definition old_numbers (body : list diff_line) : list Z :=
  flat_map (fun l => match old_line l with Some z => [z] | None => [] end) body.

Definition new_numbers (body : list diff_line) : list Z :=
  flat_map (fun l => match new_line l with Some z => [z] | None => [] end) body.

(** ** Markup of the page body

    [page_markup s]: the text [s] is a sequence of characters that HTML
    does not read as markup, of entities of [html.escape], and of tags
    that the templates of the renderer write: those of the markdown
    renderer and the elements of [page_tags], each a complete opening
    or closing tag with the attributes of its template. *)

(** The coloured dot of a tool use. *)
Definition tool_dot (color : str) : str :=
  open_tag "span" [("class", lit "tool-dot"); ("style", lit "background-color: " ++ color)].

Definition page_tags : list str :=
  inline_tags ++ block_tags
    ++ [ lit "</div>"; lit "</span>";
         div "session-timing"; div "timing-item";
         span_ "timing-label"; span_ "timing-value";
         div "tool-use"; div "tool-header"; span_ "tool-name"; span_ "tool-params";
         div "diff-lines"; div "diff-line diff-del"; div "diff-line diff-add";
         div "diff-line diff-context";
         span_ "diff-line-num old"; span_ "diff-line-num new";
         span_ "diff-prefix"; span_ "diff-content";
         div "edit-diff collapsible"; div "edit-diff"; div "diff-file-header";
         div "diff-preview"; div "diff-full";
         open_tag "div" [("class", lit "diff-expand-link");
                         ("onclick", expand_onclick "this.parentElement.parentElement")];
         div "tool-result"; div "tool-result collapsible"; div "tool-result-full";
         open_tag "div" [("class", lit "tool-result-preview");
                         ("onclick", expand_onclick "this.parentElement")];
         div "expand-hint";
         div "message-text"; div "message user-message"; div "message assistant-message" ]
    ++ map tool_dot (map snd TOOL_COLORS).

Section PageMarkup.
Variable word : char -> bool.

Inductive page_piece : str -> Prop :=
| page_char c : is_special c = false -> page_piece [c]
| page_entity e : In e entities -> page_piece e
| page_tag t : In t page_tags -> page_piece t
| page_code_open l : forallb word l = true -> page_piece (code_open l).

Inductive page_markup : str -> Prop :=
| page_nil : page_markup []
| page_app p s : page_piece p -> page_markup s -> page_markup (p ++ s).
End PageMarkup.

(** A check of a fixed text against the tags of the page: at each
    position an ordinary character, or one of the tags. *)
Fixpoint page_check (fuel : nat) (s : str) : bool :=
  match fuel with
  | O => false
  | S fuel' =>
      match s with
      | [] => true
      | c :: r =>
          if negb (is_special c) then page_check fuel' r
          else existsb (fun t => match t with
                                 | [] => false
                                 | _ :: _ =>
                                     match strip_prefix t s with
                                     | Some r' => page_check fuel' r'
                                     | None => false
                                     end
                                 end) page_tags
      end
  end.

(** ** The command line (lines 949-968)

    [main] reads [sys.argv] and asks the file system whether the input
    exists; what it goes on to do is an [outcome]: the usage message or
    the error message, each with exit status 1, or
    [SessionRenderer(input_path).save(output_path)]. *)
Inductive outcome :=
| Usage
| NotFound (input_path : str)
| Convert (input_path output_path : str).

(** The output path when the command line gives none. *)
Definition default_output_path (input_path : str) : str :=
  replace (lit ".jsonl") (lit ".html") input_path.

Definition main (path_exists : str -> bool) (argv : list str) : outcome :=
  match argv with
  | _ :: input_path :: rest =>
      if path_exists input_path then
        Convert input_path
          match rest with
          | output_path :: _ => output_path
          | [] => default_output_path input_path
          end
      else NotFound input_path
  | _ => Usage
  end.

(** ** Texts without markdown

    A sparse character is none of the five that [html.escape] rewrites
    and none of the backtick, the asterisk and the hash that the
    markdown passes look for; a plain character is not the underscore
    of the renderer's own tokens either. *)
Definition sparse_char (c : char) : bool :=
  negb (is_special c) && negb (existsb (N.eqb c) (lit "`*#")).

Definition plain_char (c : char) : bool := sparse_char c && negb (c =? ch "_").

(** The text with [<br>] before every line break. *)
Definition line_breaks (s : str) : str :=
  flat_map (fun c => if c =? NL then lit "<br>" ++ [NL] else [c]) s.

(** A listing of [n] numbered lines, as the file reader returns it. *)
Definition listing (n : nat) : str :=
  join [NL] (map (fun i => str_of_nat i ++ ARROW :: lit "line") (seq 1 n)).

(** * Properties *)

Unset Implicit Arguments.

(** ** The model on concrete inputs

    The right-hand sides are what CPython 3.11 answers for the same
    calls of [re], [str], [difflib], [datetime] and [repr]. *)

(** [re.sub(r'\*\*(.+?)\*\*', ...)]: the group is lazy and may begin
    with an asterisk. *)
Example bold_lazy :
  re_sub (match_emph (lit "**")) (wrap_tag (lit "strong")) (lit "****|***a**|** **")
  = lit "<strong>**|</strong>*a<strong>|</strong> **".
Proof. vm_compute. reflexivity. Qed.

(** The group of the italic pattern does not cross a line break. *)
Example italic_stops_at_newline :
  re_sub (match_emph (lit "*")) (wrap_tag (lit "em")) (text ["****|*a"; "b*|a*b*c*d"])
  = text ["<em>*</em><em>|</em>a"; "b<em>|a</em>b<em>c</em>d"].
Proof. vm_compute. reflexivity. Qed.

(** The group of the inline code pattern is not empty and may cross a
    line break. *)
Example code_span_crosses_newline :
  re_sub match_code_span (wrap_tag (lit "code")) (text ["``a`b"; "c`d`"])
  = text ["`<code>a</code>b"; "c<code>d</code>"].
Proof. vm_compute. reflexivity. Qed.

(** A header starts a line and needs a text. *)
Example header_line_start :
  sub_header (lit "# ") (lit "[") (lit "]") (text ["# a"; "# "; "#  b"; "x# c"; "# d"])
  = text ["[a]"; "# "; "[ b]"; "x# c"; "[d]"].
Proof. vm_compute. reflexivity. Qed.

(** The fences of a text, leftmost first; a language needs the line
    break right after it. *)
Example fences_extracted :
  extract_code_blocks Reference.alnum
    (text ["````py"; "ab```c``` ```"; "```"; "``` ```py x"; "```"])
  = (text ["`___CODE_BLOCK_0___c``` ___CODE_BLOCK_1___"; "``` ```py x"; "```"],
     [text ["```py"; "ab```"]; text ["```"; "```"]]).
Proof. vm_compute. reflexivity. Qed.

(** A diff whose last lines have no line break. *)
Example unified_diff_sample :
  Reference.unified_diff
    (splitlines_from [] (text ["x"; "y"; "z"; "x"; "y"; "z"; "q"]))
    (splitlines_from [] (text ["y"; "z"; "x"; "q"; "q"; "x"]))
  = map text
      [["--- "]; ["+++ "]; ["@@ -1,7 +1,6 @@"]; ["-x"; ""]; [" y"; ""]; [" z"; ""];
       [" x"; ""]; ["-y"; ""]; ["-z"; ""]; ["-q"]; ["+q"; ""]; ["+q"; ""]; ["+x"]].
Proof. vm_compute. reflexivity. Qed.

(** Two hunks, each with three lines of context. *)
Example unified_diff_two_hunks :
  Reference.unified_diff
    (splitlines_from []
       (text ["a"; "b"; "c"; "d"; "e"; "f"; "g"; "h"; "i"; "j"; "k"; "l"; ""]))
    (splitlines_from []
       (text ["a"; "b"; "X"; "d"; "e"; "f"; "g"; "h"; "i"; "j"; "k"; "L"; "m"; ""]))
  = map text
      [["--- "]; ["+++ "]; ["@@ -1,6 +1,6 @@"]; [" a"; ""]; [" b"; ""]; ["-c"; ""];
       ["+X"; ""]; [" d"; ""]; [" e"; ""]; [" f"; ""]; ["@@ -9,4 +9,5 @@"]; [" i"; ""];
       [" j"; ""]; [" k"; ""]; ["-l"; ""]; ["+L"; ""]; ["+m"; ""]].
Proof. vm_compute. reflexivity. Qed.

(** Equal texts have an empty diff. *)
Example unified_diff_equal :
  Reference.unified_diff (splitlines_from [] (text ["a"; "b"]))
    (splitlines_from [] (text ["a"; "b"])) = [].
Proof. vm_compute. reflexivity. Qed.

(** [splitlines] keeps the line breaks and reads CR LF as one. *)
Example splitlines_sample :
  splitlines_from [] [97; 13; 10; 98; 13; 99; 10; 10; 100]
  = [[97; 13; 10]; [98; 13]; [99; 10]; [10]; [100]].
Proof. reflexivity. Qed.

(** Microseconds from the day before 0001-01-01, as [date.toordinal]
    counts the days. *)
Example fromisoformat_sample :
  Reference.fromisoformat (lit "2025-01-02T03:04:05.123+01:00")
  = Some {| dt_us := 63871466645123000; dt_aware := true |}.
Proof. vm_compute. reflexivity. Qed.

(** [repr] of a dict: the key has an apostrophe and takes double
    quotes. *)
Example repr_sample :
  Reference.repr
    (JDict [(lit "a'b", JList [JInt 1; JNull; JBool true; JFloat (FFin 1);
                               JStr (text ["x"; "y\z"])])])
  = lit "{" ++ [DQ] ++ lit "a'b" ++ [DQ] ++ lit ": [1, None, True, 1.0, 'x\ny\\z']}".
Proof. vm_compute. reflexivity. Qed.

(** ** Scenarios of the specification, run on the model *)

(** A user record with the content [Hello **world**]. *)
Example hello_world :
  render_message Reference.alnum Reference.space Reference.decimal Reference.repr
    Reference.unified_diff [] (content_record "user" (JStr (lit "Hello **world**")))
  = Ok (div "message user-message"
          ++ message_text (lit "Hello <strong>world</strong>") ++ lit "</div>").
Proof. vm_compute. reflexivity. Qed.

(** A tool use with no input has an empty line where the parameters go,
    one with an input shows them with [repr]. *)
Example tool_use_without_parameters :
  render_tool_use Reference.repr (dict_of [("type", "tool_use"); ("name", "Glob")])
  = Ok (ln 8 (div "tool-use")
          ++ ln 12 (div "tool-header")
          ++ ln 16 (open_tag "span" [("class", lit "tool-dot");
                                     ("style", lit "background-color: #ec4899")]
                      ++ lit "</span>")
          ++ ln 16 (span_ "tool-name" ++ lit "Glob</span>")
          ++ ln 16 []
          ++ ln 12 (lit "</div>") ++ ln 8 (lit "</div>") ++ ln 8 []).
Proof. vm_compute. reflexivity. Qed.

Example tool_use_with_parameters :
  render_tool_use Reference.repr
    (JDict [(lit "name", JStr (lit "Grep"));
            (lit "input", dict_of [("pattern", "a<b"); ("path", "src")])])
  = Ok (ln 8 (div "tool-use")
          ++ ln 12 (div "tool-header")
          ++ ln 16 (open_tag "span" [("class", lit "tool-dot");
                                     ("style", lit "background-color: #8b5cf6")]
                      ++ lit "</span>")
          ++ ln 16 (span_ "tool-name" ++ lit "Grep</span>")
          ++ ln 16 (span_ "tool-params"
                      ++ lit "pattern=&#x27;a&lt;b&#x27;, path=&#x27;src&#x27;</span>")
          ++ ln 12 (lit "</div>") ++ ln 8 (lit "</div>") ++ ln 8 []).
Proof. vm_compute. reflexivity. Qed.

(** Records without a parseable timestamp leave the timing at zero. *)
Example timing_without_timestamps :
  calculate_session_timing Reference.fromisoformat
    [content_record "user" (JStr (lit "hi")); timed_record "assistant" "yesterday"]
  = Ok zero_timing.
Proof. vm_compute. reflexivity. Qed.

(** ** Lists and text *)

Lemma strip_prefix_app (p s r : str) : strip_prefix p s = Some r -> s = p ++ r.
Proof.
  revert s; induction p as [|a p IH]; intros [|b s] H; simpl in H; try discriminate.
  - now inversion H.
  - now inversion H.
  - destruct (N.eqb_spec a b); [subst|discriminate].
    simpl; f_equal; auto.
Qed.

Lemma strip_prefix_length (p s r : str) :
  strip_prefix p s = Some r -> r = skipn (length p) s.
Proof.
  intros H; apply strip_prefix_app in H; subst s.
  now rewrite skipn_app, skipn_all, Nat.sub_diag.
Qed.

Lemma skipn_exact (p r : str) (n : nat) : n = length p -> skipn n (p ++ r) = r.
Proof.
  intros ->. now rewrite skipn_app, skipn_all, Nat.sub_diag.
Qed.

Lemma skipn_between (x y : char) (g r : str) (n : nat) :
  n = (length g + 2)%nat -> skipn n (x :: g ++ y :: r) = r.
Proof.
  intros ->.
  replace (x :: g ++ y :: r) with (([x] ++ g ++ [y]) ++ r)
    by (simpl; now rewrite <- app_assoc).
  apply skipn_exact. rewrite !length_app. simpl. lia.
Qed.

Lemma startswith_app (p s : str) :
  startswith p s = true -> s = p ++ skipn (length p) s.
Proof.
  unfold startswith; destruct (strip_prefix p s) eqn:E; [intros _|discriminate].
  pose proof (strip_prefix_length _ _ _ E); subst.
  now apply strip_prefix_app.
Qed.

Lemma span_app (f : char -> bool) (s : str) : s = fst (span f s) ++ snd (span f s).
Proof.
  induction s as [|c s IH]; simpl; auto.
  destruct (f c); simpl; auto.
  destruct (span f s); simpl in *; now f_equal.
Qed.

Lemma span_forallb (f : char -> bool) (s : str) : forallb f (fst (span f s)) = true.
Proof.
  induction s as [|c s IH]; simpl; auto.
  destruct (f c) eqn:E; simpl; auto.
  destruct (span f s); simpl in *; now rewrite E.
Qed.

Lemma lazy_dot_until_app (close s g : str) :
  lazy_dot_until close s = Some g -> s = g ++ close ++ skipn (length g + length close) s.
Proof.
  revert g; induction s as [|c s IH]; intros g; simpl.
  - destruct (startswith close []) eqn:E; [|discriminate].
    intros H; inversion H; subst; simpl.
    now apply startswith_app in E.
  - destruct (startswith close (c :: s)) eqn:E.
    + intros H; inversion H; subst; simpl.
      now apply startswith_app in E.
    + destruct (c =? NL); [discriminate|].
      destruct (lazy_dot_until close s) as [g'|]; [|discriminate].
      intros H; inversion H; subst; simpl. f_equal. now apply IH.
Qed.

(** ** The substitution walk *)

Section ScanFacts.
Variable M : Type.
Variable match_at : option char -> str -> option (nat * M).
Variable repl : M -> str.

Lemma scan_skip (k : nat) (s : str) (prev : option char) :
  (k <= length s)%nat ->
  exists prev', scan match_at k prev s = scan match_at O prev' (skipn k s).
Proof.
  revert k prev; induction s as [|c s IH]; intros [|k] prev Hk; simpl in *;
    try lia; eauto.
  apply IH; lia.
Qed.

(** A property of texts that every replacement keeps in its context
    is kept by the whole substitution. *)
Lemma fill_scan_invariant (T : str -> Prop) :
  (forall prev s n m, match_at prev s = Some (n, m) ->
     (1 <= n <= length s)%nat /\
     forall pre, T (pre ++ s) -> T (pre ++ repl m ++ skipn n s)) ->
  forall s prev pre, T (pre ++ s) -> T (pre ++ fill repl (scan match_at O prev s)).
Proof.
  intros Hm s.
  assert (H : forall k s, (length s <= k)%nat ->
            forall prev pre, T (pre ++ s) -> T (pre ++ fill repl (scan match_at O prev s))).
  { induction k as [|k IH]; intros [|c s'] Hlen prev pre HT; simpl in *; try lia; auto.
    destruct (match_at prev (c :: s')) as [[n m]|] eqn:E.
    - destruct (Hm _ _ _ _ E) as [[Hn1 Hn2] Hctx].
      destruct n as [|n]; [lia|]. simpl in *.
      destruct (scan_skip n s' (Some c)) as [prev' ->]; [lia|].
      rewrite app_assoc. apply IH.
      + rewrite length_skipn. lia.
      + rewrite <- app_assoc. now apply Hctx.
    - simpl. change (pre ++ c :: fill repl (scan match_at O (Some c) s'))
        with (pre ++ [c] ++ fill repl (scan match_at O (Some c) s')).
      rewrite app_assoc. apply IH; [lia|].
      now rewrite <- app_assoc. }
  now apply (H (length s)).
Qed.
End ScanFacts.

(** A property that replacing one [old] by [new] keeps in any context
    is kept by [str.replace]. *)
Lemma replace_invariant (T : str -> Prop) (old new : str) :
  (forall pre rest, T (pre ++ old ++ rest) -> T (pre ++ new ++ rest)) ->
  forall s, T s -> T (replace old new s).
Proof.
  intros Hctx s Hs. unfold replace, re_sub.
  apply (fill_scan_invariant unit (match_literal old) (fun _ => new) T) with (pre := []); auto.
  intros prev t n [] Hm. unfold match_literal in Hm.
  destruct old as [|o old']; [discriminate|].
  destruct (startswith (o :: old') t) eqn:E; [|discriminate].
  inversion Hm; subst n; clear Hm. apply startswith_app in E.
  split.
  - pose proof (f_equal (@length _) E) as EL. rewrite length_app in EL.
    simpl in *. lia.
  - intros pre HT. rewrite E in HT. now apply Hctx.
Qed.

(** ** Pieces of markup *)

Lemma is_word_ascii (uni_alnum : char -> bool) (c : char) :
  is_word uni_alnum c = true -> c < 128 -> ascii_alnum c || (c =? ch "_") = true.
Proof.
  unfold is_word. intros H Hc. apply N.ltb_lt in Hc. now rewrite Hc in H.
Qed.

Lemma is_word_plain (uni_alnum : char -> bool) (c : char) :
  is_word uni_alnum c = true ->
  is_special c = false /\ opens c = false /\ closes c = false /\ c <> NL.
Proof.
  intros H.
  assert (Hc : 128 <= c \/ ascii_alnum c || (c =? ch "_") = true).
  { destruct (N.lt_ge_cases c 128); [right|left]; auto. eapply is_word_ascii; eauto. }
  assert (Hn : forall d, d < 128 -> ascii_alnum d || (d =? ch "_") = false -> (c =? d) = false).
  { intros d Hd Hf. apply N.eqb_neq. intros ->. destruct Hc as [Hc|Hc]; [lia|congruence]. }
  unfold is_special, opens, closes, NL.
  repeat split.
  - cbn -[N.eqb]. rewrite !Hn; auto; reflexivity.
  - rewrite !Hn; auto; reflexivity.
  - rewrite !Hn; auto; reflexivity.
  - intros ->. specialize (Hn 10 eq_refl eq_refl). now rewrite N.eqb_refl in Hn.
Qed.

Lemma code_open_eq (l : str) :
  code_open l = lit "<code class=" ++ [DQ] ++ lit "language-" ++ l ++ [DQ; ch ">"].
Proof.
  unfold code_open, quoted. simpl. now rewrite <- !app_assoc.
Qed.

Section Pieces.
Variable uni_alnum : char -> bool.
Abbreviation word := (is_word uni_alnum).
Abbreviation piece := (piece word).
Abbreviation markup := (markup word).

Lemma piece_fixed (b : bool) (p : str) :
  piece b p ->
  (exists c, p = [c] /\ is_special c = false)
  \/ In p fixed_pieces
  \/ (b = true /\ exists l, forallb word l = true /\ p = code_open l).
Proof.
  unfold fixed_pieces.
  intros [c Hc|e He|t Ht|t Hb Ht|l Hb Hl]; rewrite ?in_app_iff; eauto 8.
Qed.

Lemma word_forallb (l : str) (f : char -> bool) :
  (forall c, word c = true -> f c = true) ->
  forallb word l = true -> forallb f l = true.
Proof.
  intros Hf H. rewrite forallb_forall in *. auto.
Qed.

(** No character after the first one opens a piece. *)
Lemma piece_tl_opens (b : bool) (p : str) :
  piece b p -> forallb (fun c => negb (opens c)) (tl p) = true.
Proof.
  intros H. apply piece_fixed in H as [(c & -> & _)|[H|(_ & l & Hl & ->)]].
  - reflexivity.
  - assert (F : forallb (fun p => forallb (fun c => negb (opens c)) (tl p)) fixed_pieces = true)
      by (vm_compute; reflexivity).
    rewrite forallb_forall in F. now apply F.
  - rewrite code_open_eq.
    change (lit "<code class=") with (ch "<" :: lit "code class="). cbn [tl app].
    repeat (rewrite forallb_app || (progress cbn [forallb])).
    rewrite (word_forallb l (fun c => negb (opens c))); auto.
    intros c Hc. apply is_word_plain in Hc. now destruct Hc as (_ & -> & _).
Qed.

(** No character before the last one closes a piece. *)
Lemma piece_init_closes (b : bool) (p : str) :
  piece b p -> forallb (fun c => negb (closes c)) (removelast p) = true.
Proof.
  intros H. apply piece_fixed in H as [(c & -> & _)|[H|(_ & l & Hl & ->)]].
  - reflexivity.
  - assert (F : forallb (fun p => forallb (fun c => negb (closes c)) (removelast p))
                  fixed_pieces = true) by (vm_compute; reflexivity).
    rewrite forallb_forall in F. now apply F.
  - rewrite code_open_eq.
    replace (lit "<code class=" ++ [DQ] ++ lit "language-" ++ l ++ [DQ; ch ">"])
      with ((lit "<code class=" ++ [DQ] ++ lit "language-" ++ l ++ [DQ]) ++ [ch ">"])
      by (now rewrite <- !app_assoc).
    rewrite removelast_last.
    repeat (rewrite forallb_app || (progress cbn [forallb])).
    rewrite (word_forallb l (fun c => negb (closes c))); auto.
    intros c Hc. apply is_word_plain in Hc. now destruct Hc as (_ & _ & -> & _).
Qed.

(** A piece of several characters ends with a closing character. *)
Lemma piece_last (b : bool) (p : str) :
  piece b p -> (exists c, p = [c]) \/ (exists x c, p = x ++ [c] /\ closes c = true).
Proof.
  intros H. apply piece_fixed in H as [(c & -> & _)|[H|(_ & l & Hl & ->)]]; eauto.
  - right.
    assert (F : forallb (fun p => closes (last p 0)) fixed_pieces = true)
      by (vm_compute; reflexivity).
    rewrite forallb_forall in F. specialize (F _ H).
    destruct (exists_last (l := p)) as (x & c & ->).
    + intros ->. vm_compute in H. intuition discriminate.
    + rewrite last_last in F. eauto.
  - right. exists (lit "<code class=" ++ [DQ] ++ lit "language-" ++ l ++ [DQ]), (ch ">").
    split; [|reflexivity]. rewrite code_open_eq. now rewrite <- !app_assoc.
Qed.

Lemma piece_nonempty (b : bool) (p : str) : piece b p -> p <> [].
Proof.
  intros H. destruct (piece_last b p H) as [(c & ->)|(x & c & -> & _)];
    [discriminate|]. now destruct x.
Qed.

(** A quiet character (no word character when blocks are allowed)
    is a piece of its own. *)
Lemma piece_quiet (b : bool) (p : str) (c : char) :
  piece b p -> In c p -> quiet c = true -> (b = true -> word c = false) -> p = [c].
Proof.
  intros H Hin Hq Hw. unfold quiet in Hq. apply negb_true_iff in Hq.
  assert (Hno : forall d, In d (concat fixed_pieces ++ code_open []) -> d <> c).
  { intros d Hd ->. apply Bool.not_true_iff_false in Hq. apply Hq.
    apply existsb_exists. exists c. split; auto. apply N.eqb_refl. }
  apply piece_fixed in H as [(d & -> & _)|[H|(Hb & l & Hl & ->)]].
  - destruct Hin as [->|[]]. reflexivity.
  - exfalso. apply (Hno c); auto. apply in_app_iff. left.
    apply in_concat. eauto.
  - exfalso. rewrite code_open_eq in Hin.
    rewrite !in_app_iff in Hin.
    assert (E : code_open [] = lit "<code class=" ++ [DQ] ++ lit "language-" ++ [DQ; ch ">"])
      by reflexivity.
    destruct Hin as [Hin|[Hin|[Hin|[Hin|Hin]]]].
    + apply (Hno c); auto. rewrite E, !in_app_iff. auto.
    + apply (Hno c); auto. rewrite E, !in_app_iff. auto.
    + apply (Hno c); auto. rewrite E, !in_app_iff. auto.
    + rewrite forallb_forall in Hl. specialize (Hl _ Hin). rewrite Hw in Hl; auto.
      discriminate.
    + apply (Hno c); auto. rewrite E, !in_app_iff. auto.
Qed.
End Pieces.

(** ** Cutting and joining markup *)

Section MarkupFacts.
Variable uni_alnum : char -> bool.
Abbreviation word := (is_word uni_alnum).
Abbreviation piece := (piece word).
Abbreviation markup := (markup word).

Lemma markup_cat (b : bool) (x y : str) : markup b x -> markup b y -> markup b (x ++ y).
Proof.
  induction 1 as [|p s Hp Hs IH]; intros Hy; simpl; auto.
  rewrite <- app_assoc. constructor; auto.
Qed.

Lemma markup_piece (b : bool) (p : str) : piece b p -> markup b p.
Proof.
  intros H. rewrite <- (app_nil_r p). constructor; [auto|constructor].
Qed.

Lemma markup_weaken (s : str) : markup false s -> markup true s.
Proof.
  induction 1 as [|p s Hp Hs IH]; constructor; auto.
  destruct Hp as [c Hc|e He|t Ht|t Hb Ht|l Hb Hl]; try discriminate.
  - now apply piece_char.
  - now apply piece_entity.
  - now apply piece_tag.
Qed.

Lemma markup_tag (b : bool) (t : str) : In t inline_tags -> markup b t.
Proof. intros H. apply markup_piece. now constructor. Qed.

(** A text of markup splits wherever no piece straddles the split. *)
Lemma markup_cut (b : bool) (s : str) :
  markup b s ->
  forall x y, s = x ++ y ->
  (forall p u v x' y', piece b p -> p = u ++ v -> u <> [] -> v <> [] ->
                       x = x' ++ u -> y = v ++ y' -> False) ->
  markup b x /\ markup b y.
Proof.
  induction 1 as [|p s Hp Hs IH]; intros x y E Hno.
  - symmetry in E. apply app_eq_nil in E as [-> ->]. split; constructor.
  - symmetry in E. apply app_eq_app in E as [l [[-> ->]|[-> ->]]].
    + destruct (IH l y eq_refl) as [Hl Hy].
      * intros q u v x' y' Hq -> Hu Hv -> ->.
        eapply (Hno (u ++ v) u v (p ++ x') y'); eauto. now rewrite app_assoc.
      * split; auto. constructor; auto.
    + destruct l as [|c l].
      * rewrite app_nil_r in Hp. split; auto. now apply markup_piece.
      * destruct x as [|d x].
        -- split; [constructor|].
           change (markup b ((c :: l) ++ s)). now constructor.
        -- exfalso. eapply (Hno _ (d :: x) (c :: l) [] s); eauto; discriminate.
Qed.

Lemma markup_cut_opens (b : bool) (x y : str) (c : char) :
  markup b (x ++ c :: y) -> opens c = true -> markup b x /\ markup b (c :: y).
Proof.
  intros H Hc. apply (markup_cut b _ H); auto.
  intros p u v x' y' Hp -> Hu Hv -> E.
  destruct v as [|d v]; [congruence|]. inversion E; subst d.
  destruct u as [|e u]; [congruence|].
  apply piece_tl_opens in Hp. simpl in Hp. rewrite forallb_app in Hp.
  simpl in Hp. rewrite Hc in Hp. simpl in Hp.
  now rewrite andb_false_r in Hp.
Qed.

Lemma markup_cut_quiet (b : bool) (x y : str) (c : char) :
  markup b (x ++ c :: y) -> quiet c = true -> (b = true -> word c = false) ->
  markup b x /\ markup b y.
Proof.
  intros H Hq Hw.
  assert (Hone : forall p u v, piece b p -> p = u ++ v -> u <> [] -> v <> [] ->
                               In c p -> False).
  { intros p u v Hp -> Hu Hv Hin.
    pose proof (piece_quiet uni_alnum b _ c Hp Hin Hq Hw) as E.
    destruct u as [|d u]; [congruence|]. destruct v as [|e v]; [congruence|].
    destruct u; discriminate. }
  destruct (markup_cut b _ H x (c :: y) eq_refl) as [Hx Hy].
  - intros p u v x' y' Hp -> Hu Hv -> E.
    destruct v as [|d v]; [congruence|]. inversion E; subst d.
    eapply Hone; eauto. apply in_app_iff. right. now left.
  - split; auto.
    destruct (markup_cut b _ Hy [c] y eq_refl) as [_ Hy']; auto.
    intros p u v x' y' Hp -> Hu Hv E _.
    destruct u as [|d u]; [congruence|].
    assert (In c (d :: u)).
    { destruct x' as [|e x']; simpl in E.
      - inversion E. now left.
      - inversion E as [[E1 E2]]. now destruct x'. }
    eapply Hone; eauto. apply in_app_iff. now left.
Qed.

Lemma markup_peel_last (b : bool) (x : str) (c : char) :
  markup b (x ++ [c]) -> closes c = false -> markup b x.
Proof.
  intros H Hc. apply (markup_cut b _ H x [c] eq_refl).
  intros p u v x' y' Hp -> Hu Hv _ E.
  destruct v as [|d v]; [congruence|]. inversion E as [[E1 E2]]. subst d.
  symmetry in E2. apply app_eq_nil in E2 as [-> ->].
  destruct (piece_last uni_alnum b _ Hp) as [(d & E')|(z & d & E' & Hd)].
  - destruct u as [|e u]; [congruence|]. destruct u; discriminate.
  - apply app_inj_tail in E' as [_ <-]. congruence.
Qed.

Lemma markup_peel_suffix (b : bool) (x w : str) :
  markup b (x ++ w) -> forallb (fun c => negb (closes c)) w = true -> markup b x.
Proof.
  revert x. induction w as [|c w IH] using rev_ind; intros x H Hw.
  - now rewrite app_nil_r in H.
  - rewrite forallb_app in Hw. apply andb_true_iff in Hw as [Hw Hc].
    simpl in Hc. rewrite andb_true_r in Hc. apply negb_true_iff in Hc.
    apply IH; auto. rewrite app_assoc in H. eapply markup_peel_last; eauto.
Qed.

(** *** The passes of [render_markdown] keep the text markup *)

Lemma escape_char_piece (b : bool) (c : char) : piece b (escape_char c).
Proof.
  unfold escape_char.
  destruct (N.eqb_spec c (ch "&")); [apply piece_entity; vm_compute; tauto|].
  destruct (N.eqb_spec c (ch "<")); [apply piece_entity; vm_compute; tauto|].
  destruct (N.eqb_spec c (ch ">")); [apply piece_entity; vm_compute; tauto|].
  destruct (N.eqb_spec c DQ); [apply piece_entity; vm_compute; tauto|].
  destruct (N.eqb_spec c SQ); [apply piece_entity; vm_compute; tauto|].
  apply piece_char. unfold is_special. cbn [existsb].
  repeat match goal with
         | H : c <> ?d |- _ => apply N.eqb_neq in H; rewrite H; clear H
         end.
  reflexivity.
Qed.

Lemma escape_markup (b : bool) (s : str) : markup b (escape s).
Proof.
  induction s as [|c s IH]; simpl; constructor; auto using escape_char_piece.
Qed.

(** [str.replace] of a text whose ends are quiet by markup. *)
Lemma replace_markup (old new s : str) (c d : char) (mid : str) :
  old = c :: mid ++ [d] \/ (old = [c] /\ d = c) ->
  quiet c = true -> quiet d = true ->
  markup false new -> markup false s -> markup false (replace old new s).
Proof.
  intros Hold Hc Hd Hnew Hs. apply replace_invariant; auto.
  intros pre rest HT.
  assert (markup false pre /\ markup false rest) as [Hp Hr].
  { destruct Hold as [Hold|[Hold ->]]; rewrite Hold in HT.
    - simpl in HT. apply markup_cut_quiet in HT as [Hp HT]; auto; try discriminate.
      rewrite <- app_assoc in HT. simpl in HT.
      apply markup_cut_quiet in HT as [_ HT]; auto; discriminate.
    - simpl in HT. apply markup_cut_quiet in HT; auto; discriminate. }
  auto using markup_cat.
Qed.

Lemma markup_cut_quiets (x w y : str) (c : char) :
  markup false (x ++ (c :: w) ++ y) -> forallb quiet (c :: w) = true ->
  markup false x /\ markup false y.
Proof.
  revert x c. induction w as [|a w IH]; intros x c H Hw; simpl in *.
  - rewrite andb_true_r in Hw. apply markup_cut_quiet in H; auto; discriminate.
  - apply andb_true_iff in Hw as [Hc Hw].
    apply markup_cut_quiet in H as [Hx H]; auto; try discriminate.
    split; auto. now apply (IH [] a).
Qed.

Lemma span_stop (f : char -> bool) (s : str) (d : char) (r : str) :
  snd (span f s) = d :: r -> f d = false.
Proof.
  induction s as [|c s IH]; simpl; [discriminate|].
  destruct (f c) eqn:E.
  - destruct (span f s); simpl in *; auto.
  - simpl. intros H; inversion H; subst; auto.
Qed.

Lemma match_code_span_app (prev : option char) (s : str) (n : nat) (g : str) :
  match_code_span prev s = Some (n, g) ->
  n = (length g + 2)%nat /\ s = [ch "`"] ++ g ++ [ch "`"] ++ skipn n s.
Proof.
  unfold match_code_span. destruct s as [|c r]; [discriminate|].
  destruct (N.eqb_spec c (ch "`")); [subst c|discriminate].
  pose proof (span_app (fun c => negb (c =? ch "`")) r) as Er.
  pose proof (span_stop (fun c => negb (c =? ch "`")) r) as Es.
  destruct (span (fun c => negb (c =? ch "`")) r) as [g' r2]. simpl in Er, Es.
  destruct g' as [|a g']; [discriminate|]. destruct r2 as [|d r2]; [discriminate|].
  intros H; inversion H; subst n g; clear H. split; auto.
  specialize (Es d r2 eq_refl). apply negb_false_iff, N.eqb_eq in Es. subst d r.
  rewrite (skipn_between (ch "`") (ch "`") (a :: g') r2) by reflexivity.
  reflexivity.
Qed.

Lemma match_emph_app (delim : str) (prev : option char) (s : str) (n : nat) (g : str) :
  match_emph delim prev s = Some (n, g) ->
  n = (length delim + length g + length delim)%nat
  /\ s = delim ++ g ++ delim ++ skipn n s.
Proof.
  unfold match_emph. destruct (strip_prefix delim s) as [[|c r]|] eqn:E; try discriminate.
  destruct (c =? NL); [discriminate|].
  destruct (lazy_dot_until delim r) as [g'|] eqn:El; [|discriminate].
  intros H; inversion H; subst n g; clear H. split; [simpl; lia|].
  apply strip_prefix_app in E. apply lazy_dot_until_app in El.
  set (rest := skipn (length g' + length delim) r) in El. clearbody rest.
  subst s r.
  replace (delim ++ c :: g' ++ delim ++ rest)
    with ((delim ++ (c :: g') ++ delim) ++ rest) at 2
    by (now rewrite <- !app_assoc).
  rewrite skipn_exact by (rewrite !length_app; simpl; lia).
  reflexivity.
Qed.

Lemma wrap_tag_markup (tag g : str) :
  In (lit "<" ++ tag ++ lit ">") inline_tags ->
  In (lit "</" ++ tag ++ lit ">") inline_tags ->
  markup false g -> markup false (wrap_tag tag g).
Proof.
  intros Ho Hc Hg.
  replace (wrap_tag tag g)
    with ((lit "<" ++ tag ++ lit ">") ++ g ++ (lit "</" ++ tag ++ lit ">"))
    by (unfold wrap_tag; now rewrite <- !app_assoc).
  auto using markup_cat, markup_tag.
Qed.

Lemma code_span_markup (s : str) :
  markup false s -> markup false (re_sub match_code_span (wrap_tag (lit "code")) s).
Proof.
  intros Hs. unfold re_sub.
  apply (fill_scan_invariant _ match_code_span _ (markup false)) with (pre := []); auto.
  intros prev t n g Hm. apply match_code_span_app in Hm as [-> E].
  split.
  - pose proof (f_equal (@length _) E) as EL. rewrite !length_app in EL.
    simpl in EL. lia.
  - intros pre HT. rewrite E in HT.
    set (rest := skipn (length g + 2) t) in *. clearbody rest.
    apply markup_cut_quiet in HT as [Hp HT]; auto; try discriminate.
    apply markup_cut_quiet in HT as [Hg Hr]; auto; try discriminate.
    apply markup_cat; auto. apply markup_cat; auto.
    apply wrap_tag_markup; auto; vm_compute; tauto.
Qed.

Lemma emph_markup (delim tag : str) (c : char) (w : str) (s : str) :
  delim = c :: w -> forallb quiet delim = true ->
  In (lit "<" ++ tag ++ lit ">") inline_tags ->
  In (lit "</" ++ tag ++ lit ">") inline_tags ->
  markup false s -> markup false (re_sub (match_emph delim) (wrap_tag tag) s).
Proof.
  intros Hd Hq Ho Hc Hs. unfold re_sub.
  apply (fill_scan_invariant _ (match_emph delim) _ (markup false)) with (pre := []); auto.
  intros prev t n g Hm. apply match_emph_app in Hm as [-> E].
  split.
  - pose proof (f_equal (@length _) E) as EL. rewrite !length_app in EL.
    subst delim. simpl in *. lia.
  - intros pre HT. rewrite E in HT.
    set (rest := skipn (length delim + length g + length delim) t) in *. clearbody rest.
    subst delim.
    apply markup_cut_quiets in HT as [Hp HT]; auto.
    change (g ++ (c :: w) ++ rest) with (g ++ (c :: w) ++ rest) in HT.
    apply markup_cut_quiets in HT as [Hg Hr]; auto.
    apply markup_cat; auto. apply markup_cat; auto.
    apply wrap_tag_markup; auto.
Qed.

Lemma uint_digits_open (u : Decimal.uint) :
  forallb (fun c => negb (closes c)) (lit (NilEmpty.string_of_uint u)) = true.
Proof.
  induction u; simpl; auto.
Qed.

Lemma placeholder_open (i : nat) :
  forallb (fun c => negb (closes c)) (placeholder i) = true.
Proof.
  unfold placeholder, str_of_nat. rewrite !forallb_app.
  assert (forallb (fun c => negb (closes c))
            (lit (NilZero.string_of_uint (Nat.to_uint i))) = true) as ->.
  { unfold NilZero.string_of_uint.
    destruct (Nat.to_uint i); try apply uint_digits_open. reflexivity. }
  reflexivity.
Qed.

Lemma match_fence_lang (s : str) (n : nat) (f : fence) :
  match_fence uni_alnum s = Some (n, f) -> forallb word (fence_lang f) = true.
Proof.
  unfold match_fence. destruct (strip_prefix fence_mark s) as [r|]; [|discriminate].
  pose proof (span_forallb word r) as Hw.
  destruct (span word r) as [w r2]. simpl in Hw.
  destruct r2 as [|c r3]; [discriminate|].
  destruct (c =? NL); [|discriminate].
  destruct (find_sub fence_mark r3); [|discriminate].
  intros H; inversion H; subst; auto.
Qed.

Lemma restored_markup (f : fence) :
  forallb word (fence_lang f) = true -> markup true (restored f).
Proof.
  intros Hw.
  replace (restored f)
    with (lit "<pre>" ++ code_open (fence_lang f) ++ escape (fence_code f)
            ++ lit "</code>" ++ lit "</pre>")
    by (unfold restored, code_open; simpl; now rewrite <- !app_assoc).
  constructor; [apply piece_block; auto; vm_compute; tauto|].
  constructor; [apply piece_code_open; auto|].
  apply markup_cat; [apply escape_markup|].
  constructor; [apply piece_tag; vm_compute; tauto|].
  apply markup_piece. apply piece_block; auto; vm_compute; tauto.
Qed.

Lemma restore_markup (blocks : list str) (i : nat) (html : str) :
  markup true html -> markup true (restore_code_blocks uni_alnum blocks i html).
Proof.
  revert i html.
  induction blocks as [|block blocks IH]; intros i html H; cbn [restore_code_blocks]; auto.
  apply IH. destruct (match_fence uni_alnum block) as [[n f]|] eqn:E; auto.
  apply match_fence_lang in E. apply replace_invariant; auto.
  intros pre rest HT.
  replace (pre ++ (placeholder i ++ lit "<br>" ++ [NL]) ++ rest)
    with ((pre ++ placeholder i) ++ ch "<" :: (lit "br>" ++ NL :: rest)) in HT
    by (rewrite <- !app_assoc; reflexivity).
  apply markup_cut_opens in HT as [Hp HT]; [|reflexivity].
  apply markup_peel_suffix in Hp; [|apply placeholder_open].
  change (ch "<" :: lit "br>" ++ NL :: rest) with (lit "<br>" ++ NL :: rest) in HT.
  apply markup_cut_quiet in HT as [_ Hr]; [|reflexivity|reflexivity].
  auto using markup_cat, restored_markup.
Qed.
End MarkupFacts.

(** ** The markdown renderer *)

(** In markup, a character that opens a piece starts an entity or one
    of the renderer's tags. *)
Lemma markup_opens (word : char -> bool) (b : bool) (x y : str) (c : char) :
  markup (is_word word) b (x ++ c :: y) -> opens c = true ->
  exists p rest, c :: y = p ++ rest
    /\ (In p fixed_pieces \/ exists l, forallb (is_word word) l = true /\ p = code_open l).
Proof.
  intros H Hc. apply markup_cut_opens in H as [_ H]; auto.
  inversion H as [|p s Hp Hs E]. exists p, s. split; auto.
  apply piece_fixed in Hp as [(d & -> & Hd)|[Hp|(_ & l & Hl & ->)]]; eauto.
  exfalso. inversion E; subst d. unfold opens in Hc. unfold is_special in Hd.
  cbn [existsb] in Hd. apply orb_true_iff in Hc as [Hc|Hc]; rewrite Hc in Hd;
    simpl in Hd; try discriminate. now rewrite !orb_true_r in Hd.
Qed.

(** C2.  For every input text the output of the markdown renderer is a
    sequence of characters that HTML does not read as markup (none of
    the angle brackets, the ampersand and the two quotes), of the five
    entities of [html.escape] and of the tags that the renderer itself
    writes: h1, h2, h3, code, strong, em, br, pre, and code with a
    class [language-] followed by word characters.  In particular every
    [<] of the output starts one of these tags and every ampersand one
    of the entities. *)
Theorem render_markdown_no_injection (uni_alnum : char -> bool) (text : str) :
  markup (is_word uni_alnum) true (render_markdown uni_alnum text)
  /\ forall x y c, render_markdown uni_alnum text = x ++ c :: y -> opens c = true ->
       exists p rest, c :: y = p ++ rest
         /\ (In p fixed_pieces
             \/ exists l, forallb (is_word uni_alnum) l = true /\ p = code_open l).
Proof.
  assert (H : markup (is_word uni_alnum) true (render_markdown uni_alnum text)).
  { unfold render_markdown. destruct text as [|c text]; [constructor|].
    destruct (extract_code_blocks uni_alnum (c :: text)) as [t blocks].
    apply restore_markup. apply markup_weaken.
    apply (replace_markup uni_alnum _ _ _ NL NL []); auto.
    { apply markup_cat; [apply markup_tag; vm_compute; tauto|].
      apply markup_piece. now apply piece_char. }
    apply (emph_markup uni_alnum (lit "*") (lit "em") (ch "*") []); auto;
      try (vm_compute; tauto).
    apply (emph_markup uni_alnum (lit "**") (lit "strong") (ch "*") [ch "*"]); auto;
      try (vm_compute; tauto).
    apply code_span_markup.
    repeat (match goal with
            | |- markup _ false (replace ?old ?new ?s) =>
                apply (replace_markup uni_alnum old new s (ch "_") (ch "_")
                         (removelast (tl old)));
                [left; reflexivity|reflexivity|reflexivity|
                  apply markup_tag; vm_compute; tauto|]
            end).
    apply escape_markup. }
  split; auto.
  intros x y c E Hc. rewrite E in H. eapply markup_opens; eauto.
Qed.

(** In the rendering of [<b>] the only character that opens a piece
    is the ampersand of an entity. *)
Lemma render_markdown_no_injection_witness :
  exists p rest,
    lit "&lt;b&gt;" = p ++ rest
    /\ (In p fixed_pieces
        \/ exists l, forallb (is_word Reference.alnum) l = true /\ p = code_open l).
Proof.
  exact (proj2 (render_markdown_no_injection Reference.alnum (lit "<b>"))
           [] (lit "lt;b&gt;") (ch "&") eq_refl eq_refl).
Defined.

(** C1.  A fenced code block that ends the text is not restored: the
    placeholder is replaced only where a line break follows it, so for
    the text [```python\nprint(1)\n```] the renderer returns the bare
    placeholder token.  With a line after the block the same block is
    restored as a preformatted code element. *)
Theorem render_markdown_fence_at_end :
  render_markdown Reference.alnum (text ["```python"; "print(1)"; "```"])
  = lit "___CODE_BLOCK_0___"
  /\ render_markdown Reference.alnum (text ["```python"; "print(1)"; "```"; "done"])
     = lit "<pre><code class=" ++ quoted (lit "language-python") ++ lit ">"
         ++ text ["print(1)"; "</code></pre>done"].
Proof.
  split; vm_compute; reflexivity.
Qed.

(** ** Durations *)

Lemma join_space_cons (p : str) (parts : list str) :
  parts <> [] -> join (lit " ") (p :: parts) = p ++ lit " " ++ join (lit " ") parts.
Proof.
  destruct parts; [congruence|reflexivity].
Qed.

(** A whole number of seconds below one hour is read back as it is:
    checked on each of the 3600 durations. *)
Lemma whole_seconds_below_hour (k : Z) :
  (0 <= k < 3600)%Z -> int_total_seconds (k * 1000000) = k.
Proof.
  intros Hk.
  assert (H : forallb (fun n => (int_total_seconds (Z.of_nat n * 1000000) =? Z.of_nat n)%Z)
                (seq 0 3600) = true) by (vm_compute; reflexivity).
  rewrite forallb_forall in H.
  specialize (H (Z.to_nat k)). rewrite Z2Nat.id in H by lia.
  apply Z.eqb_eq, H, in_seq. lia.
Qed.

Lemma whole_seconds_quot (n : Z) :
  (0 < n < 2 ^ 53)%Z -> whole_seconds n = (n / 1000000)%Z.
Proof.
  intros Hn. unfold whole_seconds.
  assert (HL : (0 <= Z.log2 n <= 52)%Z).
  { split; [apply Z.log2_nonneg|].
    assert (Z.log2 n < 53)%Z by (apply Z.log2_lt_pow2; lia). lia. }
  set (e0 := (Z.log2 n - 71)%Z).
  assert (He0 : (0 <=? e0)%Z = false) by (apply Z.leb_gt; unfold e0; lia).
  rewrite He0. cbn [fst snd].
  set (e := if (n * 2 ^ (- e0) <? 2 ^ 52 * 1000000)%Z then (e0 - 1)%Z else e0).
  assert (He : (19 <= - e)%Z)
    by (unfold e; destruct (n * 2 ^ (- e0) <? 2 ^ 52 * 1000000)%Z; unfold e0; lia).
  replace (0 <=? e)%Z with false by (symmetry; apply Z.leb_gt; lia). cbn [fst snd].
  set (P := (2 ^ (- e))%Z).
  assert (HP : (524288 <= P)%Z).
  { change 524288%Z with (2 ^ 19)%Z. apply Z.pow_le_mono_r; lia. }
  clearbody P. clear e He e0 He0 HL.
  unfold round_half_even.
  pose proof (Z.div_mod (n * P) 1000000 ltac:(lia)) as E1.
  pose proof (Z.mod_pos_bound (n * P) 1000000 ltac:(lia)) as B1.
  pose proof (Z.div_mod n 1000000 ltac:(lia)) as E2.
  pose proof (Z.mod_pos_bound n 1000000 ltac:(lia)) as B2.
  set (q' := (n * P / 1000000)%Z) in *. set (r' := ((n * P) mod 1000000)%Z) in *.
  set (q := (n / 1000000)%Z) in *. set (r := (n mod 1000000)%Z) in *.
  assert (EP : (n * P = 1000000 * (q * P) + r * P)%Z) by (rewrite E2 at 1; ring).
  assert (Hr : (0 <= r * P <= 999999 * P)%Z) by nia.
  set (qP := (q * P)%Z) in *. set (rP := (r * P)%Z) in *.
  assert (Hm : forall m, (qP <= m < qP + P)%Z -> (m / P = q)%Z).
  { intros m Hm. symmetry. apply (Z.div_unique m P q (m - qP)); unfold qP in *; lia. }
  destruct (2 * r' <? 1000000)%Z eqn:C1; [apply Hm; lia|].
  apply Z.ltb_ge in C1.
  destruct (1000000 <? 2 * r')%Z; [apply Hm; lia|].
  destruct (Z.even q'); apply Hm; lia.
Qed.

(** Below 2^53 microseconds, some 285 years, the float is exact enough:
    the whole seconds are the truncating quotient. *)
Lemma int_total_seconds_quot (td : Z) :
  (Z.abs td < 2 ^ 53)%Z -> int_total_seconds td = (td ÷ 1000000)%Z.
Proof.
  intros H. destruct td as [|p|p]; cbn [int_total_seconds].
  - reflexivity.
  - rewrite whole_seconds_quot by lia. symmetry. apply Z.quot_div_nonneg; lia.
  - rewrite whole_seconds_quot by lia.
    change (Z.neg p) with (- Z.pos p)%Z. rewrite Z.opp_involutive, Z.quot_opp_l by lia.
    f_equal. symmetry. apply Z.quot_div_nonneg; lia.
Qed.

(** Below 2^34 seconds the last microsecond of a second still belongs
    to it; at 2^35 seconds it is counted with the next second. *)
Lemma int_total_seconds_examples :
  int_total_seconds 1999999 = 1%Z
  /\ int_total_seconds (-1999999) = (-1)%Z
  /\ int_total_seconds (2 ^ 33 * 1000000 - 1) = (2 ^ 33 - 1)%Z
  /\ int_total_seconds (2 ^ 35 * 1000000 - 1) = (2 ^ 35)%Z.
Proof.
  repeat split; vm_compute; reflexivity.
Qed.

(** C7.  The formatted duration always ends with the seconds, shows
    the minutes before them exactly when the minutes or the hours are
    positive, and the hours first exactly when they are positive, the
    components being separated by single spaces; a zero duration reads
    [0s] and 65 minutes read [1h 5m 0s]. *)
Theorem format_timedelta_components :
  (forall td : Z,
     let total := int_total_seconds td in
     let hours := (total / 3600)%Z in
     let minutes := ((total mod 3600) / 60)%Z in
     let seconds := (total mod 60)%Z in
     format_timedelta td =
       (if (hours >? 0)%Z then str_of_Z hours ++ lit "h " else [])
         ++ (if (minutes >? 0)%Z || (hours >? 0)%Z then str_of_Z minutes ++ lit "m " else [])
         ++ str_of_Z seconds ++ lit "s")
  /\ format_timedelta 0 = lit "0s"
  /\ format_timedelta (65 * 60 * 1000000) = lit "1h 5m 0s".
Proof.
  split; [|split; vm_compute; reflexivity].
  intros td total hours minutes seconds. unfold format_timedelta.
  fold total. fold hours. fold minutes. fold seconds.
  destruct (hours >? 0)%Z; destruct (minutes >? 0)%Z; cbn [orb app];
    rewrite ?join_space_cons by discriminate; cbn [join];
    now rewrite <- ?app_assoc.
Qed.

(** C10.  A duration of minus five seconds is formatted [59m 55s].
    In general a negative duration is formatted as the positive
    duration of its whole seconds modulo one hour, so the total
    duration of records whose timestamps run backwards reads as a
    positive time below one hour. *)
Theorem format_timedelta_negative :
  format_timedelta (-5 * 1000000) = lit "59m 55s"
  /\ (forall td : Z,
        (int_total_seconds td < 0)%Z ->
        format_timedelta td
        = format_timedelta ((int_total_seconds td mod 3600) * 1000000))
  /\ (calculate_session_timing Reference.fromisoformat
        [timed_record "user" "2025-01-01T10:00:05Z";
         timed_record "assistant" "2025-01-01T10:00:00Z"]
      = Ok {| total_duration := -5 * 1000000;
              claude_working_time := -5 * 1000000;
              waiting_for_user_time := 0 |}).
Proof.
  split; [vm_compute; reflexivity|]. split; [|vm_compute; reflexivity].
  intros td Hneg. unfold format_timedelta.
  set (total := int_total_seconds td) in *.
  assert (E : int_total_seconds (total mod 3600 * 1000000) = (total mod 3600)%Z).
  { apply whole_seconds_below_hour. apply Z.mod_pos_bound. lia. }
  rewrite E.
  assert (H1 : (total / 3600 >? 0)%Z = false).
  { rewrite Z.gtb_ltb. apply Z.ltb_ge.
    assert (total / 3600 < 0)%Z by (apply Z.div_lt_upper_bound; lia). lia. }
  assert (H2 : (total mod 3600 / 3600 >? 0)%Z = false).
  { rewrite Z.div_small; [reflexivity|]. apply Z.mod_pos_bound. lia. }
  rewrite H1, H2.
  rewrite (Z.mod_mod total 3600) by lia.
  replace ((total mod 3600) mod 60)%Z with (total mod 60)%Z; [reflexivity|].
  rewrite (Z.div_mod total 3600) at 1 by lia.
  replace (3600 * (total / 3600) + total mod 3600)%Z
    with (total mod 3600 + (60 * (total / 3600)) * 60)%Z by lia.
  apply Z.mod_add. lia.
Qed.

(** A duration of minus 65 seconds reads [58m 55s]. *)
Lemma format_timedelta_negative_witness :
  format_timedelta (-65 * 1000000) = format_timedelta (3535 * 1000000).
Proof.
  apply (proj1 (proj2 format_timedelta_negative) (-65 * 1000000)%Z).
  vm_compute. reflexivity.
Defined.

(** ** The timing summary *)

Lemma str_eqb_eq (a b : str) : str_eqb a b = true -> a = b.
Proof.
  unfold str_eqb. now destruct (list_eq_dec N.eq_dec a b).
Qed.

Lemma str_eqb_refl (a : str) : str_eqb a a = true.
Proof.
  unfold str_eqb. now destruct (list_eq_dec N.eq_dec a a).
Qed.

(** Only the string itself equals a string. *)
Lemma is_str_eq (s : str) (v : json) : is_str s v = true -> v = JStr s.
Proof.
  unfold is_str. destruct v as [|b|z|f|t|l|d]; simpl; try discriminate.
  intros H. apply str_eqb_eq in H. now subst.
Qed.

Lemma is_str_refl (s : str) : is_str s (JStr s) = true.
Proof. apply str_eqb_refl. Qed.

Lemma user_assistant_exclusive (a b : stamped) :
  user_then_assistant a b = true -> assistant_then_user a b = false.
Proof.
  unfold user_then_assistant, assistant_then_user.
  intros H. apply andb_true_iff in H as [H _]. apply is_str_eq in H.
  rewrite H. reflexivity.
Qed.

Lemma same_awareness_tail (a b : stamped) (l : list stamped) :
  same_awareness (a :: b :: l) = true ->
  dt_aware (st_time b) = dt_aware (st_time a) /\ same_awareness (b :: l) = true.
Proof.
  simpl. intros H. apply andb_true_iff in H as [Hb Hl].
  apply Bool.eqb_prop in Hb. split; auto.
  rewrite forallb_forall in *. intros x Hx. rewrite Hb. auto.
Qed.

Lemma gap_sum_cons (counts : stamped -> stamped -> bool) (a b : stamped) (l : list stamped) :
  gap_sum counts (a :: b :: l)
  = ((if counts a b then gap a b else 0) + gap_sum counts (b :: l))%Z.
Proof. reflexivity. Qed.

(** The loop adds every gap to the bucket of its pair, from the
    accumulators it starts with. *)
Lemma timing_loop_gap_sum (rest : list stamped) :
  forall (prev : stamped) (working waiting : Z),
    same_awareness (prev :: rest) = true ->
    timing_loop prev rest working waiting
    = Ok ((working + gap_sum user_then_assistant (prev :: rest))%Z,
          (waiting + gap_sum assistant_then_user (prev :: rest))%Z).
Proof.
  induction rest as [|curr rest IH]; intros prev working waiting Hs.
  - simpl. now rewrite !Z.add_0_r.
  - apply same_awareness_tail in Hs as [Hb Hs].
    cbn [timing_loop]. rewrite !gap_sum_cons.
    unfold dt_sub. rewrite Hb, Bool.eqb_reflx.
    cbn [bind]. fold (gap prev curr).
    fold (user_then_assistant prev curr). fold (assistant_then_user prev curr).
    destruct (user_then_assistant prev curr) eqn:Eu.
    + rewrite (user_assistant_exclusive _ _ Eu). rewrite IH by auto.
      f_equal. f_equal; lia.
    + destruct (assistant_then_user prev curr); rewrite IH by auto;
        f_equal; f_equal; lia.
Qed.

(** ** Edit diffs *)

(** The choice of the template by the number of body lines. *)
Lemma render_diff_html_cases
    (uni_decimal : char -> option Z) (diff : list str) (header : str) :
  diff <> [] ->
  let body := diff_body uni_decimal diff in
  ((length body <= 10)%nat ->
   render_diff_html uni_decimal diff header
   = expanded_diff header (_render_diff_lines body))
  /\ ((10 < length body)%nat ->
      render_diff_html uni_decimal diff header
      = collapsed_diff header (_render_diff_lines (firstn 5 body)) (_render_diff_lines body)
          (length body - 5))
  /\ (length body = 11%nat ->
      exists before after,
        render_diff_html uni_decimal diff header
        = before ++ lit "Show full diff (6 more lines)" ++ after).
Proof.
  intros Hd body. unfold render_diff_html. destruct diff as [|l diff]; [congruence|].
  fold body. repeat split.
  - intros H. apply Nat.ltb_ge in H. now rewrite H.
  - intros H. apply Nat.ltb_lt in H. now rewrite H.
  - intros H. rewrite H. cbn [Nat.ltb Nat.leb Nat.sub]. unfold collapsed_diff.
    change (str_of_nat 6) with (lit "6").
    eexists (ln 12 (div "edit-diff collapsible") ++ ln 16 header
               ++ ln 16 (div "diff-preview")
               ++ ln 20 (_render_diff_lines (firstn 5 body))
               ++ ln 20 (open_tag "div"
                           [("class", lit "diff-expand-link");
                            ("onclick",
                              expand_onclick "this.parentElement.parentElement")])
               ++ NL :: repeat 32 24), _.
    unfold ln at 6. rewrite <- !app_assoc. cbn [app]. rewrite <- !app_assoc.
    reflexivity.
Qed.

(** ** Tool results *)

(** ** Pairing tool uses with their results *)

Section Pairing.
Variable uni_decimal : char -> option Z.
Variable unified_diff : list str -> list str -> list str.
Variables tool_id tool_name tool_input : json.

Abbreviation render := (fun item => render_tool_result uni_decimal unified_diff
                                      item tool_name tool_input).

Lemma find_in_items_first (items : list json) :
  find_in_items uni_decimal unified_diff items tool_id tool_name tool_input
  = match find (is_result_for tool_id) items with
    | Some item => html <- render item ;; Ok (Some html)
    | None => Ok None
    end.
Proof.
  induction items as [|item items IH]; [reflexivity|].
  cbn [find_in_items find].
  destruct item as [|b|z|f|s|l|d]; cbn [is_result_for]; auto.
  cbn [get bind]. unfold field.
  destruct (is_str (lit "tool_result")
              match assoc (lit "type") d with Some x => x | None => JNull end);
    cbn [andb]; auto.
  destruct (py_eq match assoc (lit "tool_use_id") d with Some x => x | None => JNull end
              tool_id); auto.
Qed.

Lemma find_app_first {A : Type} (f : A -> bool) (l r : list A) :
  find f (l ++ r) = match find f l with Some x => Some x | None => find f r end.
Proof.
  induction l as [|a l IH]; simpl; auto. now destruct (f a).
Qed.

Lemma find_strings (f : json -> bool) (keys : list str) :
  (forall s, f (JStr s) = false) -> find f (map JStr keys) = None.
Proof.
  intros Hf. induction keys as [|k keys IH]; simpl; auto. now rewrite Hf.
Qed.

Lemma find_and_render_first (messages : list json) :
  forall items,
    all_considered messages = Some items ->
    find_and_render_tool_result uni_decimal unified_diff messages
      tool_id tool_name tool_input
    = match find (is_result_for tool_id) items with
      | Some item => render item
      | None => Ok []
      end.
Proof.
  induction messages as [|msg messages IH]; intros items Hall.
  - inversion Hall. reflexivity.
  - cbn [all_considered] in Hall.
    destruct (considered_items msg) as [l|] eqn:El; [|discriminate].
    destruct (all_considered messages) as [ls|]; [|discriminate].
    inversion Hall; subst items; clear Hall.
    specialize (IH ls eq_refl). rewrite find_app_first.
    cbn [find_and_render_tool_result].
    destruct msg as [|b|z|f|s|l0|d]; try discriminate.
    cbn [get bind]. cbn [considered_items] in El. unfold field in El.
    destruct (is_str (lit "user")
                match assoc (lit "type") d with Some x => x | None => JNull end).
    + destruct (match assoc (lit "message") d with Some x => x | None => JDict [] end)
        as [|b|z|f|s|l0|m]; try discriminate.
      cbn [get bind].
      destruct (match assoc (lit "content") m with Some x => x | None => JList [] end)
        as [|b|z|f|s|l0|kv]; try discriminate;
        inversion El; subst l; clear El; cbn [iterate bind find]; auto.
      * rewrite find_in_items_first.
        destruct (find (is_result_for tool_id) l0) as [item|]; cbn [bind]; auto.
        now destruct (render item).
      * rewrite find_in_items_first.
        rewrite <- (map_map fst JStr), find_strings by reflexivity. auto.
    + inversion El; subst l. auto.
Qed.
End Pairing.

(** Where only tool results carry the identifier (the data model of the
    specification), the first item with the identifier is the one that
    the lookup renders. *)
Lemma find_result_by_identifier (tool_id : json) (items : list json) :
  let carries_id item :=
    match item with
    | JDict d => py_eq (field d "tool_use_id" JNull) tool_id
    | _ => false
    end in
  (forall item d, In item items -> item = JDict d -> carries_id item = true ->
                  is_str (lit "tool_result") (field d "type" JNull) = true) ->
  find (is_result_for tool_id) items = find carries_id items.
Proof.
  intros carries_id H. induction items as [|item items IH]; [reflexivity|].
  cbn [find]. rewrite IH by (intros; eapply H; eauto; now right).
  destruct item as [|b|z|f|s|l|d]; auto.
  cbn [is_result_for].
  change (carries_id (JDict d)) with (py_eq (field d "tool_use_id" JNull) tool_id).
  destruct (py_eq (field d "tool_use_id" JNull) tool_id) eqn:E.
  - rewrite (H (JDict d) d); auto. now left.
  - now rewrite andb_false_r.
Qed.

(** ** Messages *)

Lemma strip_char (uni_space : char -> bool) (c : char) :
  strip uni_space [c] = if is_space uni_space c then [] else [c].
Proof.
  unfold strip. cbn [lstrip]. destruct (is_space uni_space c) eqn:E; [reflexivity|].
  cbn [rev app lstrip]. now rewrite E.
Qed.

(** * Further properties of the renderer *)

(** ** Substitution where nothing matches *)

Lemma in_skipn {A : Type} (a : A) (n : nat) (l : list A) : In a (skipn n l) -> In a l.
Proof.
  rewrite <- (firstn_skipn n l) at 2. rewrite in_app_iff. auto.
Qed.

Section ScanMisses.
Variable M : Type.
Variable match_at : option char -> str -> option (nat * M).
Variable repl : M -> str.

Lemma fill_chars (s : str) : fill repl (map inl s) = s.
Proof.
  induction s as [|c s IH]; simpl; [reflexivity|]. now f_equal.
Qed.

Lemma fill_app (l r : list (char + M)) : fill repl (l ++ r) = fill repl l ++ fill repl r.
Proof. apply flat_map_app. Qed.

(** The walk copies a prefix at whose positions nothing matches. *)
Lemma scan_copy (x y : str) :
  (forall j prev, (j < length x)%nat -> match_at prev (skipn j x ++ y) = None) ->
  forall prev, exists prev', scan match_at O prev (x ++ y) = map inl x ++ scan match_at O prev' y.
Proof.
  induction x as [|c x IH]; intros H prev; [now exists prev|].
  pose proof (H O prev ltac:(simpl; lia)) as H0. cbn [skipn] in H0.
  cbn [app scan] in *. rewrite H0.
  destruct (IH (fun j p Hj => H (S j) p ltac:(simpl; lia)) (Some c)) as [prev' ->].
  now exists prev'.
Qed.

(** The walk replaces a match and resumes after it. *)
Lemma scan_match (s : str) (prev : option char) (n : nat) (m : M) :
  match_at prev s = Some (n, m) -> (1 <= n <= length s)%nat ->
  exists prev', scan match_at O prev s = inr m :: scan match_at O prev' (skipn n s).
Proof.
  destruct s as [|c s]; simpl; [lia|]. intros -> Hn.
  destruct n as [|n]; [lia|]. simpl.
  destruct (scan_skip _ match_at n s (Some c)) as [prev' ->]; [lia|]. now exists prev'.
Qed.

(** Where every match begins with the character [o], a text without
    [o] is copied. *)
Section StartsWith.
Variable o : char.
Hypothesis starts_with : forall prev t n m, match_at prev t = Some (n, m) -> exists r, t = o :: r.

Lemma miss_without (x y : str) :
  ~ In o x ->
  forall j prev, (j < length x)%nat -> match_at prev (skipn j x ++ y) = None.
Proof.
  intros Hx j prev Hj.
  destruct (match_at prev (skipn j x ++ y)) as [[n m]|] eqn:E; [|reflexivity].
  exfalso. apply starts_with in E as [r E].
  assert (In o (skipn j x)).
  { destruct (skipn j x) as [|c t] eqn:Et.
    - apply (f_equal (@length _)) in Et. rewrite length_skipn in Et. simpl in Et. lia.
    - inversion E. now left. }
  apply Hx. eapply in_skipn; eauto.
Qed.

Lemma scan_copy_without (x y : str) (prev : option char) :
  ~ In o x ->
  exists prev', scan match_at O prev (x ++ y) = map inl x ++ scan match_at O prev' y.
Proof.
  intros Hx. apply scan_copy. now apply miss_without.
Qed.

Lemma re_sub_without (s : str) : ~ In o s -> re_sub match_at repl s = s.
Proof.
  intros Hs. unfold re_sub.
  destruct (scan_copy_without s [] None Hs) as [prev' E].
  rewrite app_nil_r in E. rewrite E. cbn [scan]. rewrite app_nil_r. apply fill_chars.
Qed.
End StartsWith.
End ScanMisses.

(** ** What the patterns of the renderer begin with *)

Lemma starts_literal (o : char) (old' : str) (prev : option char) (t : str) (n : nat) (m : unit) :
  match_literal (o :: old') prev t = Some (n, m) -> exists r, t = o :: r.
Proof.
  unfold match_literal. destruct (startswith (o :: old') t) eqn:E; [|discriminate].
  intros _. apply startswith_app in E. simpl in E. eauto.
Qed.

Lemma starts_fence (uni_alnum : char -> bool) (prev : option char) (t : str) (n : nat) (m : str) :
  match_fence_text uni_alnum prev t = Some (n, m) -> exists r, t = ch "`" :: r.
Proof.
  unfold match_fence_text, match_fence.
  destruct (strip_prefix fence_mark t) eqn:E; [|discriminate].
  intros _. apply strip_prefix_app in E. rewrite E. simpl. eauto.
Qed.

Lemma starts_header (c : char) (w : str) (prev : option char) (t : str) (n : nat) (m : str) :
  match_header (c :: w) prev t = Some (n, m) -> exists r, t = c :: r.
Proof.
  unfold match_header. destruct (at_line_start prev); [|discriminate].
  destruct (strip_prefix (c :: w) t) eqn:E; [|discriminate].
  intros _. apply strip_prefix_app in E. rewrite E. simpl. eauto.
Qed.

Lemma starts_code_span (prev : option char) (t : str) (n : nat) (m : str) :
  match_code_span prev t = Some (n, m) -> exists r, t = ch "`" :: r.
Proof.
  unfold match_code_span. destruct t as [|c r]; [discriminate|].
  destruct (N.eqb_spec c (ch "`")); [subst; eauto|discriminate].
Qed.

Lemma starts_emph (c : char) (w : str) (prev : option char) (t : str) (n : nat) (m : str) :
  match_emph (c :: w) prev t = Some (n, m) -> exists r, t = c :: r.
Proof.
  unfold match_emph. destruct (strip_prefix (c :: w) t) eqn:E; [|discriminate].
  intros _. apply strip_prefix_app in E. rewrite E. simpl. eauto.
Qed.

(** ** [str.replace] and [html.escape] on texts they do not touch *)

Lemma replace_without (o : char) (old new s : str) :
  hd_error old = Some o -> ~ In o s -> replace old new s = s.
Proof.
  destruct old as [|o' old']; [discriminate|]. intros E H. inversion E; subst o'.
  unfold replace. apply re_sub_without with (o := o); auto.
  intros prev t n m. apply starts_literal.
Qed.

Lemma find_sub_none (p s : str) :
  find_sub p s = None -> forall j, startswith p (skipn j s) = false.
Proof.
  induction s as [|c s IH]; simpl; intros H j.
  - destruct j; simpl; now destruct (startswith p []).
  - destruct (startswith p (c :: s)) eqn:E; [discriminate|].
    destruct j as [|j]; simpl; auto.
    apply IH. now destruct (find_sub p s).
Qed.

(** A text that does not contain [old] is returned as it is. *)
Lemma replace_absent (old new s : str) : contains old s = false -> replace old new s = s.
Proof.
  unfold contains. destruct (find_sub old s) eqn:E; [discriminate|]. intros _.
  unfold replace, re_sub.
  destruct (scan_copy unit (match_literal old) s [] ) with (prev := @None char) as [prev' E'].
  - intros j prev _. rewrite app_nil_r. unfold match_literal.
    destruct old; auto. now rewrite (find_sub_none _ _ E).
  - rewrite app_nil_r in E'. rewrite E'. cbn [scan]. rewrite app_nil_r. apply fill_chars.
Qed.

(** Replacing a single character goes character by character. *)
Lemma replace_char (c : char) (new s : str) :
  replace [c] new s = flat_map (fun d => if d =? c then new else [d]) s.
Proof.
  unfold replace, re_sub. generalize (@None char).
  induction s as [|d s IH]; intros prev; [reflexivity|].
  cbn [scan match_literal flat_map]. unfold startswith. cbn [strip_prefix].
  destruct (N.eqb_spec c d), (N.eqb_spec d c); try congruence;
    cbn [length Nat.pred fill flat_map]; now rewrite <- (IH (Some d)).
Qed.

Lemma escape_char_plain (c : char) : is_special c = false -> escape_char c = [c].
Proof.
  unfold is_special, escape_char. cbn [existsb].
  intros H. repeat (apply orb_false_iff in H as [? H]).
  repeat match goal with E : (c =? _) = false |- _ => rewrite E; clear E end.
  reflexivity.
Qed.

Lemma escape_plain (s : str) :
  forallb (fun c => negb (is_special c)) s = true -> escape s = s.
Proof.
  induction s as [|c s IH]; simpl; [reflexivity|].
  intros H. apply andb_true_iff in H as [Hc Hs]. apply negb_true_iff in Hc.
  rewrite escape_char_plain by auto. simpl. f_equal. auto.
Qed.

(** ** [str.replace] at a known occurrence *)

Lemma scan_literal_prev (old : str) (s : str) (k : nat) (p p' : option char) :
  scan (match_literal old) k p s = scan (match_literal old) k p' s.
Proof.
  revert k p p'. induction s as [|c s IH]; intros k p p'; [reflexivity|].
  destruct k; reflexivity.
Qed.

Lemma startswith_self (p r : str) : startswith p (p ++ r) = true.
Proof.
  unfold startswith. induction p as [|a p IH]; simpl; [reflexivity|].
  now rewrite N.eqb_refl.
Qed.

Lemma startswith_head (o c : char) (old s : str) :
  hd_error old = Some o -> c <> o -> startswith old (c :: s) = false.
Proof.
  destruct old as [|o' old]; [discriminate|]. intros E Hc. inversion E; subst o'.
  unfold startswith. cbn [strip_prefix].
  destruct (N.eqb_spec o c); [congruence|reflexivity].
Qed.

(** The leftmost occurrence of [old] is replaced and the walk goes on
    after it. *)
Lemma replace_at (old new x y : str) :
  old <> [] ->
  (forall j, (j < length x)%nat -> startswith old (skipn j x ++ old ++ y) = false) ->
  replace old new (x ++ old ++ y) = x ++ new ++ replace old new y.
Proof.
  intros Hne Hx. unfold replace, re_sub.
  destruct (scan_copy unit (match_literal old) x (old ++ y)) with (prev := @None char)
    as [prev' ->].
  { intros j prev Hj. unfold match_literal. destruct old; [congruence|].
    now rewrite Hx. }
  destruct (scan_match unit (match_literal old) (old ++ y) prev' (length old) tt)
    as [prev'' ->].
  { unfold match_literal. destruct old; [congruence|]. now rewrite startswith_self. }
  { rewrite length_app. destruct old; [congruence|]. simpl. lia. }
  rewrite skipn_exact by reflexivity.
  rewrite fill_app, fill_chars. cbn [fill flat_map].
  now rewrite (scan_literal_prev old y O prev'' None).
Qed.

Lemma replace_once (o : char) (old new x y : str) :
  hd_error old = Some o -> ~ In o x -> ~ In o y ->
  replace old new (x ++ old ++ y) = x ++ new ++ y.
Proof.
  intros Ho Hx Hy. rewrite replace_at.
  - now rewrite (replace_without o).
  - destruct old; discriminate.
  - intros j Hj. destruct (skipn j x) as [|c t] eqn:E.
    + apply (f_equal (@length _)) in E. rewrite length_skipn in E. simpl in E. lia.
    + apply (startswith_head o); auto. intros ->. apply Hx.
      apply (in_skipn o j). rewrite E. now left.
Qed.

(** ** Plain text *)

Lemma sparse_without (s : str) (o : char) :
  forallb sparse_char s = true -> sparse_char o = false -> ~ In o s.
Proof.
  intros H Ho Hin. rewrite forallb_forall in H. apply H in Hin. congruence.
Qed.

Lemma sparse_not_special (s : str) :
  forallb sparse_char s = true -> forallb (fun c => negb (is_special c)) s = true.
Proof.
  rewrite !forallb_forall. intros H c Hc. apply H in Hc.
  unfold sparse_char in Hc. now apply andb_true_iff in Hc as [Hc _].
Qed.

Lemma save_chars (s : str) (i : nat) : save_code_blocks (map inl s) i = (s, []).
Proof.
  induction s as [|c s IH]; simpl; [reflexivity|]. now rewrite IH.
Qed.

(** A text without backticks holds no fenced block. *)
Lemma extract_without_backticks (uni_alnum : char -> bool) (s : str) :
  ~ In (ch "`") s -> extract_code_blocks uni_alnum s = (s, []).
Proof.
  intros H. unfold extract_code_blocks.
  destruct (scan_copy_without str (match_fence_text uni_alnum) (ch "`")
              (starts_fence uni_alnum) s [] None H) as [prev' E].
  rewrite app_nil_r in E. rewrite E. cbn [scan]. rewrite app_nil_r. apply save_chars.
Qed.

Lemma find_sub_all (p s : str) :
  (forall j, startswith p (skipn j s) = false) -> find_sub p s = None.
Proof.
  induction s as [|c s IH]; intros H; cbn [find_sub].
  - pose proof (H O) as H0. cbn [skipn] in H0. now rewrite H0.
  - pose proof (H O) as H0. cbn [skipn] in H0. rewrite H0.
    rewrite IH; [reflexivity|]. intros j. apply (H (S j)).
Qed.

(** A text that does not contain [p] contains no text that begins
    with [p]. *)
Lemma contains_longer (p q s : str) :
  contains p s = false -> contains (p ++ q) s = false.
Proof.
  unfold contains. destruct (find_sub p s) eqn:E; [discriminate|]. intros _.
  rewrite find_sub_all; [reflexivity|].
  intros j. destruct (startswith (p ++ q) (skipn j s)) eqn:F; [|reflexivity].
  unfold startswith in F.
  destruct (strip_prefix (p ++ q) (skipn j s)) as [r|] eqn:G; [|discriminate].
  apply strip_prefix_app in G. pose proof (find_sub_none _ _ E j) as N.
  rewrite G, <- app_assoc, startswith_self in N. discriminate.
Qed.

(** The passes between the extraction of the code blocks and the line
    breaks leave a text of sparse characters without header token as
    it is. *)
Lemma inline_passes_sparse (t : str) :
  forallb sparse_char t = true -> contains (lit "___H") t = false ->
  let text := sub_header (lit "### ") (lit "___H3_START___") (lit "___H3_END___") t in
  let text := sub_header (lit "## ") (lit "___H2_START___") (lit "___H2_END___") text in
  let text := sub_header (lit "# ") (lit "___H1_START___") (lit "___H1_END___") text in
  let html := escape text in
  let html := replace (lit "___H3_END___") (lit "</h3>")
                (replace (lit "___H3_START___") (lit "<h3>") html) in
  let html := replace (lit "___H2_END___") (lit "</h2>")
                (replace (lit "___H2_START___") (lit "<h2>") html) in
  let html := replace (lit "___H1_END___") (lit "</h1>")
                (replace (lit "___H1_START___") (lit "<h1>") html) in
  let html := re_sub match_code_span (wrap_tag (lit "code")) html in
  let html := re_sub (match_emph (lit "**")) (wrap_tag (lit "strong")) html in
  re_sub (match_emph (lit "*")) (wrap_tag (lit "em")) html = t.
Proof.
  intros H Hh. cbv zeta.
  assert (Hno : forall o, sparse_char o = false -> ~ In o t)
    by (intros o; now apply sparse_without).
  assert (Hs : forall mark a b, hd_error mark = Some (ch "#") -> sub_header mark a b t = t).
  { intros [|o mark] a b E; [discriminate|]. inversion E; subst o.
    apply re_sub_without with (o := ch "#"); [apply starts_header|now apply Hno]. }
  rewrite !Hs by reflexivity.
  rewrite escape_plain by now apply sparse_not_special.
  repeat match goal with
         | |- context [replace (lit ?old) ?new t] =>
             rewrite (replace_absent (lit old) new t)
               by (apply (contains_longer (lit "___H") (skipn 4 (lit old)) t Hh))
         end.
  rewrite (re_sub_without _ match_code_span _ (ch "`") starts_code_span)
    by now apply Hno.
  rewrite (re_sub_without _ (match_emph (lit "**")) _ (ch "*") (starts_emph _ _))
    by now apply Hno.
  rewrite (re_sub_without _ (match_emph (lit "*")) _ (ch "*") (starts_emph _ _))
    by now apply Hno.
  reflexivity.
Qed.

(** X1.  A text in which none of the characters [<], [>], [&], the two
    quotes, the backtick, the asterisk and the hash occurs, and which
    does not contain the renderer's header token [___H], goes through
    the markdown renderer unchanged, except that every line break is
    preceded by [<br>]. *)
Theorem render_markdown_plain (uni_alnum : char -> bool) (text : str) :
  forallb sparse_char text = true ->
  contains (lit "___H") text = false ->
  render_markdown uni_alnum text = line_breaks text.
Proof.
  intros H Hh. unfold render_markdown. destruct text as [|c text]; [reflexivity|].
  set (t := c :: text) in *.
  rewrite extract_without_backticks by (now apply (sparse_without t)).
  pose proof (inline_passes_sparse t H Hh) as E. cbv zeta in E. rewrite E.
  rewrite replace_char. reflexivity.
Qed.

(** Two lines of prose with a name in snake case. *)
Lemma render_markdown_plain_witness :
  render_markdown Reference.alnum (text ["Run test_all, then report."; "Thanks!"])
  = lit "Run test_all, then report.<br>" ++ NL :: lit "Thanks!".
Proof.
  apply (render_markdown_plain Reference.alnum
           (text ["Run test_all, then report."; "Thanks!"])).
  - vm_compute. reflexivity.
  - vm_compute. reflexivity.
Defined.

(** ** The command line *)

Lemma startswith_long (p u r : str) :
  (length p <= length u)%nat -> startswith p (u ++ r) = startswith p u.
Proof.
  unfold startswith. revert u. induction p as [|a p IH]; intros u H; [reflexivity|].
  destruct u as [|b u]; simpl in *; [lia|].
  destruct (a =? b); [apply IH; lia|reflexivity].
Qed.

(** No occurrence of [.jsonl] begins in [stem] and ends in an extension
    appended to it. *)
Lemma jsonl_no_overlap (stem : str) (j : nat) :
  contains (lit ".jsonl") stem = false -> (j < length stem)%nat ->
  startswith (lit ".jsonl") (skipn j stem ++ lit ".jsonl" ++ []) = false.
Proof.
  unfold contains. destruct (find_sub (lit ".jsonl") stem) eqn:E; [discriminate|].
  intros _ Hj. pose proof (find_sub_none _ _ E j) as H.
  assert (Hu : skipn j stem <> []).
  { intros Hu. apply (f_equal (@length _)) in Hu. rewrite length_skipn in Hu.
    simpl in Hu. lia. }
  destruct (skipn j stem) as [|a [|b [|c [|d [|e [|f u]]]]]]; [congruence| | | | | |].
  6: { change (a :: b :: c :: d :: e :: f :: u) with ([a; b; c; d; e; f] ++ u) in *.
       rewrite <- app_assoc. rewrite startswith_long by (simpl; lia).
       rewrite startswith_long in H by (simpl; lia). exact H. }
  all: unfold startswith; cbn [lit list_ascii_of_string map app strip_prefix];
    repeat match goal with
           | |- context [N_of_ascii ?x =? ?y] =>
               is_var y; destruct (N.eqb_spec (N_of_ascii x) y); [subst|reflexivity]
           end; reflexivity.
Qed.



(** ** A fenced block in plain text *)

Lemma strip_prefix_self (p r : str) : strip_prefix p (p ++ r) = Some r.
Proof.
  induction p as [|a p IH]; simpl; [reflexivity|]. now rewrite N.eqb_refl.
Qed.

Lemma span_until (f : char -> bool) (a : str) (c : char) (r : str) :
  forallb f a = true -> f c = false -> span f (a ++ c :: r) = (a, c :: r).
Proof.
  intros Ha Hc. induction a as [|d a IH]; simpl in *.
  - now rewrite Hc.
  - apply andb_true_iff in Ha as [Hd Ha]. rewrite Hd, IH by auto. reflexivity.
Qed.

Lemma find_sub_after (o : char) (p code rest : str) :
  hd_error p = Some o -> ~ In o code ->
  find_sub p (code ++ p ++ rest) = Some (length code).
Proof.
  intros Hp Hc. induction code as [|c code IH]; cbn [app find_sub length].
  - pose proof (startswith_self p rest) as H.
    destruct (p ++ rest); cbn [find_sub]; now rewrite H.
  - rewrite (startswith_head o c p) by (auto; intros ->; apply Hc; now left).
    rewrite IH by (intros H; apply Hc; now right). reflexivity.
Qed.

Lemma firstn_exact (a b : str) : firstn (length a) (a ++ b) = a.
Proof.
  now rewrite firstn_app, firstn_all, Nat.sub_diag, firstn_O, app_nil_r.
Qed.

(** The pattern of a fenced block on a block whose code holds no
    backtick. *)
Lemma match_fence_block (uni_alnum : char -> bool) (language code rest : str) :
  forallb (is_word uni_alnum) language = true -> ~ In (ch "`") code ->
  match_fence uni_alnum (fence_mark ++ language ++ NL :: code ++ fence_mark ++ rest)
  = Some ((3 + length language + 1 + length code + 3)%nat,
          {| fence_lang := language; fence_code := code |}).
Proof.
  intros Hl Hc. unfold match_fence.
  rewrite strip_prefix_self, (span_until _ language NL) by auto.
  rewrite N.eqb_refl, (find_sub_after (ch "`")) by auto.
  now rewrite firstn_exact.
Qed.

Lemma save_chars_app (x : str) (l : list (char + str)) (i : nat) :
  save_code_blocks (map inl x ++ l) i
  = (x ++ fst (save_code_blocks l i), snd (save_code_blocks l i)).
Proof.
  induction x as [|c x IH]; simpl.
  - now destruct (save_code_blocks l i).
  - now rewrite IH.
Qed.

Lemma extract_fenced_block (uni_alnum : char -> bool) (before language code after : str) :
  ~ In (ch "`") before -> forallb (is_word uni_alnum) language = true ->
  ~ In (ch "`") code -> ~ In (ch "`") after ->
  let block := fence_mark ++ language ++ NL :: code ++ fence_mark in
  extract_code_blocks uni_alnum (before ++ block ++ NL :: after)
  = (before ++ placeholder 0 ++ NL :: after, [block]).
Proof.
  intros Hb Hl Hc Ha block. unfold extract_code_blocks.
  destruct (scan_copy_without str (match_fence_text uni_alnum) (ch "`")
              (starts_fence uni_alnum) before (block ++ NL :: after) None Hb) as [p1 ->].
  assert (Hm : match_fence_text uni_alnum p1 (block ++ NL :: after)
               = Some (length block, block)).
  { unfold match_fence_text, block. rewrite <- !app_assoc. cbn [app].
    rewrite <- !app_assoc.
    rewrite (match_fence_block uni_alnum language code (NL :: after)) by auto.
    f_equal. f_equal.
    - unfold fence_mark. rewrite !length_app. cbn [length]. rewrite length_app. simpl. lia.
    - replace (fence_mark ++ language ++ NL :: code ++ fence_mark ++ NL :: after)
        with ((fence_mark ++ language ++ NL :: code ++ fence_mark) ++ NL :: after)
        by (rewrite <- !app_assoc; cbn [app]; now rewrite <- !app_assoc).
      rewrite <- (firstn_exact (fence_mark ++ language ++ NL :: code ++ fence_mark)
                    (NL :: after)) at 2.
      f_equal. unfold fence_mark. rewrite !length_app. cbn [length].
      rewrite length_app. simpl. lia. }
  destruct (scan_match str (match_fence_text uni_alnum) _ p1 _ _ Hm) as [p2 ->].
  { unfold block, fence_mark. rewrite !length_app. simpl. lia. }
  rewrite skipn_exact by reflexivity.
  destruct (scan_copy_without str (match_fence_text uni_alnum) (ch "`")
              (starts_fence uni_alnum) (NL :: after) [] p2) as [p3 E].
  { intros [H|H]; [discriminate|auto]. }
  rewrite app_nil_r in E. rewrite E. cbn [scan]. rewrite app_nil_r.
  rewrite save_chars_app. cbn [save_code_blocks]. rewrite save_chars. reflexivity.
Qed.

(** [str.replace] copies a prefix in which no occurrence begins. *)
Lemma replace_skip (old new x y : str) :
  (forall j, (j < length x)%nat -> startswith old (skipn j x ++ y) = false) ->
  replace old new (x ++ y) = x ++ replace old new y.
Proof.
  intros Hx. unfold replace, re_sub.
  destruct (scan_copy unit (match_literal old) x y) with (prev := @None char)
    as [prev' ->].
  { intros j prev Hj. unfold match_literal. destruct old; [reflexivity|].
    now rewrite Hx. }
  rewrite fill_app, fill_chars. now rewrite (scan_literal_prev old y O prev' None).
Qed.

Lemma replace_skip_without (o : char) (old new x y : str) :
  hd_error old = Some o -> ~ In o x -> replace old new (x ++ y) = x ++ replace old new y.
Proof.
  intros Ho Hx. apply replace_skip. intros j Hj.
  destruct (skipn j x) as [|c t] eqn:E.
  - apply (f_equal (@length _)) in E. rewrite length_skipn in E. simpl in E. lia.
  - apply (startswith_head o); auto. intros ->. apply Hx.
    apply (in_skipn o j). rewrite E. now left.
Qed.

(** The placeholder of the first block and the line break after it
    hold no header token, whatever follows. *)
Lemma placeholder_no_header_token (old : str) (j : nat) (r : str) :
  In old (map lit ["___H3_START___"; "___H3_END___"; "___H2_START___"; "___H2_END___";
                   "___H1_START___"; "___H1_END___"]) ->
  (j < length (placeholder 0 ++ [NL]))%nat ->
  startswith old (skipn j (placeholder 0 ++ [NL]) ++ r) = false.
Proof.
  intros Hold Hj.
  do 19 (destruct j as [|j];
         [cbn in Hold; repeat (destruct Hold as [<-|Hold]; [reflexivity|]); destruct Hold|]).
  simpl in Hj. lia.
Qed.

Lemma line_breaks_app (x y : str) : line_breaks (x ++ y) = line_breaks x ++ line_breaks y.
Proof. apply flat_map_app. Qed.

Lemma line_breaks_without (o : char) (s : str) :
  ~ In o s -> ~ In o (lit "<br>" ++ [NL]) -> ~ In o (line_breaks s).
Proof.
  intros Hs Hb H. unfold line_breaks in H. apply in_flat_map in H as (c & Hc & H).
  destruct (c =? NL); [auto|]. destruct H as [->|[]]. auto.
Qed.

Lemma plain_sparse (s : str) : forallb plain_char s = true -> forallb sparse_char s = true.
Proof.
  rewrite !forallb_forall. intros H c Hc. apply H in Hc.
  unfold plain_char in Hc. now apply andb_true_iff in Hc as [Hc _].
Qed.

Lemma plain_without (s : str) (o : char) :
  forallb plain_char s = true -> plain_char o = false -> ~ In o s.
Proof.
  intros H Ho Hin. rewrite forallb_forall in H. apply H in Hin. congruence.
Qed.

(** X3.  A fenced code block between two plain texts, closed by its
    fence and a line break, is rendered as a preformatted code element
    that carries the language as its class and the code with only its
    HTML-special characters rewritten: asterisks, hashes and underscores
    of the code are not read as markdown.  The code holds no backtick,
    the texts around it none of the characters of markdown or HTML. *)
Theorem render_markdown_fenced_block
    (uni_alnum : char -> bool) (before language code after : str) :
  forallb plain_char before = true ->
  forallb (is_word uni_alnum) language = true ->
  ~ In (ch "`") code ->
  forallb plain_char after = true ->
  render_markdown uni_alnum
    (before ++ fence_mark ++ language ++ NL :: code ++ fence_mark ++ NL :: after)
  = line_breaks before
      ++ lit "<pre><code class=" ++ quoted (lit "language-" ++ language) ++ lit ">"
      ++ escape code ++ lit "</code></pre>"
      ++ line_breaks after.
Proof.
  intros Hb Hl Hc Ha.
  set (block := fence_mark ++ language ++ NL :: code ++ fence_mark).
  replace (before ++ fence_mark ++ language ++ NL :: code ++ fence_mark ++ NL :: after)
    with (before ++ block ++ NL :: after)
    by (unfold block; rewrite <- !app_assoc; cbn [app]; now rewrite <- !app_assoc).
  assert (Hne : before ++ block ++ NL :: after <> []).
  { intros E. apply (f_equal (@length _)) in E. unfold block, fence_mark in E.
    rewrite !length_app in E. simpl in E. lia. }
  unfold render_markdown.
  destruct (before ++ block ++ NL :: after) as [|c0 t0] eqn:Et; [congruence|].
  rewrite <- Et. clear Et Hne c0 t0.
  pose proof (extract_fenced_block uni_alnum before language code after) as E.
  cbv zeta in E. fold block in E. rewrite E by auto using plain_without. clear E.
  set (t := before ++ placeholder 0 ++ NL :: after).
  assert (Hs : forallb sparse_char t = true).
  { unfold t. rewrite !forallb_app. cbn [forallb].
    rewrite (plain_sparse before), (plain_sparse after) by auto. reflexivity. }
  assert (Hno : forall o, sparse_char o = false -> ~ In o t)
    by (intros o; now apply sparse_without).
  assert (Hh : forall mark a b, hd_error mark = Some (ch "#") -> sub_header mark a b t = t).
  { intros [|o mark] a b E; [discriminate|]. inversion E; subst o.
    apply re_sub_without with (o := ch "#"); [apply starts_header|now apply Hno]. }
  rewrite !Hh by reflexivity.
  rewrite escape_plain by now apply sparse_not_special.
  assert (Hr : forall old new,
             In old (map lit ["___H3_START___"; "___H3_END___"; "___H2_START___";
                              "___H2_END___"; "___H1_START___"; "___H1_END___"]) ->
             replace old new t = t).
  { intros old new Hold.
    assert (Ho : hd_error old = Some (ch "_"))
      by (cbn in Hold; repeat (destruct Hold as [<-|Hold]; [reflexivity|]); destruct Hold).
    unfold t.
    rewrite (replace_skip_without (ch "_")) by auto using plain_without.
    change (placeholder 0 ++ NL :: after) with ((placeholder 0 ++ [NL]) ++ after).
    rewrite replace_skip by (intros j Hj; now apply placeholder_no_header_token).
    rewrite (replace_without (ch "_")) by auto using plain_without.
    reflexivity. }
  repeat match goal with
         | |- context [replace (lit ?old) ?new t] =>
             rewrite (Hr (lit old) new) by (cbn; tauto)
         end.
  rewrite (re_sub_without _ match_code_span _ (ch "`") starts_code_span)
    by now apply Hno.
  rewrite (re_sub_without _ (match_emph (lit "**")) _ (ch "*") (starts_emph _ _))
    by now apply Hno.
  rewrite (re_sub_without _ (match_emph (lit "*")) _ (ch "*") (starts_emph _ _))
    by now apply Hno.
  rewrite replace_char. fold (line_breaks t). unfold t.
  rewrite line_breaks_app.
  change (placeholder 0 ++ NL :: after) with ((placeholder 0 ++ [NL]) ++ after).
  rewrite line_breaks_app.
  change (line_breaks (placeholder 0 ++ [NL])) with (placeholder 0 ++ lit "<br>" ++ [NL]).
  cbn [restore_code_blocks]. unfold block.
  rewrite <- (app_nil_r (fence_mark ++ language ++ NL :: code ++ fence_mark)).
  rewrite <- !app_assoc. cbn [app]. rewrite <- !app_assoc.
  rewrite (match_fence_block uni_alnum language code []) by auto.
  change (placeholder 0 ++ lit "<br>" ++ NL :: line_breaks after)
    with ((placeholder 0 ++ lit "<br>" ++ [NL]) ++ line_breaks after).
  rewrite (replace_once (ch "_")).
  - unfold restored. cbn [fence_lang fence_code]. now rewrite <- !app_assoc.
  - reflexivity.
  - apply line_breaks_without; [now apply plain_without|].
    vm_compute. intuition discriminate.
  - apply line_breaks_without; [now apply plain_without|].
    vm_compute. intuition discriminate.
Qed.

(** A command in a shell block between two sentences. *)
Lemma render_markdown_fenced_block_witness :
  render_markdown Reference.alnum
    (lit "Run:" ++ fence_mark ++ lit "sh" ++ NL :: lit "ls *.py > out" ++ fence_mark
       ++ NL :: lit "Done.")
  = lit "Run:" ++ lit "<pre><code class=" ++ quoted (lit "language-sh") ++ lit ">"
      ++ lit "ls *.py &gt; out" ++ lit "</code></pre>" ++ lit "Done.".
Proof.
  apply (render_markdown_fenced_block Reference.alnum
           (lit "Run:") (lit "sh") (lit "ls *.py > out") (lit "Done.")).
  - vm_compute. reflexivity.
  - vm_compute. reflexivity.
  - vm_compute. intuition discriminate.
  - vm_compute. reflexivity.
Defined.

(** ** Loops *)

Lemma for_each_app {A S : Type} (l r : list A) (body : S -> A -> result S) (acc : S) :
  for_each (l ++ r) body acc = (acc' <- for_each l body acc ;; for_each r body acc').
Proof.
  revert acc. induction l as [|x l IH]; intros acc; [reflexivity|].
  cbn [app for_each]. destruct (body acc x); cbn [bind]; auto.
Qed.

(** ** Loading the session log *)

Lemma load_messages_loop (lines : list (option json)) :
  (forall data, In (Some data) lines -> is_dict data = true) ->
  forall acc,
    for_each lines
      (fun messages line =>
         match line with
         | Some data =>
             type <- get data (lit "type") JNull ;;
             if recognized_type type then Ok (messages ++ [data]) else Ok messages
         | None => Ok messages
         end) acc
    = Ok (acc ++ filter kept (parsed lines)).
Proof.
  induction lines as [|line lines IH]; intros H acc.
  - simpl. now rewrite app_nil_r.
  - cbn [for_each]. destruct line as [data|].
    + pose proof (H data (or_introl eq_refl)) as Hd.
      destruct data as [| | | | | |d]; try discriminate.
      cbn [get bind parsed flat_map app filter kept]. unfold field.
      destruct (recognized_type match assoc (lit "type") d with Some x => x | None => JNull end);
        cbn [bind]; rewrite IH by (intros; apply H; now right); auto.
      now rewrite <- app_assoc.
    + cbn [bind]. rewrite IH by (intros; apply H; now right). reflexivity.
Qed.

(** X4.  When every line that parses as JSON holds an object, loading
    keeps, in the order of the file, exactly the objects whose type is
    [user], [assistant] or [system]; lines that do not parse and
    objects of another type (or without a type) are passed over. *)
Theorem load_messages_objects (lines : list (option json)) :
  (forall data, In (Some data) lines -> is_dict data = true) ->
  load_messages lines = Ok (filter kept (parsed lines)).
Proof.
  intros H. unfold load_messages. now rewrite load_messages_loop.
Qed.

(** A summary record and a line that is not JSON are passed over. *)
Lemma load_messages_objects_witness :
  load_messages [Some (dict_of [("type", "summary")]); None;
                 Some (dict_of [("type", "user")]); Some (dict_of [("type", "system")])]
  = Ok [dict_of [("type", "user")]; dict_of [("type", "system")]].
Proof.
  apply (load_messages_objects
           [Some (dict_of [("type", "summary")]); None;
            Some (dict_of [("type", "user")]); Some (dict_of [("type", "system")])]).
  intros data [H|[H|[H|[H|[]]]]]; inversion H; reflexivity.
Defined.

(** X5.  A line that parses as JSON to anything but an object (a
    number, a string, a list, [null]) stops the loading with an
    [AttributeError]: only a line that fails to parse is skipped. *)
Theorem load_messages_not_object
    (before after : list (option json)) (data : json) :
  (forall d, In (Some d) before -> is_dict d = true) ->
  is_dict data = false ->
  load_messages (before ++ Some data :: after) = Err AttributeError.
Proof.
  intros Hb Hd. unfold load_messages.
  rewrite for_each_app, load_messages_loop by auto. cbn [bind for_each].
  destruct data; try discriminate; reflexivity.
Qed.

(** A line holding the number 42 after a user record. *)
Lemma load_messages_not_object_witness :
  load_messages [Some (dict_of [("type", "user")]); Some (JInt 42);
                 Some (dict_of [("type", "assistant")])]
  = Err AttributeError.
Proof.
  apply (load_messages_not_object [Some (dict_of [("type", "user")])]
           [Some (dict_of [("type", "assistant")])] (JInt 42)).
  - intros d [H|[]]; inversion H; reflexivity.
  - reflexivity.
Defined.

(** ** Timestamps *)

(** The body of the loop that collects the timestamped records. *)
Lemma collect_step (fromisoformat : str -> option datetime) (acc : list stamped) (msg : json) :
  is_dict msg = true ->
  (timestamp_str <- get msg (lit "timestamp") JNull ;;
   if truthy timestamp_str then
     match parse_timestamp fromisoformat timestamp_str with
     | Some t =>
         type <- get msg (lit "type") JNull ;;
         Ok (acc ++ [{| st_type := type; st_time := t |}])
     | None => Ok acc
     end
   else Ok acc)
  = Ok (acc ++ stamp_of fromisoformat msg).
Proof.
  destruct msg as [| | | | | |d]; try discriminate. intros _.
  cbn [get bind stamp_of]. unfold field.
  destruct (truthy match assoc (lit "timestamp") d with Some x => x | None => JNull end);
    [|now rewrite app_nil_r].
  destruct (parse_timestamp fromisoformat
              match assoc (lit "timestamp") d with Some x => x | None => JNull end);
    [reflexivity|now rewrite app_nil_r].
Qed.

Lemma collect_loop (fromisoformat : str -> option datetime) (messages : list json) :
  (forall msg, In msg messages -> is_dict msg = true) ->
  forall acc,
    for_each messages
      (fun acc msg =>
         timestamp_str <- get msg (lit "timestamp") JNull ;;
         if truthy timestamp_str then
           match parse_timestamp fromisoformat timestamp_str with
           | Some t =>
               type <- get msg (lit "type") JNull ;;
               Ok (acc ++ [{| st_type := type; st_time := t |}])
           | None => Ok acc
           end
         else Ok acc) acc
    = Ok (acc ++ flat_map (stamp_of fromisoformat) messages).
Proof.
  induction messages as [|msg messages IH]; intros H acc.
  - simpl. now rewrite app_nil_r.
  - cbn [for_each flat_map]. rewrite collect_step by (apply H; now left).
    cbn [bind]. rewrite IH by (intros; apply H; now right). now rewrite <- app_assoc.
Qed.

(** The timestamped records of a log of objects. *)
Lemma collect_stamped_objects (fromisoformat : str -> option datetime) (messages : list json) :
  (forall msg, In msg messages -> is_dict msg = true) ->
  collect_stamped fromisoformat messages = Ok (flat_map (stamp_of fromisoformat) messages).
Proof.
  intros H. unfold collect_stamped. now rewrite collect_loop.
Qed.

(** X6.  A log in which at most one record carries a timestamp that
    [fromisoformat] accepts has no duration at all: total, working and
    waiting time are zero, whatever the records are. *)
Theorem calculate_session_timing_few_stamps
    (fromisoformat : str -> option datetime) (messages : list json) :
  (forall msg, In msg messages -> is_dict msg = true) ->
  (length (flat_map (stamp_of fromisoformat) messages) <= 1)%nat ->
  calculate_session_timing fromisoformat messages = Ok zero_timing.
Proof.
  intros Hd Hl. unfold calculate_session_timing.
  destruct messages as [|m messages]; [reflexivity|].
  rewrite collect_stamped_objects by auto. cbn [bind].
  destruct (flat_map (stamp_of fromisoformat) (m :: messages)) as [|a [|b l]];
    try reflexivity.
  simpl in Hl. lia.
Qed.

(** One record with a timestamp, one with a timestamp that is no date
    and one without. *)
Lemma calculate_session_timing_few_stamps_witness :
  calculate_session_timing Reference.fromisoformat
    [timed_record "user" "2025-01-01T10:00:00Z"; timed_record "assistant" "yesterday";
     dict_of [("type", "user")]]
  = Ok zero_timing.
Proof.
  apply (calculate_session_timing_few_stamps Reference.fromisoformat
           [timed_record "user" "2025-01-01T10:00:00Z"; timed_record "assistant" "yesterday";
            dict_of [("type", "user")]]).
  - intros msg [H|[H|[H|[]]]]; subst; reflexivity.
  - vm_compute. lia.
Defined.

(** X7.  A record without a usable timestamp has no part in the
    timing: the summary of a log is the summary of the log without that
    record. *)
Theorem calculate_session_timing_skips_unstamped
    (fromisoformat : str -> option datetime) (before after : list json) (msg : json) :
  is_dict msg = true ->
  stamp_of fromisoformat msg = [] ->
  calculate_session_timing fromisoformat (before ++ msg :: after)
  = calculate_session_timing fromisoformat (before ++ after).
Proof.
  intros Hd Hs.
  assert (E : collect_stamped fromisoformat (before ++ msg :: after)
              = collect_stamped fromisoformat (before ++ after)).
  { unfold collect_stamped. rewrite !for_each_app.
    destruct (for_each before _ []) as [acc|e]; cbn [bind]; auto.
    cbn [for_each]. rewrite collect_step, Hs, app_nil_r by auto. reflexivity. }
  unfold calculate_session_timing. rewrite <- E.
  destruct (before ++ msg :: after) as [|x l] eqn:El.
  { apply (f_equal (@length _)) in El. rewrite length_app in El. simpl in El. lia. }
  destruct (before ++ after) as [|y l'] eqn:El'; [|reflexivity].
  apply app_eq_nil in El' as [-> ->]. cbn [app] in El. inversion El; subst.
  unfold collect_stamped. cbn [for_each]. rewrite collect_step, Hs by auto. reflexivity.
Qed.

(** A system record without timestamp between two timed records. *)
Lemma calculate_session_timing_skips_unstamped_witness :
  calculate_session_timing Reference.fromisoformat
    ([timed_record "user" "2025-01-01T10:00:00Z"] ++ dict_of [("type", "system")]
       :: [timed_record "assistant" "2025-01-01T10:00:42Z"])
  = calculate_session_timing Reference.fromisoformat
      ([timed_record "user" "2025-01-01T10:00:00Z"]
         ++ [timed_record "assistant" "2025-01-01T10:00:42Z"]).
Proof.
  apply (calculate_session_timing_skips_unstamped Reference.fromisoformat
           [timed_record "user" "2025-01-01T10:00:00Z"]
           [timed_record "assistant" "2025-01-01T10:00:42Z"]
           (dict_of [("type", "system")])).
  - reflexivity.
  - reflexivity.
Defined.

(** The loop stops at the first pair of which one timestamp carries an
    offset and the other does not. *)
Lemma timing_loop_mixed (rest : list stamped) :
  forall (prev : stamped) (working waiting : Z),
    forallb (fun b => Bool.eqb (dt_aware (st_time b)) (dt_aware (st_time prev))) rest = false ->
    timing_loop prev rest working waiting = Err TypeError.
Proof.
  induction rest as [|curr rest IH]; intros prev working waiting H; [discriminate|].
  cbn [forallb] in H. cbn [timing_loop]. unfold dt_sub.
  destruct (Bool.eqb (dt_aware (st_time curr)) (dt_aware (st_time prev))) eqn:E;
    [|reflexivity].
  cbn [andb bind] in *. apply Bool.eqb_prop in E.
  assert (H' : forallb (fun b => Bool.eqb (dt_aware (st_time b)) (dt_aware (st_time curr)))
                 rest = false) by (now rewrite E).
  destruct (is_str (lit "user") (st_type prev) && is_str (lit "assistant") (st_type curr));
    [now apply IH|].
  destruct (is_str (lit "assistant") (st_type prev) && is_str (lit "user") (st_type curr));
    now apply IH.
Qed.



(** The summary of two or more timestamped records of one kind. *)
Lemma calculate_session_timing_sums
    (fromisoformat : str -> option datetime) (messages : list json)
    (first second : stamped) (rest : list stamped) :
  collect_stamped fromisoformat messages = Ok (first :: second :: rest) ->
  same_awareness (first :: second :: rest) = true ->
  calculate_session_timing fromisoformat messages
  = Ok {| total_duration := gap first (last (second :: rest) first);
          claude_working_time := gap_sum user_then_assistant (first :: second :: rest);
          waiting_for_user_time := gap_sum assistant_then_user (first :: second :: rest) |}.
Proof.
  intros Hc Hs. unfold calculate_session_timing.
  destruct messages as [|m messages]; [discriminate|].
  rewrite Hc. cbn [bind].
  assert (Hl : dt_aware (st_time (last (second :: rest) first)) = dt_aware (st_time first)).
  { cbn [same_awareness] in Hs. rewrite forallb_forall in Hs.
    apply Bool.eqb_prop, Hs.
    destruct (exists_last (l := second :: rest)) as (l' & x & E); [discriminate|].
    rewrite E, last_last. apply in_app_iff. right. now left. }
  unfold dt_sub at 1. rewrite Hl, Bool.eqb_reflx. cbn [bind].
  rewrite timing_loop_gap_sum by auto. reflexivity.
Qed.

Lemma last_cons {A : Type} (b : A) (l : list A) (d : A) : last (b :: l) d = last l b.
Proof.
  revert b d. induction l as [|c l IH]; intros b d; [reflexivity|].
  change (last (b :: c :: l) d) with (last (c :: l) d). now rewrite (IH c d), (IH c b).
Qed.

(** In chronological order neither sum of gaps is negative, and the two
    together do not exceed the time from the first record to the last. *)
Lemma gap_sums_chronological (rest : list stamped) :
  forall first,
    chronological (first :: rest) = true ->
    (0 <= gap_sum user_then_assistant (first :: rest)
     /\ 0 <= gap_sum assistant_then_user (first :: rest)
     /\ gap_sum user_then_assistant (first :: rest)
          + gap_sum assistant_then_user (first :: rest)
        <= gap first (last rest first))%Z.
Proof.
  induction rest as [|b rest IH]; intros first H.
  - cbn [gap_sum last]. unfold gap. lia.
  - cbn [chronological] in H. apply andb_true_iff in H as [Hab H].
    apply Z.leb_le in Hab. destruct (IH b H) as (H1 & H2 & H3).
    rewrite !gap_sum_cons, last_cons.
    pose proof (user_assistant_exclusive first b) as Hx.
    unfold gap in *.
    destruct (user_then_assistant first b); [rewrite Hx by auto; lia|].
    destruct (assistant_then_user first b); lia.
Qed.

(** Where the records alternate between user and assistant the two
    sums make up the time from the first record to the last. *)
Lemma gap_sums_alternating (rest : list stamped) :
  forall first,
    alternating (first :: rest) = true ->
    (gap_sum user_then_assistant (first :: rest)
       + gap_sum assistant_then_user (first :: rest)
     = gap first (last rest first))%Z.
Proof.
  induction rest as [|b rest IH]; intros first H.
  - cbn [gap_sum last]. unfold gap. lia.
  - cbn [alternating] in H. apply andb_true_iff in H as [Hab H].
    pose proof (IH b H) as E. rewrite !gap_sum_cons, last_cons.
    pose proof (user_assistant_exclusive first b) as Hx.
    unfold gap in *.
    destruct (user_then_assistant first b); [rewrite Hx by auto; lia|].
    destruct (assistant_then_user first b); [lia|discriminate].
Qed.



(** ** Lines *)

Lemma split_on_nonempty (c : char) (s : str) : split_on c s <> [].
Proof.
  destruct s as [|d s]; simpl; [discriminate|].
  destruct (d =? c); [discriminate|]. destruct (split_on c s); discriminate.
Qed.

Lemma join_cons_head (sep : str) (c : char) (l : str) (ls : list str) :
  join sep ((c :: l) :: ls) = c :: join sep (l :: ls).
Proof. destruct ls; reflexivity. Qed.

Lemma join_cons (sep p : str) (ls : list str) :
  ls <> [] -> join sep (p :: ls) = p ++ sep ++ join sep ls.
Proof. destruct ls; [congruence|reflexivity]. Qed.

(** Splitting at a character and joining with it gives the text back. *)
Lemma join_split (c : char) (s : str) : join [c] (split_on c s) = s.
Proof.
  induction s as [|d s IH]; [reflexivity|]. cbn [split_on].
  destruct (N.eqb_spec d c).
  - subst d. rewrite join_cons by apply split_on_nonempty. now rewrite IH.
  - pose proof (split_on_nonempty c s) as Hne.
    destruct (split_on c s) as [|l ls]; [congruence|].
    rewrite join_cons_head. now rewrite IH.
Qed.

Lemma join_app (sep : str) (l r : list str) :
  l <> [] -> r <> [] -> join sep (l ++ r) = join sep l ++ sep ++ join sep r.
Proof.
  intros Hl Hr. induction l as [|p l IH]; [congruence|].
  destruct l as [|q l].
  - cbn [app]. now rewrite join_cons.
  - cbn [app] in *. rewrite (join_cons sep p) by discriminate.
    rewrite IH by discriminate. rewrite (join_cons sep p) by discriminate.
    now rewrite <- !app_assoc.
Qed.

Lemma split_on_length (s : str) : length (split_on NL s) = S (line_breaks_count s).
Proof.
  unfold line_breaks_count. induction s as [|d s IH]; [reflexivity|].
  cbn [split_on count_occ].
  destruct (N.eqb_spec d NL) as [->|Hd].
  - destruct (N.eq_dec NL NL); [|congruence]. simpl. now rewrite IH.
  - destruct (N.eq_dec d NL); [congruence|].
    pose proof (split_on_nonempty NL s) as Hne.
    destruct (split_on NL s) as [|l ls]; [congruence|]. exact IH.
Qed.

Lemma split_on_lines (s l : str) : In l (split_on NL s) -> line_breaks_count l = O.
Proof.
  unfold line_breaks_count. revert l. induction s as [|d s IH]; intros l.
  - intros [<-|[]]. reflexivity.
  - cbn [split_on]. destruct (N.eqb_spec d NL) as [->|Hd].
    + intros [<-|H]; [reflexivity|auto].
    + pose proof (split_on_nonempty NL s) as Hne.
      destruct (split_on NL s) as [|l0 ls]; [congruence|].
      intros [<-|H].
      * cbn [count_occ]. destruct (N.eq_dec d NL); [congruence|].
        apply IH. now left.
      * apply IH. now right.
Qed.

Lemma line_breaks_count_app (x y : str) :
  line_breaks_count (x ++ y) = (line_breaks_count x + line_breaks_count y)%nat.
Proof. apply count_occ_app. Qed.

(** Lines without line break, joined by line breaks. *)
Lemma join_lines_count (ls : list str) :
  (forall l, In l ls -> line_breaks_count l = O) ->
  line_breaks_count (join [NL] ls) = Nat.pred (length ls).
Proof.
  induction ls as [|p ls IH]; intros H; [reflexivity|].
  destruct ls as [|q ls].
  - cbn [join length Nat.pred]. apply H. now left.
  - rewrite join_cons by discriminate. rewrite !line_breaks_count_app.
    rewrite (H p) by now left. rewrite IH by (intros; apply H; now right).
    reflexivity.
Qed.

Lemma firstn_lines (n : nat) (s l : str) :
  In l (firstn n (split_on NL s)) -> line_breaks_count l = O.
Proof.
  intros H. apply (split_on_lines s). rewrite <- (firstn_skipn n (split_on NL s)).
  apply in_app_iff. now left.
Qed.

Lemma skipn_lines (n : nat) (s l : str) :
  In l (skipn n (split_on NL s)) -> line_breaks_count l = O.
Proof.
  intros H. apply (split_on_lines s). eapply in_skipn; eauto.
Qed.

(** The text is its first [n] lines, a line break and the other lines. *)
Lemma split_at_line (n : nat) (s : str) :
  (0 < n < length (split_on NL s))%nat ->
  s = join [NL] (firstn n (split_on NL s)) ++ NL :: join [NL] (skipn n (split_on NL s)).
Proof.
  intros Hn. rewrite <- (join_split NL s) at 1.
  rewrite <- (firstn_skipn n (split_on NL s)) at 1.
  rewrite join_app; [reflexivity| |].
  - intros E. apply (f_equal (@length _)) in E. rewrite length_firstn in E. simpl in E. lia.
  - intros E. apply (f_equal (@length _)) in E. rewrite length_skipn in E. simpl in E. lia.
Qed.

(** ** The content of a tool result *)

(** X10.  For the shell and the search tool the content is collapsed
    exactly when it has three line breaks or more, a line break at the
    end included.  The preview is then the content before its third line
    break, and the number of lines that the hint reports is the number
    of line breaks plus one. *)
Theorem render_content_high_volume (tool content : str) :
  tool = lit "Bash" \/ tool = lit "Grep" ->
  ((line_breaks_count content <= 2)%nat ->
   render_content (JStr tool) content = plain_result content)
  /\ ((3 <= line_breaks_count content)%nat ->
      exists preview rest,
        content = preview ++ NL :: rest
        /\ line_breaks_count preview = 2%nat
        /\ render_content (JStr tool) content
           = collapsed_result "output" preview content (S (line_breaks_count content)) 16).
Proof.
  intros Ht.
  assert (Hv : is_str (lit "Bash") (JStr tool) || is_str (lit "Grep") (JStr tool) = true)
    by (destruct Ht as [-> | ->]; reflexivity).
  unfold render_content. rewrite Hv. cbn [andb].
  pose proof (split_on_length content) as Hl. split; intros H.
  - replace (3 <? length (split_on NL content))%nat with false
      by (symmetry; apply Nat.ltb_ge; lia).
    replace (20 <? length (split_on NL content))%nat with false
      by (symmetry; apply Nat.ltb_ge; lia).
    now rewrite andb_false_r.
  - replace (3 <? length (split_on NL content))%nat with true
      by (symmetry; apply Nat.ltb_lt; lia).
    exists (join [NL] (firstn 3 (split_on NL content))),
           (join [NL] (skipn 3 (split_on NL content))).
    split; [apply split_at_line; lia|]. split; [|now rewrite Hl].
    rewrite join_lines_count by apply firstn_lines.
    rewrite length_firstn. lia.
Qed.

(** Three lines of output, each ended by a line break. *)
Lemma render_content_high_volume_witness :
  exists preview rest,
    text ["a"; "b"; "c"; ""] = preview ++ NL :: rest
    /\ line_breaks_count preview = 2%nat
    /\ render_content (JStr (lit "Bash")) (text ["a"; "b"; "c"; ""])
       = collapsed_result "output" preview (text ["a"; "b"; "c"; ""])
           (S (line_breaks_count (text ["a"; "b"; "c"; ""]))) 16.
Proof.
  apply (proj2 (render_content_high_volume (lit "Bash") (text ["a"; "b"; "c"; ""])
                  (or_introl eq_refl))).
  vm_compute. lia.
Defined.

Lemma contains_char (c : char) (s : str) : In c s -> contains [c] s = true.
Proof.
  unfold contains. induction s as [|d s IH]; intros H; [destruct H|].
  cbn [find_sub]. unfold startswith at 1. cbn [strip_prefix].
  destruct (N.eqb_spec c d); [reflexivity|].
  destruct H as [H|H]; [congruence|]. apply IH in H.
  now destruct (find_sub [c] s).
Qed.

Lemma line_break_in (s : str) : (0 < line_breaks_count s)%nat -> In NL s.
Proof.
  unfold line_breaks_count. intros H. now apply (count_occ_In N.eq_dec).
Qed.

(** X11.  For a tool other than the shell and the search tool, a
    content without the arrow of numbered listings is rendered in full
    whatever its length, and so is a content of at most 19 line breaks.
    A content with the arrow and 20 line breaks or more is collapsed:
    the preview holds the content before its tenth line break, the line
    [... (content hidden) ...], and the content after its fifth line
    break from the end. *)
Theorem render_content_file (tool_name : json) (content : str) :
  is_str (lit "Bash") tool_name || is_str (lit "Grep") tool_name = false ->
  (contains [ARROW] content = false \/ (line_breaks_count content <= 19)%nat ->
   render_content tool_name content = plain_result content)
  /\ (contains [ARROW] content = true -> (20 <= line_breaks_count content)%nat ->
      exists head middle tail,
        content = head ++ NL :: middle ++ NL :: tail
        /\ line_breaks_count head = 9%nat
        /\ line_breaks_count tail = 4%nat
        /\ render_content tool_name content
           = collapsed_result "content"
               (head ++ NL :: lit "... (content hidden) ..." ++ NL :: tail)
               content (S (line_breaks_count content)) 12).
Proof.
  intros Ht. unfold render_content. rewrite Ht. cbn [andb].
  pose proof (split_on_length content) as Hl. split.
  - intros [H|H].
    + now rewrite H.
    + replace (20 <? length (split_on NL content))%nat with false
        by (symmetry; apply Nat.ltb_ge; lia).
      now rewrite andb_false_r.
  - intros Ha H. rewrite Ha.
    rewrite contains_char by (apply line_break_in; lia).
    replace (20 <? length (split_on NL content))%nat with true
      by (symmetry; apply Nat.ltb_lt; lia).
    cbn [andb].
    set (lines := split_on NL content) in *.
    set (n := length lines) in *.
    exists (join [NL] (firstn 10 lines)),
           (join [NL] (firstn (n - 15) (skipn 10 lines))),
           (join [NL] (skipn (n - 5) lines)).
    assert (E5 : skipn (n - 5) lines = skipn (n - 15) (skipn 10 lines))
      by (rewrite skipn_skipn; f_equal; lia).
    assert (Hne : forall k (l : list str), (k < length l)%nat -> skipn k l <> []).
    { intros k l Hk E. apply (f_equal (@length _)) in E. rewrite length_skipn in E.
      simpl in E. lia. }
    assert (Hnf : forall k (l : list str), (0 < k)%nat -> l <> [] -> firstn k l <> []).
    { intros [|k] [|x l] Hk Hnl; try lia; try congruence. discriminate. }
    repeat split.
    + rewrite (split_at_line 10 content) at 1 by (fold lines; lia). fold lines.
      f_equal. f_equal.
      rewrite <- (firstn_skipn (n - 15) (skipn 10 lines)) at 1.
      rewrite join_app, E5; [reflexivity| |].
      * apply Hnf; [lia|]. apply Hne. fold n. lia.
      * apply Hne. rewrite length_skipn. fold n. lia.
    + rewrite join_lines_count by apply firstn_lines.
      rewrite length_firstn. fold lines n. lia.
    + rewrite join_lines_count by apply skipn_lines.
      rewrite length_skipn. fold lines n. lia.
    + rewrite Hl. f_equal.
      rewrite join_app; [|apply Hnf; [lia|apply split_on_nonempty]|discriminate].
      cbn [app]. rewrite (join_cons [NL] (lit "... (content hidden) ...")) by (apply Hne; fold n; lia).
      rewrite <- ?app_assoc. reflexivity.
Qed.

(** A listing of 21 lines read from a file. *)
Lemma render_content_file_witness :
  exists head middle tail,
    listing 21 = head ++ NL :: middle ++ NL :: tail
    /\ line_breaks_count head = 9%nat
    /\ line_breaks_count tail = 4%nat
    /\ render_content (JStr (lit "Read")) (listing 21)
       = collapsed_result "content"
           (head ++ NL :: lit "... (content hidden) ..." ++ NL :: tail)
           (listing 21) (S (line_breaks_count (listing 21))) 12.
Proof.
  apply (proj2 (render_content_file (JStr (lit "Read")) (listing 21) eq_refl)).
  - vm_compute. reflexivity.
  - vm_compute. lia.
Defined.

Lemma text_parts_loop (content : list json) :
  forall acc,
    for_each content
      (fun parts item =>
         match item with
         | JDict _ =>
             type <- get item (lit "type") JNull ;;
             if is_str (lit "text") type then
               text <- get item (lit "text") (JStr []) ;;
               Ok (parts ++ [text])
             else Ok parts
         | JStr _ => Ok (parts ++ [item])
         | _ => Ok parts
         end) acc
    = Ok (acc ++ flat_map item_texts content).
Proof.
  induction content as [|item content IH]; intros acc.
  - simpl. now rewrite app_nil_r.
  - cbn [for_each flat_map].
    destruct item as [| | | |s|l|d]; cbn [item_texts bind get app]; rewrite ?IH; auto;
      try (now rewrite <- app_assoc).
    unfold field.
    destruct (is_str (lit "text")
                match assoc (lit "type") d with Some x => x | None => JNull end);
      cbn [bind]; rewrite IH; [now rewrite <- app_assoc|reflexivity].
Qed.

Lemma join_values_strings (sep : str) (ss : list str) :
  join_values sep (map JStr ss) = Ok (join sep ss).
Proof.
  unfold join_values.
  assert (H : forall acc,
             for_each (map JStr ss)
               (fun acc v => match v with JStr s => Ok (acc ++ [s]) | _ => Err TypeError end)
               acc = Ok (acc ++ ss)).
  { induction ss as [|s ss IH]; intros acc; simpl; [now rewrite app_nil_r|].
    rewrite IH. now rewrite <- app_assoc. }
  now rewrite H.
Qed.

(** X12.  A content that is a list is rendered as the string made of
    its text items joined by line breaks: the items that are strings
    and the [text] of the objects of type [text], in order; every other
    item (an image, a number) is dropped. *)
Theorem render_tool_result_list_content
    (uni_decimal : char -> option Z) (unified_diff : list str -> list str -> list str)
    (record : list (str * json)) (content : list json) (texts : list str)
    (tool_name tool_input : json) :
  assoc (lit "content") record = Some (JList content) ->
  flat_map item_texts content = map JStr texts ->
  render_tool_result uni_decimal unified_diff (JDict record) tool_name tool_input
  = render_tool_result uni_decimal unified_diff
      (JDict [(lit "content", JStr (join [NL] texts))]) tool_name tool_input.
Proof.
  intros Hc Ht. unfold render_tool_result.
  destruct (is_str (lit "Edit") tool_name && truthy tool_input); [reflexivity|].
  replace (result_content (JDict record)) with (Ok (A := json) (JStr (join [NL] texts)));
    [reflexivity|].
  unfold result_content. cbn [get bind]. rewrite Hc.
  unfold text_parts. rewrite text_parts_loop. cbn [bind app].
  rewrite Ht, join_values_strings. reflexivity.
Qed.

(** A text object, an image and a string. *)
Lemma render_tool_result_list_content_witness :
  render_tool_result Reference.decimal Reference.unified_diff
    (JDict [(lit "content",
             JList [dict_of [("type", "text"); ("text", "first")];
                    dict_of [("type", "image"); ("data", "iVBOR")];
                    JStr (lit "second")])])
    (JStr (lit "Read")) (JDict [])
  = render_tool_result Reference.decimal Reference.unified_diff
      (JDict [(lit "content", JStr (join [NL] [lit "first"; lit "second"]))])
      (JStr (lit "Read")) (JDict []).
Proof.
  apply (render_tool_result_list_content Reference.decimal Reference.unified_diff
           [(lit "content",
             JList [dict_of [("type", "text"); ("text", "first")];
                    dict_of [("type", "image"); ("data", "iVBOR")];
                    JStr (lit "second")])]
           [dict_of [("type", "text"); ("text", "first")];
            dict_of [("type", "image"); ("data", "iVBOR")];
            JStr (lit "second")]
           [lit "first"; lit "second"]).
  - reflexivity.
  - reflexivity.
Defined.

(** ** The items of a message *)

Section Items.
Variables uni_alnum uni_space : char -> bool.
Variable uni_decimal : char -> option Z.
Variable py_repr : json -> str.
Variable unified_diff : list str -> list str -> list str.
Variable messages : list json.

Abbreviation render_record :=
  (render_message uni_alnum uni_space uni_decimal py_repr unified_diff messages).
Abbreviation assistant_step :=
  (assistant_item uni_alnum uni_space uni_decimal py_repr unified_diff messages).

(** A user record whose content is a list. *)
Lemma render_message_user_list (record message : list (str * json)) (content : list json) :
  assoc (lit "type") record = Some (JStr (lit "user")) ->
  assoc (lit "message") record = Some (JDict message) ->
  assoc (lit "content") message = Some (JList content) ->
  render_record (JDict record)
  = (html_parts <- for_each content (user_item uni_alnum) [] ;;
     Ok (message_block "message user-message" html_parts)).
Proof.
  intros Ht Hm Hc. unfold render_message. cbn [get bind]. rewrite Ht, Hm.
  cbn [get bind]. rewrite Hc. rewrite is_str_refl. reflexivity.
Qed.

(** An assistant record whose content is a list. *)
Lemma render_message_assistant_list (record message : list (str * json)) (content : list json) :
  assoc (lit "type") record = Some (JStr (lit "assistant")) ->
  assoc (lit "message") record = Some (JDict message) ->
  assoc (lit "content") message = Some (JList content) ->
  render_record (JDict record)
  = (html_parts <- for_each content assistant_step [] ;;
     Ok (message_block "message assistant-message" html_parts)).
Proof.
  intros Ht Hm Hc. unfold render_message. cbn [get bind]. rewrite Ht, Hm.
  cbn [get bind]. rewrite Hc.
  replace (is_str (lit "user") (JStr (lit "assistant"))) with false by reflexivity.
  rewrite is_str_refl. reflexivity.
Qed.

Lemma user_items_filter (content : list json) :
  forall acc,
    for_each (filter is_text_item content) (user_item uni_alnum) acc
    = for_each content (user_item uni_alnum) acc.
Proof.
  induction content as [|item content IH]; intros acc; [reflexivity|].
  cbn [filter]. destruct (is_text_item item) eqn:E.
  - cbn [for_each]. destruct (user_item uni_alnum acc item); cbn [bind]; auto.
  - cbn [for_each]. rewrite IH.
    destruct item as [| | | |s|l|d]; try discriminate; try reflexivity.
    cbn [is_text_item] in E. unfold field in E.
    cbn [user_item get bind]. now rewrite E.
Qed.

Lemma assistant_items_filter (content : list json) :
  forall acc,
    for_each (filter is_visible_item content) assistant_step acc
    = for_each content assistant_step acc.
Proof.
  induction content as [|item content IH]; intros acc; [reflexivity|].
  cbn [filter]. destruct (is_visible_item item) eqn:E.
  - cbn [for_each]. destruct (assistant_step acc item); cbn [bind]; auto.
  - cbn [for_each]. rewrite IH.
    destruct item as [| | | |s|l|d]; try discriminate; try reflexivity.
    cbn [is_visible_item] in E. unfold field in E.
    apply orb_false_iff in E as [E1 E2].
    cbn [assistant_item get bind]. rewrite E1, E2.
    now destruct (is_str (lit "thinking")
                    match assoc (lit "type") d with Some x => x | None => JNull end).
Qed.
End Items.

(** X13.  Of the content items of a user record only the strings and
    the text objects are rendered: the record renders like the record
    with these items alone, and renders as nothing when it has no such
    item, as a record that only carries tool results does. *)
Theorem render_message_user_items
    (uni_alnum uni_space : char -> bool) (uni_decimal : char -> option Z)
    (py_repr : json -> str) (unified_diff : list str -> list str -> list str)
    (messages : list json) (record message : list (str * json)) (content : list json) :
  assoc (lit "type") record = Some (JStr (lit "user")) ->
  assoc (lit "message") record = Some (JDict message) ->
  assoc (lit "content") message = Some (JList content) ->
  render_message uni_alnum uni_space uni_decimal py_repr unified_diff messages (JDict record)
  = render_message uni_alnum uni_space uni_decimal py_repr unified_diff messages
      (content_record "user" (JList (filter is_text_item content)))
  /\ (filter is_text_item content = [] ->
      render_message uni_alnum uni_space uni_decimal py_repr unified_diff messages
        (JDict record) = Ok []).
Proof.
  intros Ht Hm Hc.
  rewrite (render_message_user_list _ _ _ _ _ _ record message content) by auto.
  unfold content_record.
  rewrite (render_message_user_list _ _ _ _ _ _ _ _ (filter is_text_item content))
    by reflexivity.
  rewrite user_items_filter. split; [reflexivity|].
  intros E. rewrite <- user_items_filter, E. reflexivity.
Qed.

(** A user record that carries two tool results. *)
Lemma render_message_user_items_witness :
  render_message Reference.alnum Reference.space Reference.decimal Reference.repr
    Reference.unified_diff two_results
    (content_record "user" (JList [tool_result_item "t1" "one"; tool_result_item "t2" "two"]))
  = Ok [].
Proof.
  apply (proj2 (render_message_user_items Reference.alnum Reference.space
                  Reference.decimal Reference.repr Reference.unified_diff two_results
                  [(lit "type", JStr (lit "user"));
                   (lit "message",
                    JDict [(lit "role", JStr (lit "user"));
                           (lit "content",
                            JList [tool_result_item "t1" "one";
                                   tool_result_item "t2" "two"])])]
                  [(lit "role", JStr (lit "user"));
                   (lit "content",
                    JList [tool_result_item "t1" "one"; tool_result_item "t2" "two"])]
                  [tool_result_item "t1" "one"; tool_result_item "t2" "two"]
                  eq_refl eq_refl eq_refl)).
  reflexivity.
Defined.

(** X14.  Of the content items of an assistant record only the
    strings, the text objects and the tool uses can be rendered:
    thinking blocks, and items of any other type, leave no trace, and
    the record renders like the record without them. *)
Theorem render_message_assistant_items
    (uni_alnum uni_space : char -> bool) (uni_decimal : char -> option Z)
    (py_repr : json -> str) (unified_diff : list str -> list str -> list str)
    (messages : list json) (record message : list (str * json)) (content : list json) :
  assoc (lit "type") record = Some (JStr (lit "assistant")) ->
  assoc (lit "message") record = Some (JDict message) ->
  assoc (lit "content") message = Some (JList content) ->
  render_message uni_alnum uni_space uni_decimal py_repr unified_diff messages (JDict record)
  = render_message uni_alnum uni_space uni_decimal py_repr unified_diff messages
      (content_record "assistant" (JList (filter is_visible_item content))).
Proof.
  intros Ht Hm Hc.
  rewrite (render_message_assistant_list _ _ _ _ _ _ record message content) by auto.
  unfold content_record.
  rewrite (render_message_assistant_list _ _ _ _ _ _ _ _ (filter is_visible_item content))
    by reflexivity.
  now rewrite assistant_items_filter.
Qed.

(** A thinking block before the answer. *)
Lemma render_message_assistant_items_witness :
  render_message Reference.alnum Reference.space Reference.decimal Reference.repr
    Reference.unified_diff []
    (content_record "assistant"
       (JList [dict_of [("type", "thinking"); ("thinking", "Let me see.")];
               dict_of [("type", "text"); ("text", "Done.")]]))
  = render_message Reference.alnum Reference.space Reference.decimal Reference.repr
      Reference.unified_diff []
      (content_record "assistant" (JList [dict_of [("type", "text"); ("text", "Done.")]])).
Proof.
  exact (render_message_assistant_items Reference.alnum Reference.space
           Reference.decimal Reference.repr Reference.unified_diff []
           [(lit "type", JStr (lit "assistant"));
            (lit "message",
             JDict [(lit "role", JStr (lit "assistant"));
                    (lit "content",
                     JList [dict_of [("type", "thinking"); ("thinking", "Let me see.")];
                            dict_of [("type", "text"); ("text", "Done.")]])])]
           [(lit "role", JStr (lit "assistant"));
            (lit "content",
             JList [dict_of [("type", "thinking"); ("thinking", "Let me see.")];
                    dict_of [("type", "text"); ("text", "Done.")]])]
           [dict_of [("type", "thinking"); ("thinking", "Let me see.")];
            dict_of [("type", "text"); ("text", "Done.")]]
           eq_refl eq_refl eq_refl).
Defined.

(** ** Line numbers of a diff *)

Section DiffNumbers.
Variable uni_decimal : char -> option Z.

Lemma match_hunk_header (line : str) (a b : Z) :
  match_hunk uni_decimal line = Some (a, b) -> startswith (lit "@@") line = true.
Proof.
  unfold match_hunk. destruct (strip_prefix (lit "@@ -") line) as [r|] eqn:E; [|discriminate].
  intros _. apply strip_prefix_app in E. subst line. reflexivity.
Qed.

(** Between two hunk headers every line gives one entry, and the
    numbers of each side count up from the counters. *)
Lemma diff_body_numbers (lines : list str) :
  forallb (fun l => negb (startswith (lit "@@") l)) lines = true ->
  forall o n : Z,
    let body := diff_body_from uni_decimal lines o n in
    length body = length lines
    /\ (forall i z, nth_error (old_numbers body) i = Some z -> z = (o + 1 + Z.of_nat i)%Z)
    /\ (forall i z, nth_error (new_numbers body) i = Some z -> z = (n + 1 + Z.of_nat i)%Z).
Proof.
  induction lines as [|line lines IH]; intros H o n.
  - cbn. repeat split; intros [|i] z E; discriminate.
  - cbn [forallb] in H. apply andb_true_iff in H as [Hl H].
    apply negb_true_iff in Hl. cbn [diff_body_from]. rewrite Hl.
    destruct (startswith (lit "-") line); [|destruct (startswith (lit "+") line)].
    + destruct (IH H (o + 1)%Z n) as (L & Ho & Hn). cbv zeta in *.
      cbn [length old_numbers new_numbers flat_map old_line new_line app].
      repeat split; [now f_equal| |exact Hn].
      intros [|i] z E; cbn [nth_error] in E.
      * inversion E. lia.
      * apply Ho in E. lia.
    + destruct (IH H o (n + 1)%Z) as (L & Ho & Hn). cbv zeta in *.
      cbn [length old_numbers new_numbers flat_map old_line new_line app].
      repeat split; [now f_equal|exact Ho|].
      intros [|i] z E; cbn [nth_error] in E.
      * inversion E. lia.
      * apply Hn in E. lia.
    + destruct (IH H (o + 1)%Z (n + 1)%Z) as (L & Ho & Hn). cbv zeta in *.
      cbn [length old_numbers new_numbers flat_map old_line new_line app].
      repeat split; [now f_equal| |].
      * intros [|i] z E; cbn [nth_error] in E; [inversion E; lia|apply Ho in E; lia].
      * intros [|i] z E; cbn [nth_error] in E; [inversion E; lia|apply Hn in E; lia].
Qed.
End DiffNumbers.



(** ** The page body holds no injected markup *)

Section PageFacts.
Variable uni_alnum : char -> bool.
Abbreviation safe := (page_markup (is_word uni_alnum)).

Lemma safe_cat (x y : str) : safe x -> safe y -> safe (x ++ y).
Proof.
  induction 1 as [|p s Hp Hs IH]; intros Hy; simpl; auto.
  rewrite <- app_assoc. constructor; auto.
Qed.

Lemma safe_piece (p : str) : page_piece (is_word uni_alnum) p -> safe p.
Proof.
  intros H. rewrite <- (app_nil_r p). constructor; [auto|constructor].
Qed.

Lemma safe_cons (c : char) (s : str) : is_special c = false -> safe s -> safe (c :: s).
Proof.
  intros Hc Hs. change (safe ([c] ++ s)). constructor; auto. now apply page_char.
Qed.

Lemma safe_chars (s : str) : forallb (fun c => negb (is_special c)) s = true -> safe s.
Proof.
  induction s as [|c s IH]; simpl; intros H; [constructor|].
  apply andb_true_iff in H as [Hc Hs]. apply negb_true_iff in Hc.
  apply safe_cons; auto.
Qed.

Lemma safe_markup (s : str) : markup (is_word uni_alnum) true s -> safe s.
Proof.
  induction 1 as [|p s Hp Hs IH]; constructor; auto.
  destruct Hp as [c Hc|e He|t Ht|t Hb Ht|l Hb Hl].
  - now apply page_char.
  - now apply page_entity.
  - apply page_tag. unfold page_tags. rewrite !in_app_iff. auto.
  - apply page_tag. unfold page_tags. rewrite !in_app_iff. auto.
  - now apply page_code_open.
Qed.

Lemma safe_escape (s : str) : safe (escape s).
Proof. apply safe_markup, escape_markup. Qed.

(** The markdown renderer writes markup, whatever the text. *)
Lemma render_markdown_markup (text : str) :
  markup (is_word uni_alnum) true (render_markdown uni_alnum text).
Proof.
  unfold render_markdown. destruct text as [|c text]; [constructor|].
  destruct (extract_code_blocks uni_alnum (c :: text)) as [t blocks].
  apply restore_markup. apply markup_weaken.
  apply (replace_markup uni_alnum _ _ _ NL NL []); auto.
  { apply markup_cat; [apply markup_tag; vm_compute; tauto|].
    apply markup_piece. now apply piece_char. }
  apply (emph_markup uni_alnum (lit "*") (lit "em") (ch "*") []); auto;
    try (vm_compute; tauto).
  apply (emph_markup uni_alnum (lit "**") (lit "strong") (ch "*") [ch "*"]); auto;
    try (vm_compute; tauto).
  apply code_span_markup.
  repeat (match goal with
          | |- markup _ false (replace ?old ?new ?s) =>
              apply (replace_markup uni_alnum old new s (ch "_") (ch "_")
                       (removelast (tl old)));
              [left; reflexivity|reflexivity|reflexivity|
                apply markup_tag; vm_compute; tauto|]
          end).
  apply escape_markup.
Qed.

Lemma safe_markdown (text : str) : safe (render_markdown uni_alnum text).
Proof. apply safe_markup, render_markdown_markup. Qed.

Lemma safe_check (fuel : nat) (s : str) : page_check fuel s = true -> safe s.
Proof.
  revert s. induction fuel as [|fuel IH]; intros s H; [discriminate|].
  destruct s as [|c r]; [constructor|]. cbn [page_check] in H.
  destruct (is_special c) eqn:Ec; cbn [negb] in H.
  - apply existsb_exists in H as (t & Ht & H).
    destruct t as [|a t]; [discriminate|].
    destruct (strip_prefix (a :: t) (c :: r)) as [r'|] eqn:E; [|discriminate].
    apply strip_prefix_app in E. rewrite E. constructor; auto. now apply page_tag.
  - apply safe_cons; auto.
Qed.

Lemma safe_ln (n : nat) (body : str) : safe body -> safe (ln n body).
Proof.
  intros H. unfold ln. apply safe_cons; [reflexivity|].
  apply safe_cat; auto. apply safe_chars. induction n; simpl; auto.
Qed.

Lemma safe_concat (parts : list str) : Forall safe parts -> safe (concat parts).
Proof.
  induction 1; simpl; [constructor|]. now apply safe_cat.
Qed.

Lemma safe_join (sep : str) (parts : list str) :
  safe sep -> Forall safe parts -> safe (join sep parts).
Proof.
  intros Hs. induction 1 as [|p parts Hp Hps IH]; [constructor|].
  destruct parts as [|q parts]; [exact Hp|].
  rewrite join_cons by discriminate. auto using safe_cat.
Qed.

Lemma uint_digits_plain (u : Decimal.uint) :
  forallb (fun c => negb (is_special c)) (lit (NilEmpty.string_of_uint u)) = true.
Proof.
  induction u; simpl; auto.
Qed.

Lemma uint_plain (u : Decimal.uint) :
  forallb (fun c => negb (is_special c)) (lit (NilZero.string_of_uint u)) = true.
Proof.
  unfold NilZero.string_of_uint. destruct u; try apply uint_digits_plain. reflexivity.
Qed.

Lemma safe_nat (n : nat) : safe (str_of_nat n).
Proof. apply safe_chars, uint_plain. Qed.

Lemma safe_Z (z : Z) : safe (str_of_Z z).
Proof.
  apply safe_chars. unfold str_of_Z, NilZero.string_of_int.
  destruct (Z.to_int z) as [d|d]; [apply uint_plain|].
  change (lit (String "-" (NilZero.string_of_uint d)))
    with (ch "-" :: lit (NilZero.string_of_uint d)).
  cbn [forallb]. now rewrite uint_plain.
Qed.

Lemma safe_format_timedelta (td : Z) : safe (format_timedelta td).
Proof.
  unfold format_timedelta. set (total := int_total_seconds td). cbv zeta.
  apply safe_join; [now apply safe_chars|].
  destruct (total / 3600 >? 0)%Z; destruct (total mod 3600 / 60 >? 0)%Z;
    cbn [orb app];
    repeat match goal with |- Forall _ _ => constructor end;
    apply safe_cat; try apply safe_Z; now apply safe_chars.
Qed.
End PageFacts.

(** Succeeds on a term without variables. *)
Ltac closed_text t :=
  tryif (match t with context [?x] => is_var x end) then fail else idtac.

(** Checks a fixed piece of a template against the tags of the page. *)
Ltac fixed_text :=
  match goal with
  | |- page_markup _ ?t => closed_text t; apply (safe_check _ 200); vm_compute; reflexivity
  end.

(** Decomposes a template into its tags, its fixed texts and the
    fragments put into it. *)
Ltac safe_step :=
  match goal with
  | |- page_markup _ [] => apply page_nil
  | |- page_markup _ (_ ++ _) => apply safe_cat
  | |- page_markup _ (ln _ _) => apply safe_ln
  | |- page_markup _ (escape _) => apply safe_escape
  | |- page_markup _ (str_of_nat _) => apply safe_nat
  | |- page_markup _ (str_of_Z _) => apply safe_Z
  | |- page_markup _ (format_timedelta _) => apply safe_format_timedelta
  | |- page_markup _ (render_markdown _ _) => apply safe_markdown
  | |- page_markup _ (lit _) => fixed_text
  | |- page_markup _ (div _) => fixed_text
  | |- page_markup _ (span_ _) => fixed_text
  | |- page_markup _ (open_tag _ _) => fixed_text
  | |- page_markup _ (?c :: _) => closed_text c; apply safe_cons; [reflexivity|]
  end.

Lemma Ok_inj {A : Type} (a b : A) : Ok a = Ok b -> a = b.
Proof. intros H. now injection H. Qed.

(** Reads [v = w] out of a hypothesis [Ok v = Ok w]. *)
Ltac ok_eq H := apply Ok_inj in H; subst.

Lemma assoc_in {V : Type} (k : str) (d : list (str * V)) (v : V) :
  assoc k d = Some v -> In v (map snd d).
Proof.
  induction d as [|[k' v'] d IH]; cbn [assoc map snd In]; [discriminate|].
  destruct (str_eqb k k'); [intros H; injection H as ->; auto|auto].
Qed.

(** The colour of a tool is one of the palette. *)
Lemma tool_color_in (tool_name : json) (color : str) :
  tool_color tool_name = Ok color -> In color (map snd TOOL_COLORS).
Proof.
  assert (Hd : In default_color (map snd TOOL_COLORS)) by (vm_compute; tauto).
  unfold tool_color.
  destruct tool_name; try discriminate; try (intros H; ok_eq H; exact Hd).
  destruct (assoc s TOOL_COLORS) as [c|] eqn:E; intros H; ok_eq H;
    [eapply assoc_in; eauto|exact Hd].
Qed.

Lemma for_each_invariant {A S : Type} (P : S -> Prop) (body : S -> A -> result S)
    (l : list A) :
  (forall acc x acc', P acc -> body acc x = Ok acc' -> P acc') ->
  forall acc r, P acc -> for_each l body acc = Ok r -> P r.
Proof.
  intros Hb. induction l as [|x l IH]; intros acc r Hacc H; cbn [for_each] in H.
  - ok_eq H. auto.
  - destruct (body acc x) as [a|e] eqn:E; cbn [bind] in H; [|discriminate].
    apply (IH a r); [eapply Hb; eauto|exact H].
Qed.

Section PageBody.
Variables uni_alnum uni_space : char -> bool.
Variable uni_decimal : char -> option Z.
Variable py_repr : json -> str.
Variable unified_diff : list str -> list str -> list str.
Abbreviation safe := (page_markup (is_word uni_alnum)).

Lemma safe_tool_use (tool : json) (html : str) :
  render_tool_use py_repr tool = Ok html -> safe html.
Proof.
  unfold render_tool_use. intros H.
  destruct (get tool (lit "name") (JStr (lit "Unknown"))) as [tool_name|] eqn:E1;
    cbn [bind] in H; [|discriminate].
  destruct (get tool (lit "input") (JDict [])) as [tool_input|] eqn:E2;
    cbn [bind] in H; [|discriminate].
  destruct (tool_color tool_name) as [color|] eqn:E3; cbn [bind] in H; [|discriminate].
  destruct (items tool_input) as [kvs|] eqn:E4; cbn [bind] in H; [|discriminate].
  destruct (escape_value tool_name) as [name_html|] eqn:E5; cbn [bind] in H; [|discriminate].
  ok_eq H. repeat safe_step.
  - apply safe_piece, page_tag. unfold page_tags. rewrite !in_app_iff. right. right. right.
    apply (in_map tool_dot). eapply tool_color_in; eauto.
  - destruct tool_name; try discriminate. unfold escape_value in E5. ok_eq E5.
    apply safe_escape.
  - destruct (map (param_preview py_repr) kvs) as [|p ps]; [constructor|].
    destruct (join (lit ", ") (p :: ps)) as [|c s] eqn:Ej; [constructor|].
    repeat safe_step.
Qed.

Lemma safe_line_num (num : option Z) : safe (line_num num).
Proof.
  destruct num as [z|]; cbn [line_num]; [|constructor].
  destruct (z =? 0)%Z; [constructor|apply safe_Z].
Qed.

Lemma safe_diff_line (line : diff_line) : safe (render_diff_line line).
Proof.
  unfold render_diff_line.
  destruct (dl_type line); cbv beta iota zeta; repeat safe_step; apply safe_line_num.
Qed.

Lemma safe_diff_lines (body : list diff_line) : safe (_render_diff_lines body).
Proof.
  unfold _render_diff_lines. repeat safe_step.
  induction body as [|line body IH]; cbn [flat_map]; [constructor|].
  apply safe_cat; auto. apply safe_diff_line.
Qed.

Lemma safe_no_changes : safe no_changes.
Proof. unfold no_changes. repeat safe_step. Qed.

Lemma safe_diff_html (diff : list str) (header : str) :
  safe header -> safe (render_diff_html uni_decimal diff header).
Proof.
  intros Hh. unfold render_diff_html. destruct diff as [|l diff]; [apply safe_no_changes|].
  cbv zeta. destruct (10 <? length (diff_body uni_decimal (l :: diff)))%nat.
  - unfold collapsed_diff. repeat safe_step; auto using safe_diff_lines.
  - unfold expanded_diff. repeat safe_step; auto using safe_diff_lines.
Qed.

Lemma safe_edit_diff (old_string new_string file_path : json) (html : str) :
  render_edit_diff uni_decimal unified_diff old_string new_string file_path = Ok html ->
  safe html.
Proof.
  unfold render_edit_diff. intros H.
  destruct (splitlines old_string) as [old_lines|]; cbn [bind] in H; [|discriminate].
  destruct (splitlines new_string) as [new_lines|]; cbn [bind] in H; [|discriminate].
  destruct (unified_diff old_lines new_lines) as [|l diff].
  - ok_eq H. apply safe_no_changes.
  - destruct (truthy file_path).
    + destruct (escape_value file_path) as [path|] eqn:E; cbn [bind] in H; [|discriminate].
      ok_eq H. apply safe_diff_html.
      destruct file_path; try discriminate. unfold escape_value in E. ok_eq E.
      repeat safe_step.
    + cbn [bind] in H. ok_eq H. apply safe_diff_html. constructor.
Qed.

Lemma safe_content (tool_name : json) (content : str) :
  safe (render_content tool_name content).
Proof.
  unfold render_content. cbv zeta.
  destruct ((is_str (lit "Bash") tool_name || is_str (lit "Grep") tool_name)
            && (3 <? length (split_on NL content))%nat);
    [unfold collapsed_result; repeat safe_step|].
  destruct (contains [ARROW] content && contains [NL] content
            && (20 <? length (split_on NL content))%nat);
    [unfold collapsed_result; repeat safe_step|].
  unfold plain_result. repeat safe_step.
Qed.

Lemma safe_tool_result (item tool_name tool_input : json) (html : str) :
  render_tool_result uni_decimal unified_diff item tool_name tool_input = Ok html ->
  safe html.
Proof.
  unfold render_tool_result. intros H.
  destruct (is_str (lit "Edit") tool_name && truthy tool_input).
  - destruct (get tool_input (lit "old_string") (JStr [])) as [old_string|];
      cbn [bind] in H; [|discriminate].
    destruct (get tool_input (lit "new_string") (JStr [])) as [new_string|];
      cbn [bind] in H; [|discriminate].
    destruct (get tool_input (lit "file_path") (JStr [])) as [file_path|];
      cbn [bind] in H; [|discriminate].
    eapply safe_edit_diff; eauto.
  - destruct (result_content item) as [content|]; cbn [bind] in H; [|discriminate].
    destruct (truthy content); [|ok_eq H; constructor].
    destruct content; try discriminate. ok_eq H. apply safe_content.
Qed.

Lemma safe_find_in_items (items : list json) (tool_id tool_name tool_input : json) (html : str) :
  find_in_items uni_decimal unified_diff items tool_id tool_name tool_input = Ok (Some html) ->
  safe html.
Proof.
  induction items as [|item items IH]; cbn [find_in_items]; [discriminate|].
  destruct item; auto. intros H.
  destruct (get (JDict d) (lit "type") JNull) as [type|]; cbn [bind] in H; [|discriminate].
  destruct (is_str (lit "tool_result") type); auto.
  destruct (get (JDict d) (lit "tool_use_id") JNull) as [id|]; cbn [bind] in H;
    [|discriminate].
  destruct (py_eq id tool_id); auto.
  destruct (render_tool_result uni_decimal unified_diff (JDict d) tool_name tool_input)
    as [rendered|] eqn:E; cbn [bind] in H; [|discriminate].
  ok_eq H. injection H as <-. eapply safe_tool_result; eauto.
Qed.

Lemma safe_find (messages : list json) (tool_id tool_name tool_input : json) (html : str) :
  find_and_render_tool_result uni_decimal unified_diff messages tool_id tool_name tool_input
  = Ok html ->
  safe html.
Proof.
  induction messages as [|msg messages IH]; cbn [find_and_render_tool_result]; intros H.
  - ok_eq H. constructor.
  - destruct (get msg (lit "type") JNull) as [type|]; cbn [bind] in H; [|discriminate].
    destruct (is_str (lit "user") type); auto.
    destruct (get msg (lit "message") (JDict [])) as [message|]; cbn [bind] in H;
      [|discriminate].
    destruct (get message (lit "content") (JList [])) as [content|]; cbn [bind] in H;
      [|discriminate].
    assert (Hi : (items <- iterate content ;;
                  found <- find_in_items uni_decimal unified_diff items
                             tool_id tool_name tool_input ;;
                  match found with
                  | Some html => Ok html
                  | None => find_and_render_tool_result uni_decimal unified_diff messages
                              tool_id tool_name tool_input
                  end) = Ok html -> safe html).
    { intros Hc.
      destruct (iterate content) as [l|]; cbn [bind] in Hc; [|discriminate].
      destruct (find_in_items uni_decimal unified_diff l tool_id tool_name tool_input)
        as [[found|]|] eqn:E; cbn [bind] in Hc; try discriminate; auto.
      ok_eq Hc. eapply safe_find_in_items; eauto. }
    destruct content; auto.
Qed.

Lemma safe_message_text (inner : str) : safe inner -> safe (message_text inner).
Proof. intros H. unfold message_text. repeat safe_step. exact H. Qed.

Lemma safe_markdown_value (text : json) (html : str) :
  render_markdown_value uni_alnum text = Ok html -> safe html.
Proof.
  unfold render_markdown_value. destruct (truthy text); [|intros H; ok_eq H; constructor].
  destruct text; try discriminate. intros H. ok_eq H. apply safe_markdown.
Qed.

Lemma Forall_snoc {A : Type} (P : A -> Prop) (l : list A) (x : A) :
  Forall P l -> P x -> Forall P (l ++ [x]).
Proof.
  intros Hl Hx. apply Forall_app. split; auto.
Qed.

Lemma safe_user_item (acc : list str) (item : json) (acc' : list str) :
  Forall safe acc -> user_item uni_alnum acc item = Ok acc' -> Forall safe acc'.
Proof.
  intros Hacc. unfold user_item.
  destruct item; try (intros H; ok_eq H; exact Hacc).
  - intros H. ok_eq H. apply Forall_snoc; auto.
    apply safe_message_text, safe_markdown.
  - intros H.
    destruct (get (JDict d) (lit "type") JNull) as [type|]; cbn [bind] in H; [|discriminate].
    destruct (is_str (lit "text") type); [|ok_eq H; exact Hacc].
    destruct (get (JDict d) (lit "text") (JStr [])) as [text|]; cbn [bind] in H;
      [|discriminate].
    destruct (render_markdown_value uni_alnum text) as [rendered|] eqn:E; cbn [bind] in H;
      [|discriminate].
    ok_eq H. apply Forall_snoc; auto.
    apply safe_message_text. eapply safe_markdown_value; eauto.
Qed.

Lemma safe_assistant_item (messages : list json) (acc : list str) (item : json)
    (acc' : list str) :
  Forall safe acc ->
  assistant_item uni_alnum uni_space uni_decimal py_repr unified_diff messages acc item
  = Ok acc' ->
  Forall safe acc'.
Proof.
  intros Hacc. unfold assistant_item.
  destruct item; try (intros H; ok_eq H; exact Hacc).
  - destruct (strip uni_space s); intros H; ok_eq H; auto.
    apply Forall_snoc; auto. apply safe_message_text, safe_markdown.
  - intros H.
    destruct (get (JDict d) (lit "type") JNull) as [item_type|]; cbn [bind] in H;
      [|discriminate].
    destruct (is_str (lit "text") item_type).
    + destruct (get (JDict d) (lit "text") (JStr [])) as [text|]; cbn [bind] in H;
        [|discriminate].
      destruct (strip_value uni_space text) as [stripped|]; cbn [bind] in H; [|discriminate].
      destruct stripped; [ok_eq H; exact Hacc|].
      destruct (render_markdown_value uni_alnum text) as [rendered|] eqn:E;
        cbn [bind] in H; [|discriminate].
      ok_eq H. apply Forall_snoc; auto.
      apply safe_message_text. eapply safe_markdown_value; eauto.
    + destruct (is_str (lit "thinking") item_type); [ok_eq H; exact Hacc|].
      destruct (is_str (lit "tool_use") item_type); [|ok_eq H; exact Hacc].
      destruct (render_tool_use py_repr (JDict d)) as [use_html|] eqn:Eu; cbn [bind] in H;
        [|discriminate].
      destruct (get (JDict d) (lit "id") JNull) as [tool_id|]; cbn [bind] in H;
        [|discriminate].
      destruct (get (JDict d) (lit "name") (JStr [])) as [tool_name|]; cbn [bind] in H;
        [|discriminate].
      destruct (get (JDict d) (lit "input") (JDict [])) as [tool_input|]; cbn [bind] in H;
        [|discriminate].
      destruct (find_and_render_tool_result uni_decimal unified_diff messages
                  tool_id tool_name tool_input) as [result_html|] eqn:Ef;
        cbn [bind] in H; [|discriminate].
      assert (Hu : Forall safe (acc ++ [use_html]))
        by (apply Forall_snoc; auto; eapply safe_tool_use; eauto).
      destruct result_html as [|c r]; ok_eq H; auto.
      apply Forall_snoc; auto. eapply safe_find; eauto.
Qed.

Lemma safe_message_block (class : string) (parts : list str) :
  safe (div class) -> Forall safe parts -> safe (message_block class parts).
Proof.
  intros Hc Hp. unfold message_block. destruct parts as [|p parts]; [constructor|].
  apply safe_cat; auto. apply safe_cat; [now apply safe_concat|fixed_text].
Qed.

Lemma safe_message (messages : list json) (msg : json) (html : str) :
  render_message uni_alnum uni_space uni_decimal py_repr unified_diff messages msg = Ok html ->
  safe html.
Proof.
  unfold render_message. intros H.
  destruct (get msg (lit "type") JNull) as [msg_type|]; cbn [bind] in H; [|discriminate].
  destruct (get msg (lit "message") (JDict [])) as [message|]; cbn [bind] in H;
    [|discriminate].
  destruct (get message (lit "role") (JStr [])) as [role|]; cbn [bind] in H; [|discriminate].
  destruct (get message (lit "content") (JList [])) as [content_items|]; cbn [bind] in H;
    [|discriminate].
  destruct (is_str (lit "user") msg_type).
  - assert (Hu : forall items parts,
               for_each items (user_item uni_alnum) [] = Ok parts -> Forall safe parts).
    { intros items parts. apply (for_each_invariant (Forall safe)); auto.
      intros acc x acc'. apply safe_user_item. }
    assert (Hp : forall parts,
               match content_items with
               | JStr s => Ok [message_text (render_markdown uni_alnum s)]
               | _ => items <- iterate content_items ;;
                      for_each items (user_item uni_alnum) []
               end = Ok parts -> Forall safe parts).
    { intros parts Hc.
      destruct content_items;
        try (destruct (iterate _) as [items|] eqn:Ei; cbn [bind] in Hc; [|discriminate];
             eapply Hu; eauto; fail).
      ok_eq Hc. apply Forall_cons; [|apply Forall_nil].
      apply safe_message_text, safe_markdown. }
    destruct (match content_items with
              | JStr s => Ok [message_text (render_markdown uni_alnum s)]
              | _ => items <- iterate content_items ;;
                     for_each items (user_item uni_alnum) []
              end) as [parts|] eqn:Ep; cbn [bind] in H; [|discriminate].
    ok_eq H. apply safe_message_block; [fixed_text|auto].
  - destruct (is_str (lit "assistant") msg_type); [|ok_eq H; constructor].
    destruct (iterate content_items) as [items|]; cbn [bind] in H; [|discriminate].
    destruct (for_each items
                (assistant_item uni_alnum uni_space uni_decimal py_repr unified_diff messages)
                []) as [parts|] eqn:Ep; cbn [bind] in H; [|discriminate].
    ok_eq H. apply safe_message_block; [fixed_text|].
    revert Ep. apply (for_each_invariant (Forall safe)); auto.
    intros acc x acc'. apply safe_assistant_item.
Qed.
End PageBody.

(** In a piece the angle bracket [<] can only be the first character. *)
Lemma page_piece_bracket (word : char -> bool) (p : str) :
  page_piece (is_word word) p -> ~ In (ch "<") (tl p).
Proof.
  intros [c Hc|e He|t Ht|l Hl].
  - simpl. tauto.
  - assert (F : forallb (fun e => negb (existsb (N.eqb (ch "<")) (tl e))) entities = true)
      by (vm_compute; reflexivity).
    rewrite forallb_forall in F. specialize (F _ He). apply negb_true_iff in F.
    intros Hin. apply Bool.not_true_iff_false in F. apply F.
    apply existsb_exists. exists (ch "<"). split; [exact Hin|apply N.eqb_refl].
  - assert (F : forallb (fun e => negb (existsb (N.eqb (ch "<")) (tl e))) page_tags = true)
      by (vm_compute; reflexivity).
    rewrite forallb_forall in F. specialize (F _ Ht). apply negb_true_iff in F.
    intros Hin. apply Bool.not_true_iff_false in F. apply F.
    apply existsb_exists. exists (ch "<"). split; [exact Hin|apply N.eqb_refl].
  - assert (E : tl (code_open l)
               = lit "code class=" ++ [DQ] ++ lit "language-" ++ l ++ [DQ; ch ">"])
      by (rewrite code_open_eq; reflexivity).
    rewrite E, !in_app_iff. rewrite forallb_forall in Hl.
    intros [H|[H|[H|[H|H]]]].
    + vm_compute in H. intuition discriminate.
    + vm_compute in H. intuition discriminate.
    + vm_compute in H. intuition discriminate.
    + apply Hl in H. apply is_word_plain in H. destruct H as (H & _). discriminate.
    + vm_compute in H. intuition discriminate.
Qed.

(** In page markup every [<] begins one of the tags of the page. *)
Lemma page_markup_bracket (word : char -> bool) (s : str) :
  page_markup (is_word word) s ->
  forall x y, s = x ++ ch "<" :: y ->
  exists p rest, ch "<" :: y = p ++ rest
    /\ (In p page_tags \/ exists l, forallb (is_word word) l = true /\ p = code_open l).
Proof.
  induction 1 as [|p s Hp Hs IH]; intros x y E.
  - destruct x; discriminate.
  - symmetry in E. apply app_eq_app in E as [l [[E1 E2]|[E1 E2]]].
    + apply (IH l y). exact E2.
    + destruct l as [|c l].
      * cbn [app] in E2. apply (IH [] y). now rewrite <- E2.
      * cbn [app] in E2. injection E2 as <- E2.
        destruct x as [|d x].
        -- cbn [app] in E1. exists p, s. split; [now rewrite E1, E2|].
           destruct Hp as [c Hc|e He|t Ht|l' Hl'].
           ++ injection E1 as -> _. discriminate.
           ++ exfalso. rewrite E1 in He. vm_compute in He. intuition discriminate.
           ++ now left.
           ++ right. eauto.
        -- exfalso. apply (page_piece_bracket word p Hp). rewrite E1. cbn [app tl].
           apply in_app_iff. right. now left.
Qed.

(** X16.  Whatever the records hold, the rendering of a record is a
    sequence of characters that HTML does not read as markup, of
    entities of [html.escape] and of complete tags of the renderer's
    templates: every text that comes from the log (messages, tool
    names, parameters, results, diffs, file paths) reaches the page
    escaped, and every [<] of the fragment begins a tag of the
    templates. *)
Theorem render_message_page_markup
    (uni_alnum uni_space : char -> bool) (uni_decimal : char -> option Z)
    (py_repr : json -> str) (unified_diff : list str -> list str -> list str)
    (messages : list json) (msg : json) (html : str) :
  render_message uni_alnum uni_space uni_decimal py_repr unified_diff messages msg = Ok html ->
  page_markup (is_word uni_alnum) html
  /\ forall x y, html = x ++ ch "<" :: y ->
       exists p rest, ch "<" :: y = p ++ rest
         /\ (In p page_tags
             \/ exists l, forallb (is_word uni_alnum) l = true /\ p = code_open l).
Proof.
  intros H. apply safe_message in H. split; auto.
  now apply page_markup_bracket.
Qed.

(** A prompt that holds a script element: the element is shown, not
    run. *)
Lemma render_message_page_markup_witness :
  page_markup (is_word Reference.alnum)
    (div "message user-message"
       ++ message_text (lit "&lt;script&gt;alert(1)&lt;/script&gt;") ++ lit "</div>").
Proof.
  apply (render_message_page_markup Reference.alnum Reference.space Reference.decimal
           Reference.repr Reference.unified_diff []
           (content_record "user" (JStr (lit "<script>alert(1)</script>")))).
  vm_compute. reflexivity.
Defined.

(** X17.  The two fragments that the page is built around, the timing
    summary and the concatenation of the rendered records, are markup
    of the same kind whenever they are computed. *)
Theorem page_body_markup
    (uni_alnum uni_space : char -> bool) (uni_decimal : char -> option Z)
    (fromisoformat : str -> option datetime)
    (py_repr : json -> str) (unified_diff : list str -> list str -> list str)
    (messages : list json) (html : str) :
  (timing_html fromisoformat messages = Ok html -> page_markup (is_word uni_alnum) html)
  /\ (messages_html uni_alnum uni_space uni_decimal py_repr unified_diff messages = Ok html ->
      page_markup (is_word uni_alnum) html).
Proof.
  split; intros H.
  - unfold timing_html in H.
    destruct (calculate_session_timing fromisoformat messages) as [t|]; cbn [bind] in H;
      [|discriminate].
    ok_eq H. unfold timing_item. repeat safe_step.
  - unfold messages_html in H.
    destruct (for_each messages _ []) as [parts|] eqn:Ep; cbn [bind] in H; [|discriminate].
    ok_eq H. apply safe_concat.
    revert Ep. apply (for_each_invariant (Forall (page_markup (is_word uni_alnum)))); auto.
    intros acc msg acc' Hacc Hb.
    destruct (render_message uni_alnum uni_space uni_decimal py_repr unified_diff
                messages msg) as [rendered|] eqn:Er; cbn [bind] in Hb; [|discriminate].
    destruct rendered as [|c r]; ok_eq Hb; auto.
    apply Forall_snoc; auto. eapply safe_message; eauto.
Qed.

(** The summary of a session of 42 seconds. *)
Lemma page_body_markup_witness :
  exists html,
    timing_html Reference.fromisoformat
      [timed_record "user" "2025-01-01T10:00:00Z";
       timed_record "assistant" "2025-01-01T10:00:42Z"] = Ok html
    /\ page_markup (is_word Reference.alnum) html.
Proof.
  eexists. split; [vm_compute; reflexivity|].
  apply (proj1 (page_body_markup Reference.alnum Reference.space Reference.decimal
                  Reference.fromisoformat Reference.repr Reference.unified_diff
                  [timed_record "user" "2025-01-01T10:00:00Z";
                   timed_record "assistant" "2025-01-01T10:00:42Z"] _)).
  vm_compute. reflexivity.
Defined.

(** * The fragments of the page, character by character *)

(** ** The templates

    What each template of the renderer writes, compared with the text
    that the page is expected to hold. *)

(** Brings the two sides of an equation between texts to the same
    shape: every concatenation nested to the right. *)
Ltac same_text :=
  repeat (rewrite <- app_assoc || rewrite <- app_comm_cons); reflexivity.

Lemma line_num_shown (num : option Z) : line_num num = shown_number num.
Proof. reflexivity. Qed.

Lemma render_diff_line_text (l : diff_line) : render_diff_line l = expected_diff_line l.
Proof.
  unfold render_diff_line, expected_diff_line, with_quotes, ln.
  destruct (dl_type l); cbv beta iota zeta; rewrite !line_num_shown;
    cbn [join]; same_text.
Qed.

Lemma render_diff_lines_text (body : list diff_line) :
  _render_diff_lines body = expected_diff_lines body.
Proof.
  unfold _render_diff_lines, expected_diff_lines.
  rewrite flat_map_concat_map.
  rewrite (map_ext _ _ render_diff_line_text). reflexivity.
Qed.

Lemma expanded_diff_text (header lines : str) :
  expanded_diff header lines = expected_expanded_diff header lines.
Proof.
  unfold expanded_diff, expected_expanded_diff, with_quotes, ln. cbn [join]. same_text.
Qed.

Lemma collapsed_diff_text (header preview full : str) (hidden : nat) :
  collapsed_diff header preview full hidden
  = expected_collapsed_diff header preview full hidden.
Proof.
  unfold collapsed_diff, expected_collapsed_diff, with_quotes, ln. cbn [join]. same_text.
Qed.

Lemma plain_result_text (content : str) : plain_result content = expected_plain_result content.
Proof.
  unfold plain_result, expected_plain_result, with_quotes, ln. cbn [join]. same_text.
Qed.

Lemma collapsed_output_text (preview content : str) (total : nat) :
  collapsed_result "output" preview content total 16
  = expected_collapsed_output preview content total.
Proof.
  unfold collapsed_result, expected_collapsed_output, with_quotes, ln. cbn [join]. same_text.
Qed.

Lemma message_text_text (inner : str) : message_text inner = expected_message_text inner.
Proof.
  unfold message_text, expected_message_text, with_quotes. cbn [join]. same_text.
Qed.

Lemma message_block_text (class : string) (blocks : list str) :
  message_block class blocks = expected_message class blocks.
Proof.
  unfold message_block, expected_message, with_quotes, div, open_tag, quoted.
  destruct blocks; [reflexivity|]. cbn [join flat_map fst snd]. same_text.
Qed.

(** ** Edit diffs *)

(** The header of an edit diff as [render_edit_diff] builds it. *)
Lemma file_header_text (file_path : str) :
  match file_path with
  | [] => []
  | _ => div "diff-file-header" ++ BULLET :: lit " Edit " ++ escape file_path ++ lit "</div>"
  end = expected_file_header file_path.
Proof.
  unfold expected_file_header, with_quotes. destruct file_path; [reflexivity|].
  cbn [join]. same_text.
Qed.

(** The body that [render_edit_diff] collects holds the lines of the
    diff that are no header, in order, each with its kind and text. *)
Lemma diff_body_entries (uni_decimal : char -> option Z) (lines : list str) :
  forall o n,
    map (fun l => (dl_type l, dl_content l)) (diff_body_from uni_decimal lines o n)
    = map body_entry (filter (fun line => negb (startswith (lit "@@") line)) lines).
Proof.
  induction lines as [|line lines IH]; intros o n; [reflexivity|].
  cbn [diff_body_from filter].
  destruct (startswith (lit "@@") line) eqn:Eh; cbn [negb].
  - destruct (match_hunk uni_decimal line) as [[a b]|]; apply IH.
  - destruct line as [|c r].
    + unfold startswith. cbn [lit list_ascii_of_string map strip_prefix body_entry].
      now rewrite IH.
    + unfold startswith. cbn [lit list_ascii_of_string map strip_prefix body_entry].
      unfold ch. rewrite (N.eqb_sym c (N_of_ascii "-")), (N.eqb_sym c (N_of_ascii "+")),
        (N.eqb_sym c (N_of_ascii " ")).
      destruct (N_of_ascii "-" =? c); [cbn [map]; now rewrite IH|].
      destruct (N_of_ascii "+" =? c); [cbn [map]; now rewrite IH|].
      destruct (N_of_ascii " " =? c); cbn [map]; now rewrite IH.
Qed.

(** C5.  An edit diff whose body has at most 10 lines is rendered with
    all its lines, each with its numbers, its sign and its escaped text,
    and with no control to expand it; one of more than 10 lines holds
    its first 5 lines, a control that reports the total minus 5 as
    hidden, and then all its lines in the part that the control reveals.
    A body of 11 lines reports 6 hidden lines.  The body holds the
    lines of the diff after its two file lines, the hunk headers left
    out, and the markup is given character by character. *)
Theorem render_edit_diff_collapse
    (uni_decimal : char -> option Z) (unified_diff : list str -> list str -> list str)
    (old_string new_string file_path : str) :
  let diff := unified_diff (splitlines_from [] old_string) (splitlines_from [] new_string) in
  let body := diff_body uni_decimal diff in
  let header := expected_file_header file_path in
  let rendered :=
    render_edit_diff uni_decimal unified_diff
      (JStr old_string) (JStr new_string) (JStr file_path) in
  diff <> [] ->
  map (fun l => (dl_type l, dl_content l)) body = body_entries diff
  /\ ((length body <= 10)%nat ->
      rendered = Ok (expected_expanded_diff header (expected_diff_lines body)))
  /\ ((10 < length body)%nat ->
      rendered = Ok (expected_collapsed_diff header
                       (expected_diff_lines (firstn 5 body)) (expected_diff_lines body)
                       (length body - 5)))
  /\ (length body = 11%nat ->
      exists before after,
        rendered = Ok (before ++ lit "Show full diff (6 more lines)" ++ after)).
Proof.
  intros diff body header rendered Hd.
  assert (E : rendered = Ok (render_diff_html uni_decimal diff header)).
  { unfold rendered, render_edit_diff. cbn [splitlines bind]. fold diff.
    destruct diff as [|l d]; [congruence|].
    unfold header. rewrite <- file_header_text. destruct file_path; reflexivity. }
  destruct (render_diff_html_cases uni_decimal diff header Hd) as (H1 & H2 & H3).
  fold body in H1, H2, H3. rewrite E. repeat split.
  - apply diff_body_entries.
  - intros H. rewrite H1 by auto. now rewrite expanded_diff_text, render_diff_lines_text.
  - intros H. rewrite H2 by auto.
    now rewrite collapsed_diff_text, !render_diff_lines_text.
  - intros H. destruct (H3 H) as (before & after & ->). eauto.
Qed.

(** Two lines replaced among ten: a diff of 11 body lines. *)
Lemma render_edit_diff_witness :
  exists before after,
    render_edit_diff Reference.decimal Reference.unified_diff
      (JStr (ten_lines "old")) (JStr (ten_lines "new")) (JStr (lit "notes.txt"))
    = Ok (before ++ lit "Show full diff (6 more lines)" ++ after).
Proof.
  apply (render_edit_diff_collapse Reference.decimal Reference.unified_diff
           (ten_lines "old") (ten_lines "new") (lit "notes.txt")).
  - vm_compute. discriminate.
  - vm_compute. reflexivity.
Defined.

(** ** Results of the shell and of the search tool *)

(** C6 as stated fails on an output whose last line ends with a line
    break: the three lines [a], [b], [c], each ended by a line break,
    are not shown in full but collapsed, and reported as 4 lines.  The
    lines that the renderer counts are the pieces between the line
    breaks, the empty one after the last line break included. *)
Lemma render_tool_result_trailing_line_break :
  render_tool_result Reference.decimal Reference.unified_diff
    (JDict [(lit "content", JStr (text ["a"; "b"; "c"; ""]))]) (JStr (lit "Bash")) (JDict [])
  = Ok (expected_collapsed_output (text ["a"; "b"; "c"]) (text ["a"; "b"; "c"; ""]) 4).
Proof.
  rewrite <- collapsed_output_text. vm_compute. reflexivity.
Qed.

Lemma strings_of_map (values : list json) :
  forall texts, strings_of values = Some texts -> values = map JStr texts.
Proof.
  induction values as [|v values IH]; intros texts; cbn [strings_of].
  - now intros [= <-].
  - destruct v; try discriminate.
    destruct (strings_of values) as [ts|]; [|discriminate].
    cbn [option_map]. intros [= <-]. cbn [map]. now rewrite (IH ts).
Qed.

(** The content that the result renderer goes on with is the text that
    the record carries. *)
Lemma result_content_payload (record : list (str * json)) (content : str) :
  payload_text record = Some content ->
  result_content (JDict record) = Ok (JStr content).
Proof.
  unfold payload_text, result_content. cbn [get bind].
  destruct (assoc (lit "content") record) as [[| | | |s|l|d]|]; try discriminate.
  - now intros [= ->].
  - destruct (strings_of (flat_map item_texts l)) as [texts|] eqn:E; [|discriminate].
    cbn [option_map]. intros [= <-].
    unfold text_parts. rewrite text_parts_loop. cbn [bind app].
    rewrite (strings_of_map _ _ E), join_values_strings. reflexivity.
  - now intros [= <-].
Qed.

(** C6, amended.  For a result of the shell or of the search tool, the
    content being the string of the record or its text items joined by
    line breaks, and the lines being the pieces of the content between
    its line breaks (one more than the number of line breaks):
    an empty content renders nothing; a content of at most 3 lines is
    rendered in full in a plain block, with no control to expand it; a
    content of more than 3 lines is collapsed, the preview being the
    content before its third line break, followed by a hint that
    reports the total number of lines and by the whole content in the
    part that a click reveals.  Four lines report 4 lines.  The markup
    is given character by character. *)
Theorem render_tool_result_high_volume
    (uni_decimal : char -> option Z) (unified_diff : list str -> list str -> list str)
    (record : list (str * json)) (tool_input : json) (tool content : str) :
  tool = lit "Bash" \/ tool = lit "Grep" ->
  payload_text record = Some content ->
  let total := S (line_breaks_count content) in
  let rendered :=
    render_tool_result uni_decimal unified_diff (JDict record) (JStr tool) tool_input in
  (content = [] -> rendered = Ok [])
  /\ (content <> [] -> (total <= 3)%nat -> rendered = Ok (expected_plain_result content))
  /\ ((3 < total)%nat ->
      exists preview rest,
        content = preview ++ NL :: rest
        /\ line_breaks_count preview = 2%nat
        /\ rendered = Ok (expected_collapsed_output preview content total))
  /\ (total = 4%nat ->
      exists before after,
        rendered = Ok (before ++ lit "Click to show full output (4 lines)" ++ after)).
Proof.
  intros Ht Hc total rendered.
  assert (E : rendered = if truthy (JStr content)
                         then Ok (render_content (JStr tool) content) else Ok []).
  { unfold rendered, render_tool_result.
    replace (is_str (lit "Edit") (JStr tool)) with false
      by (destruct Ht as [-> | ->]; reflexivity).
    cbn [andb]. rewrite (result_content_payload record content Hc). reflexivity. }
  assert (Hv : is_str (lit "Bash") (JStr tool) || is_str (lit "Grep") (JStr tool) = true)
    by (destruct Ht as [-> | ->]; reflexivity).
  pose proof (split_on_length content) as Hl. fold total in Hl.
  assert (H3 : (3 < total)%nat ->
               rendered = Ok (expected_collapsed_output
                                (join [NL] (firstn 3 (split_on NL content))) content total)).
  { intros H. rewrite E. destruct content as [|c content]; [cbv in H; lia|].
    cbn [truthy]. unfold render_content. rewrite Hv, Hl.
    replace (3 <? total)%nat with true by (symmetry; apply Nat.ltb_lt; lia).
    cbn [andb]. now rewrite collapsed_output_text. }
  repeat split.
  - intros ->. now rewrite E.
  - intros Hne H. rewrite E. destruct content as [|c content]; [congruence|].
    cbn [truthy]. unfold render_content. rewrite Hv, Hl.
    replace (3 <? total)%nat with false by (symmetry; apply Nat.ltb_ge; lia).
    replace (20 <? total)%nat with false by (symmetry; apply Nat.ltb_ge; lia).
    cbn [andb]. rewrite andb_false_r. now rewrite plain_result_text.
  - intros H. exists (join [NL] (firstn 3 (split_on NL content))),
                     (join [NL] (skipn 3 (split_on NL content))).
    split; [apply split_at_line; lia|]. split; [|now apply H3].
    rewrite join_lines_count by apply firstn_lines.
    rewrite length_firstn. lia.
  - intros H. rewrite H3 by lia. rewrite H.
    unfold expected_collapsed_output, with_quotes. cbn [join].
    change (str_of_nat 4) with (lit "4").
    eexists (lit "
                <div class=" ++ [DQ] ++ lit "tool-result collapsible" ++ [DQ] ++ lit ">
                    <div class=" ++ [DQ] ++ lit "tool-result-preview" ++ [DQ]
               ++ lit " onclick=" ++ [DQ]
               ++ lit "this.parentElement.classList.toggle('expanded')" ++ [DQ] ++ lit ">
                        <pre><code>"
               ++ escape (join [NL] (firstn 3 (split_on NL content)))
               ++ lit "</code></pre>
                        <div class=" ++ [DQ] ++ lit "expand-hint" ++ [DQ] ++ lit ">"), _.
    f_equal. same_text.
Qed.

(** A shell result of four lines. *)
Lemma render_tool_result_high_volume_witness :
  exists before after,
    render_tool_result Reference.decimal Reference.unified_diff
      (JDict [(lit "content", JStr (text ["1"; "2"; "3"; "4"]))])
      (JStr (lit "Bash")) (JDict [])
    = Ok (before ++ lit "Click to show full output (4 lines)" ++ after).
Proof.
  apply (render_tool_result_high_volume Reference.decimal Reference.unified_diff
           [(lit "content", JStr (text ["1"; "2"; "3"; "4"]))]
           (JDict []) (lit "Bash") (text ["1"; "2"; "3"; "4"])).
  - now left.
  - reflexivity.
  - reflexivity.
Defined.

(** ** A message whose content is a string *)

(** The markdown rendering of one character that is no line break is
    the character, escaped. *)
Lemma render_markdown_char (uni_alnum : char -> bool) (c : char) :
  c <> NL -> render_markdown uni_alnum [c] = escape [c].
Proof.
  intros Hc. destruct (sparse_char c) eqn:Es.
  - assert (Hs : forallb sparse_char [c] = true) by (cbn [forallb]; now rewrite Es).
    assert (Hh : contains (lit "___H") [c] = false).
    { unfold contains, find_sub, startswith. cbn [lit list_ascii_of_string map strip_prefix].
      destruct (N_of_ascii "_" =? c); reflexivity. }
    unfold render_markdown.
    rewrite extract_without_backticks by (now apply (sparse_without [c])).
    pose proof (inline_passes_sparse [c] Hs Hh) as E. cbv zeta in E. rewrite E.
    rewrite replace_char. cbn [flat_map app restore_code_blocks].
    destruct (N.eqb_spec c NL); [congruence|].
    rewrite escape_plain by now apply sparse_not_special. reflexivity.
  - assert (H : In c (lit "<>&" ++ [DQ; SQ] ++ lit "`*#")).
    { unfold sparse_char in Es. apply andb_false_iff in Es as [Es|Es];
        apply negb_false_iff in Es; [unfold is_special in Es|];
        apply existsb_exists in Es as (x & Hx & Ex); apply N.eqb_eq in Ex; subst x;
        revert Hx; cbn; tauto. }
    cbn in H.
    repeat (destruct H as [<-|H]; [vm_compute; reflexivity|]). destruct H.
Qed.

Lemma not_space_not_line_break (uni_space : char -> bool) (c : char) :
  is_space uni_space c = false -> c <> NL.
Proof. intros H ->. discriminate. Qed.

(** C9.  The content of an assistant record being a plain string, the
    message renderer goes through the string character by character:
    the message holds one text block for each character that is not
    whitespace, in order, the block holding that character alone
    (escaped, which is all that the markdown renderer does to a single
    character), and nothing for the other characters; no block holds
    the string as a whole.  The markup is given character by
    character. *)
Theorem render_message_string_content
    (uni_alnum uni_space : char -> bool) (uni_decimal : char -> option Z)
    (py_repr : json -> str) (unified_diff : list str -> list str -> list str)
    (messages : list json) (record message : list (str * json)) (content : str) :
  assoc (lit "type") record = Some (JStr (lit "assistant")) ->
  assoc (lit "message") record = Some (JDict message) ->
  assoc (lit "content") message = Some (JStr content) ->
  render_message uni_alnum uni_space uni_decimal py_repr unified_diff messages (JDict record)
  = Ok (expected_message "message assistant-message"
          (map (fun c => expected_message_text (escape [c]))
             (filter (fun c => negb (is_space uni_space c)) content))).
Proof.
  intros Ht Hm Hc. unfold render_message. cbn [get bind]. rewrite Ht, Hm.
  cbn [get bind]. rewrite Hc.
  replace (is_str (lit "user") (JStr (lit "assistant"))) with false by reflexivity.
  rewrite is_str_refl. cbn [iterate bind].
  assert (H : forall s acc,
             for_each (map (fun c => JStr [c]) s)
               (assistant_item uni_alnum uni_space uni_decimal py_repr unified_diff messages)
               acc
             = Ok (acc ++ map (fun c => expected_message_text (escape [c]))
                           (filter (fun c => negb (is_space uni_space c)) s))).
  { induction s as [|c s IH]; intros acc; cbn [map for_each filter].
    - now rewrite app_nil_r.
    - cbn [assistant_item]. rewrite strip_char.
      destruct (is_space uni_space c) eqn:Es; cbn [bind negb map]; rewrite IH; auto.
      rewrite message_text_text, render_markdown_char
        by (now apply (not_space_not_line_break uni_space)).
      now rewrite <- app_assoc. }
  rewrite H. cbn [bind app]. now rewrite message_block_text.
Qed.

(** The content [a <] gives two blocks, one for [a] and one for the
    escaped [<]. *)
Lemma render_message_string_content_witness :
  render_message Reference.alnum Reference.space Reference.decimal Reference.repr
    Reference.unified_diff [] (content_record "assistant" (JStr (lit "a <")))
  = Ok (expected_message "message assistant-message"
          [expected_message_text (lit "a"); expected_message_text (lit "&lt;")]).
Proof.
  exact (render_message_string_content Reference.alnum Reference.space Reference.decimal
           Reference.repr Reference.unified_diff []
           [(lit "type", JStr (lit "assistant"));
            (lit "message", JDict [(lit "role", JStr (lit "assistant"));
                                   (lit "content", JStr (lit "a <"))])]
           [(lit "role", JStr (lit "assistant")); (lit "content", JStr (lit "a <"))]
           (lit "a <") eq_refl eq_refl eq_refl).
Defined.

(** ** Results of the edit tool *)

(** C3 as stated fails when the input mapping is empty: the result of
    an edit whose tool use has no input is rendered from its content
    ([hello] in a plain block), where the diff renderer on the default
    strings would have answered [No changes]. *)
Lemma render_tool_result_edit_empty_input :
  render_tool_result Reference.decimal Reference.unified_diff
    (dict_of [("content", "hello")]) (JStr (lit "Edit")) (JDict [])
  = Ok (expected_plain_result (lit "hello"))
  /\ render_edit_diff Reference.decimal Reference.unified_diff (JStr []) (JStr []) (JStr [])
     = Ok (with_quotes [lit "<div class="; lit "tool-result";
                        lit "><pre><code>No changes</code></pre></div>"]).
Proof.
  split; vm_compute; reflexivity.
Qed.

(** The rendering of a content depends on the tool only through its
    being the shell or the search tool. *)
Lemma render_content_other_tools (a b : json) (content : str) :
  is_str (lit "Bash") a || is_str (lit "Grep") a = false ->
  is_str (lit "Bash") b || is_str (lit "Grep") b = false ->
  render_content a content = render_content b content.
Proof.
  intros Ha Hb. unfold render_content. now rewrite Ha, Hb.
Qed.

(** C3, amended.  For the edit tool and an input mapping that is not
    empty, the result renderer returns what the edit diff renderer
    returns on the old string, the new string and the file path of the
    input (each the empty string when absent), whatever the result
    record holds.  With an input that is empty or absent (an empty
    mapping, [None], any value that counts as false) the result of the
    edit tool is rendered from the record, exactly as the result of any
    tool other than the shell and the search tool. *)
Theorem render_tool_result_edit
    (uni_decimal : char -> option Z) (unified_diff : list str -> list str -> list str)
    (item : json) :
  (forall input : list (str * json),
     input <> [] ->
     render_tool_result uni_decimal unified_diff item (JStr (lit "Edit")) (JDict input)
     = render_edit_diff uni_decimal unified_diff
         (field input "old_string" (JStr []))
         (field input "new_string" (JStr []))
         (field input "file_path" (JStr [])))
  /\ (forall (tool_input : json) (other : str),
        truthy tool_input = false ->
        is_str (lit "Bash") (JStr other) || is_str (lit "Grep") (JStr other) = false ->
        render_tool_result uni_decimal unified_diff item (JStr (lit "Edit")) tool_input
        = render_tool_result uni_decimal unified_diff item (JStr other) tool_input)
  /\ truthy (JDict []) = false /\ truthy JNull = false.
Proof.
  split; [|split; [|split; reflexivity]].
  - intros input H. unfold render_tool_result. rewrite is_str_refl.
    destruct input as [|kv input]; [congruence|]. reflexivity.
  - intros tool_input other Hf Ho. unfold render_tool_result.
    rewrite Hf, !andb_false_r.
    destruct (result_content item) as [content|]; [|reflexivity]. cbn [bind].
    destruct (truthy content); [|reflexivity].
    destruct content; try reflexivity.
    now rewrite (render_content_other_tools (JStr (lit "Edit")) (JStr other)).
Qed.

(** An edit of one line, with a result record that says something else. *)
Lemma render_tool_result_edit_witness :
  render_tool_result Reference.decimal Reference.unified_diff
    (dict_of [("content", "The file was updated")]) (JStr (lit "Edit"))
    (dict_of [("old_string", "a"); ("new_string", "b")])
  = render_edit_diff Reference.decimal Reference.unified_diff
      (JStr (lit "a")) (JStr (lit "b")) (JStr []).
Proof.
  apply (proj1 (render_tool_result_edit Reference.decimal Reference.unified_diff
                  (dict_of [("content", "The file was updated")]))
           [(lit "old_string", JStr (lit "a")); (lit "new_string", JStr (lit "b"))]).
  discriminate.
Defined.

(** ** The timing of two kinds of timestamps *)




(** ** The result of a tool use *)

Section Lookup.
Variable uni_decimal : char -> option Z.
Variable unified_diff : list str -> list str -> list str.
Variables tool_id tool_name tool_input : json.

Abbreviation lookup :=
  (fun messages => find_and_render_tool_result uni_decimal unified_diff messages
                     tool_id tool_name tool_input).
Abbreviation render_item :=
  (fun item => render_tool_result uni_decimal unified_diff item tool_name tool_input).

(** One record of the scan: its first result for the identifier is
    rendered, and without one the scan goes on. *)
Lemma lookup_cons (msg : json) (rest : list json) (items : list json) :
  considered_items msg = Some items ->
  lookup (msg :: rest)
  = match find (is_result_for tool_id) items with
    | Some item => render_item item
    | None => lookup rest
    end.
Proof.
  intros El. cbn [find_and_render_tool_result].
  destruct msg as [|b|z|f|s|l0|d]; try discriminate.
  cbn [get bind]. cbn [considered_items] in El. unfold field in El.
  destruct (is_str (lit "user")
              match assoc (lit "type") d with Some x => x | None => JNull end).
  - destruct (match assoc (lit "message") d with Some x => x | None => JDict [] end)
      as [|b|z|f|s|l0|m]; try discriminate.
    cbn [get bind].
    destruct (match assoc (lit "content") m with Some x => x | None => JList [] end)
      as [|b|z|f|s|l0|kv]; try discriminate;
      injection El as <-; cbn [iterate bind find]; auto.
    + rewrite find_in_items_first.
      destruct (find (is_result_for tool_id) l0) as [item|]; cbn [bind]; auto.
      now destruct (render_tool_result uni_decimal unified_diff item tool_name tool_input).
    + rewrite find_in_items_first.
      rewrite <- (map_map fst JStr), find_strings by reflexivity. auto.
  - injection El as <-. auto.
Qed.

(** The records before the first result for the identifier are passed
    over. *)
Lemma lookup_skip (before : list json) :
  forall earlier rest,
    all_considered before = Some earlier ->
    find (is_result_for tool_id) earlier = None ->
    lookup (before ++ rest) = lookup rest.
Proof.
  induction before as [|msg before IH]; intros earlier rest Hall Hnone; [reflexivity|].
  cbn [all_considered] in Hall.
  destruct (considered_items msg) as [l|] eqn:El; [|discriminate].
  destruct (all_considered before) as [ls|] eqn:Els; [|discriminate].
  injection Hall as <-. rewrite find_app_first in Hnone.
  destruct (find (is_result_for tool_id) l) eqn:Ef; [discriminate|].
  cbn [app]. rewrite (lookup_cons msg (before ++ rest) l El), Ef.
  now apply (IH ls).
Qed.

Lemma result_has_id (item : json) :
  is_result_for tool_id item = true -> has_tool_use_id tool_id item = true.
Proof.
  destruct item; try discriminate. cbn [is_result_for has_tool_use_id].
  intros H. now apply andb_true_iff in H.
Qed.

Lemma find_without_id (items : list json) :
  existsb (has_tool_use_id tool_id) items = false ->
  find (is_result_for tool_id) items = None.
Proof.
  induction items as [|item items IH]; [reflexivity|]. cbn [existsb find].
  intros H. apply orb_false_iff in H as [Hi H].
  destruct (is_result_for tool_id item) eqn:E; [|auto].
  apply result_has_id in E. congruence.
Qed.
End Lookup.

(** C8.  The lookup goes through the records in file order and
    considers the content items of the user-type records only.  Where
    the records follow the data model of the specification (a record
    is an object whose message is an object with a string or a list of
    content items, and an item that carries a [tool_use_id] is a tool
    result), the first content item whose [tool_use_id] equals the
    identifier is the one that is rendered, and that item alone,
    whatever the records after it hold; when no content item carries
    the identifier the lookup returns the empty fragment.  (The
    records are an argument that the lookup reads and does not return:
    nothing is changed in them.) *)
Theorem find_and_render_first_result
    (uni_decimal : char -> option Z) (unified_diff : list str -> list str -> list str)
    (tool_id tool_name tool_input : json) :
  (forall (before : list json) (msg : json) (after earlier l1 : list json) (item : json)
          (l2 : list json),
     all_considered before = Some earlier ->
     considered_items msg = Some (l1 ++ item :: l2) ->
     existsb (has_tool_use_id tool_id) (earlier ++ l1) = false ->
     is_result_for tool_id item = true ->
     find_and_render_tool_result uni_decimal unified_diff (before ++ msg :: after)
       tool_id tool_name tool_input
     = render_tool_result uni_decimal unified_diff item tool_name tool_input)
  /\ (forall messages items : list json,
        all_considered messages = Some items ->
        existsb (has_tool_use_id tool_id) items = false ->
        find_and_render_tool_result uni_decimal unified_diff messages
          tool_id tool_name tool_input
        = Ok []).
Proof.
  split.
  - intros before msg after earlier l1 item l2 Hb Hm Hno Hitem.
    rewrite existsb_app in Hno. apply orb_false_iff in Hno as [He Hl].
    rewrite (lookup_skip _ _ _ _ _ before earlier) by auto using find_without_id.
    rewrite (lookup_cons _ _ _ _ _ msg after _ Hm), find_app_first.
    rewrite find_without_id by auto. cbn [find]. now rewrite Hitem.
  - intros messages items Hall Hno.
    rewrite <- (app_nil_r messages).
    rewrite (lookup_skip _ _ _ _ _ messages items) by auto using find_without_id.
    reflexivity.
Qed.

(** Two results in two user records: the one of [t2] is found in the
    third record. *)
Lemma find_and_render_first_result_witness :
  find_and_render_tool_result Reference.decimal Reference.unified_diff two_results
    (JStr (lit "t2")) (JStr (lit "Read")) (JDict [])
  = render_tool_result Reference.decimal Reference.unified_diff
      (tool_result_item "t2" "two") (JStr (lit "Read")) (JDict []).
Proof.
  exact (proj1 (find_and_render_first_result Reference.decimal Reference.unified_diff
                  (JStr (lit "t2")) (JStr (lit "Read")) (JDict []))
           [content_record "user" (JStr (lit "run the tests"));
            content_record "user" (JList [tool_result_item "t1" "one"])]
           (content_record "user" (JList [tool_result_item "t2" "two"]))
           [] [tool_result_item "t1" "one"] [] (tool_result_item "t2" "two") []
           eq_refl eq_refl eq_refl eq_refl).
Defined.
